(** * AMCache Windows Registry parser (plaso/parsers/amcache.py)

    A shallow embedding of the decode/mapping engine of the AMCache parser:
    the value decoder, the display formatter, the file and program entry
    decoders and the tree walker, with the properties of the specification
    stated over it.

    Conventions of the embedding.
    - A Python [str] is a [string] whose characters are code points below
      256; comparison of strings is by code point, as in Python.
    - The attributes [name], [type] and [data] of a pyregf value and the
      attributes of a pyregf key are fields; the methods [get_data_as_string],
      [get_data_as_integer] and [get_data_as_multi_string] may raise, so the
      record of a value holds the outcome of each of them.
    - The parser mediator is the state: the ordered events and the ordered
      extraction warnings produced so far.  Code that talks to the mediator
      or that may raise lives in the monad [M]. *)

From Stdlib Require Import ZArith List String Ascii Bool Lia.
From Stdlib Require Import Permutation Sorted DecimalString.
Import ListNotations.
#[local] Open Scope list_scope.
#[local] Open Scope string_scope.

(** ** Python values, exceptions and the built-ins the parser uses *)

Module Py.

Inductive ExcKind : Type :=
  | IOError | OverflowError | ValueError | TypeError | AttributeError.

(** An exception: its class and the text [str(exception)] gives. *)
Record Exc : Type := mkExc { exc_kind : ExcKind; exc_msg : string }.

Inductive res (A : Type) : Type :=
  | Ok (a : A)
  | Raise (e : Exc).
Arguments Ok {A} a.
Arguments Raise {A} e.

(** What the parser holds in a variable: [None], a [str], an [int], a list
    of [str] or [bytes]. *)
Inductive PyVal : Type :=
  | PyNone
  | PyStr (s : string)
  | PyInt (z : Z)
  | PyList (l : list string)
  | PyBytes (b : list Byte.byte).

(** ['{0:d}'.format(z)] *)
Definition format_d (z : Z) : string := NilZero.string_of_int (Z.to_int z).

(** ['{0:s}'.format(value)] for a [str] or [None]: the format code [s] is
    refused by [None]. *)
Definition format_type_error : Exc :=
  mkExc TypeError "unsupported format string passed to NoneType.__format__".

Definition format_s (value : option string) : res string :=
  match value with
  | Some s => Ok s
  | None => Raise format_type_error
  end.

(** [sep.join(l)] *)
Definition join (sep : string) (l : list string) : string := String.concat sep l.

(** [s.startswith(p)] *)
Definition startswith (s p : string) : bool := String.prefix p s.

(** [s[n:]] *)
Fixpoint drop (n : nat) (s : string) : string :=
  match n, s with
  | S k, String _ s' => drop k s'
  | _, _ => s
  end.

(** [sub in s] *)
Fixpoint contains (sub s : string) : bool :=
  String.prefix sub s ||
  match s with
  | EmptyString => false
  | String _ s' => contains sub s'
  end.

(** [s.split(sep)] for a separator that is not empty: the occurrences of
    [sep] are found from left to right and do not overlap.  [skip] counts
    the characters of an occurrence still to pass over, [cur] is the part
    read since the last occurrence. *)
Fixpoint split_from (sep : string) (skip : nat) (cur s : string) {struct s}
  : list string :=
  match s with
  | EmptyString => [cur]
  | String c s' =>
      match skip with
      | S k => split_from sep k cur s'
      | O =>
          if String.prefix sep s
          then cur :: split_from sep (String.length sep - 1) EmptyString s'
          else split_from sep 0 (cur ++ String c EmptyString) s'
      end
  end.

Definition split (sep s : string) : list string := split_from sep 0 EmptyString s.

(** [c.lower()] on code points below 256: the letters A-Z and the
    Latin-1 capitals U+00C0-U+00DE other than the multiplication sign. *)
Definition lower_char (c : ascii) : ascii :=
  let n := N_of_ascii c in
  if ((65 <=? n) && (n <=? 90) ||
      (192 <=? n) && (n <=? 222) && negb (n =? 215))%N
  then ascii_of_N (n + 32) else c.

Fixpoint lower (s : string) : string :=
  match s with
  | EmptyString => EmptyString
  | String c s' => String (lower_char c) (lower s')
  end.

(** *** [int(s, 16)] *)

(** White space [int] strips: tab to carriage return, the space, and the
    two code points in U+0080-U+00FF Python counts as white space. *)
Definition is_space (c : ascii) : bool :=
  let n := N_of_ascii c in
  ((9 <=? n) && (n <=? 13) || (n =? 32) || (n =? 133) || (n =? 160))%N.

Definition hex_digit (c : ascii) : option Z :=
  let n := Z.of_N (N_of_ascii c) in
  if ((48 <=? n) && (n <=? 57))%Z then Some (n - 48)%Z
  else if ((97 <=? n) && (n <=? 102))%Z then Some (n - 87)%Z
  else if ((65 <=? n) && (n <=? 70))%Z then Some (n - 55)%Z
  else None.

Fixpoint lstrip (s : string) : string :=
  match s with
  | String c s' => if is_space c then lstrip s' else s
  | EmptyString => s
  end.

Fixpoint all_space (s : string) : bool :=
  match s with
  | String c s' => is_space c && all_space s'
  | EmptyString => true
  end.

(** The digits, with single underscores between them: the value read and
    the rest of the string, or [None] when an underscore is doubled or
    ends the digits.  [prev_us] tells that the previous character was an
    underscore. *)
Fixpoint scan_digits (acc : Z) (prev_us : bool) (s : string)
  : option (Z * string) :=
  match s with
  | EmptyString => if prev_us then None else Some (acc, s)
  | String c s' =>
      if Ascii.eqb c "_"
      then if prev_us then None else scan_digits acc true s'
      else match hex_digit c with
           | Some d => scan_digits (16 * acc + d)%Z false s'
           | None => if prev_us then None else Some (acc, s)
           end
  end.

Definition invalid_literal : Exc :=
  mkExc ValueError "invalid literal for int() with base 16".

(** After the sign: an optional [0x] or [0X], which one underscore may
    follow; then at least one digit, and only white space after the
    digits. *)
Definition int16_magnitude (s : string) : res Z :=
  let body :=
    match s with
    | String "0" (String x s') =>
        if Ascii.eqb x "x" || Ascii.eqb x "X"
        then match s' with
             | String "_" s'' => s''
             | _ => s'
             end
        else s
    | _ => s
    end in
  match body with
  | String c _ =>
      match hex_digit c with
      | None => Raise invalid_literal
      | Some _ =>
          match scan_digits 0 false body with
          | Some (z, rest) =>
              if all_space rest then Ok z else Raise invalid_literal
          | None => Raise invalid_literal
          end
      end
  | EmptyString => Raise invalid_literal
  end.

Definition int16 (s : string) : res Z :=
  match lstrip s with
  | String "+" s' => int16_magnitude s'
  | String "-" s' =>
      match int16_magnitude s' with
      | Ok z => Ok (- z)%Z
      | Raise e => Raise e
      end
  | s' => int16_magnitude s'
  end.

End Py.
Import Py.

(** ** The registry tree handed over by the hive reader (pyregf) *)

(** The type tag of a value, as the parser tells the tags apart
    (dfwinreg.definitions); every tag the parser does not name falls in
    [REG_BINARY] or [REG_OTHER]. *)
Inductive RegType : Type :=
  | REG_SZ | REG_EXPAND_SZ | REG_LINK
  | REG_DWORD | REG_DWORD_BIG_ENDIAN | REG_QWORD
  | REG_MULTI_SZ
  | REG_BINARY | REG_OTHER.

(** The faults a read of a value raises: the two classes
    [_GetValueDataAsObject] names in its [except] clause. *)
Inductive ReadFault : Type :=
  | IOFault (msg : string)
  | OverflowFault (msg : string).

Definition exc_of_fault (f : ReadFault) : Exc :=
  match f with
  | IOFault msg => mkExc IOError msg
  | OverflowFault msg => mkExc OverflowError msg
  end.

Inductive read (A : Type) : Type :=
  | Read (a : A)
  | Fault (f : ReadFault).
Arguments Read {A} a.
Arguments Fault {A} f.

(** A pyregf value: its attributes, and what each of its reading methods
    gives when it is called.  The default value of a key has no name: its
    [name] is [None]. *)
Record RegfValue : Type := mkValue {
  value_name : option string;
  value_type : RegType;
  value_data : option (list Byte.byte);
  get_data_as_string : read string;
  get_data_as_integer : read Z;
  get_data_as_multi_string : read (list string)
}.

(** A pyregf key. *)
#[local] Unset Elimination Schemes.
Inductive RegfKey : Type := mkKey {
  key_name : string;
  get_last_written_time_as_integer : Z;
  key_values : list RegfValue;
  sub_keys : list RegfKey
}.
#[local] Set Elimination Schemes.

(** Modelled from the spec: pyregf's [key.get_value_by_name] is not part of
    this repository.  The lookup is by exact value name, case-sensitive; the
    result is the value of that name, or [None] when the key has none.  The
    default value, which has no name, is not found under a name. *)
Definition get_value_by_name (key : RegfKey) (name : string) : option RegfValue :=
  find (fun v => match value_name v with
                 | Some value_name => String.eqb value_name name
                 | None => false
                 end) (key_values key).

(** The hive file object: the outcome of [open_file_object] and the lookup
    of a key by its path. *)
Record RegfFile : Type := mkFile {
  open_file_object : res unit;
  get_key_by_path : string -> option RegfKey
}.

(** ** Event data containers *)

Module AMCacheFileEventData.

Definition DATA_TYPE : string := "windows:registry:amcache".

Record t : Type := mk {
  company_name : PyVal;
  file_description : PyVal;
  file_reference : PyVal;
  file_size : PyVal;
  file_version : PyVal;
  full_path : PyVal;
  language_code : PyVal;
  product_name : PyVal;
  program_identifier : PyVal;
  sha1 : PyVal
}.

(** [__init__]: every attribute is [None]. *)
Definition init : t :=
  mk PyNone PyNone PyNone PyNone PyNone PyNone PyNone PyNone PyNone PyNone.

Definition set_file_reference (d : t) (v : PyVal) : t :=
  mk (company_name d) (file_description d) v (file_size d) (file_version d)
     (full_path d) (language_code d) (product_name d) (program_identifier d)
     (sha1 d).

(** [setattr(event_data, attribute_name, value)] for the attributes of
    the class; the mapping table holds no other name
    ([file_attributes_known] below). *)
Definition setattr (d : t) (attribute_name : string) (v : PyVal) : t :=
  if attribute_name =? "company_name" then
    mk v (file_description d) (file_reference d) (file_size d)
       (file_version d) (full_path d) (language_code d) (product_name d)
       (program_identifier d) (sha1 d)
  else if attribute_name =? "file_description" then
    mk (company_name d) v (file_reference d) (file_size d)
       (file_version d) (full_path d) (language_code d) (product_name d)
       (program_identifier d) (sha1 d)
  else if attribute_name =? "file_reference" then set_file_reference d v
  else if attribute_name =? "file_size" then
    mk (company_name d) (file_description d) (file_reference d) v
       (file_version d) (full_path d) (language_code d) (product_name d)
       (program_identifier d) (sha1 d)
  else if attribute_name =? "file_version" then
    mk (company_name d) (file_description d) (file_reference d)
       (file_size d) v (full_path d) (language_code d) (product_name d)
       (program_identifier d) (sha1 d)
  else if attribute_name =? "full_path" then
    mk (company_name d) (file_description d) (file_reference d)
       (file_size d) (file_version d) v (language_code d) (product_name d)
       (program_identifier d) (sha1 d)
  else if attribute_name =? "language_code" then
    mk (company_name d) (file_description d) (file_reference d)
       (file_size d) (file_version d) (full_path d) v (product_name d)
       (program_identifier d) (sha1 d)
  else if attribute_name =? "product_name" then
    mk (company_name d) (file_description d) (file_reference d)
       (file_size d) (file_version d) (full_path d) (language_code d) v
       (program_identifier d) (sha1 d)
  else if attribute_name =? "program_identifier" then
    mk (company_name d) (file_description d) (file_reference d)
       (file_size d) (file_version d) (full_path d) (language_code d)
       (product_name d) v (sha1 d)
  else if attribute_name =? "sha1" then
    mk (company_name d) (file_description d) (file_reference d)
       (file_size d) (file_version d) (full_path d) (language_code d)
       (product_name d) (program_identifier d) v
  else d.

Definition attributes : list string :=
  ["company_name"; "file_description"; "file_reference"; "file_size";
   "file_version"; "full_path"; "language_code"; "product_name";
   "program_identifier"; "sha1"].

End AMCacheFileEventData.

Module AMCacheProgramEventData.

Definition DATA_TYPE : string := "windows:registry:amcache:programs".

Record t : Type := mk {
  entry_type : PyVal;
  file_paths : PyVal;
  files : PyVal;
  language_code : PyVal;
  msi_package_code : PyVal;
  msi_product_code : PyVal;
  name : PyVal;
  package_code : PyVal;
  product_code : PyVal;
  publisher : PyVal;
  uninstall_key : PyVal;
  version : PyVal
}.

Definition init : t :=
  mk PyNone PyNone PyNone PyNone PyNone PyNone PyNone PyNone PyNone PyNone
     PyNone PyNone.

Definition setattr (d : t) (attribute_name : string) (v : PyVal) : t :=
  if attribute_name =? "entry_type" then
    mk v (file_paths d) (files d) (language_code d) (msi_package_code d)
       (msi_product_code d) (name d) (package_code d) (product_code d)
       (publisher d) (uninstall_key d) (version d)
  else if attribute_name =? "file_paths" then
    mk (entry_type d) v (files d) (language_code d) (msi_package_code d)
       (msi_product_code d) (name d) (package_code d) (product_code d)
       (publisher d) (uninstall_key d) (version d)
  else if attribute_name =? "files" then
    mk (entry_type d) (file_paths d) v (language_code d)
       (msi_package_code d) (msi_product_code d) (name d) (package_code d)
       (product_code d) (publisher d) (uninstall_key d) (version d)
  else if attribute_name =? "language_code" then
    mk (entry_type d) (file_paths d) (files d) v (msi_package_code d)
       (msi_product_code d) (name d) (package_code d) (product_code d)
       (publisher d) (uninstall_key d) (version d)
  else if attribute_name =? "msi_package_code" then
    mk (entry_type d) (file_paths d) (files d) (language_code d) v
       (msi_product_code d) (name d) (package_code d) (product_code d)
       (publisher d) (uninstall_key d) (version d)
  else if attribute_name =? "msi_product_code" then
    mk (entry_type d) (file_paths d) (files d) (language_code d)
       (msi_package_code d) v (name d) (package_code d) (product_code d)
       (publisher d) (uninstall_key d) (version d)
  else if attribute_name =? "name" then
    mk (entry_type d) (file_paths d) (files d) (language_code d)
       (msi_package_code d) (msi_product_code d) v (package_code d)
       (product_code d) (publisher d) (uninstall_key d) (version d)
  else if attribute_name =? "package_code" then
    mk (entry_type d) (file_paths d) (files d) (language_code d)
       (msi_package_code d) (msi_product_code d) (name d) v
       (product_code d) (publisher d) (uninstall_key d) (version d)
  else if attribute_name =? "product_code" then
    mk (entry_type d) (file_paths d) (files d) (language_code d)
       (msi_package_code d) (msi_product_code d) (name d) (package_code d)
       v (publisher d) (uninstall_key d) (version d)
  else if attribute_name =? "publisher" then
    mk (entry_type d) (file_paths d) (files d) (language_code d)
       (msi_package_code d) (msi_product_code d) (name d) (package_code d)
       (product_code d) v (uninstall_key d) (version d)
  else if attribute_name =? "uninstall_key" then
    mk (entry_type d) (file_paths d) (files d) (language_code d)
       (msi_package_code d) (msi_product_code d) (name d) (package_code d)
       (product_code d) (publisher d) v (version d)
  else if attribute_name =? "version" then
    mk (entry_type d) (file_paths d) (files d) (language_code d)
       (msi_package_code d) (msi_product_code d) (name d) (package_code d)
       (product_code d) (publisher d) (uninstall_key d) v
  else d.

Definition attributes : list string :=
  ["entry_type"; "file_paths"; "files"; "language_code";
   "msi_package_code"; "msi_product_code"; "name"; "package_code";
   "product_code"; "publisher"; "uninstall_key"; "version"].

End AMCacheProgramEventData.

(** windows_events.WindowsRegistryEventData, with the two attributes the
    parser assigns; [values] is [None] or a string. *)
Module WindowsRegistryEventData.
Record t : Type := mk {
  key_path : string;
  values : option string
}.
End WindowsRegistryEventData.

Inductive EventData : Type :=
  | FileEventData (d : AMCacheFileEventData.t)
  | ProgramEventData (d : AMCacheProgramEventData.t)
  | RegistryEventData (d : WindowsRegistryEventData.t).

(** dfdatetime: a FILETIME, a 64-bit count of 100 ns ticks, or a POSIX
    time, a 32-bit count of seconds. *)
Inductive DateTime : Type :=
  | Filetime (timestamp : Z)
  | PosixTime (timestamp : Z).

Inductive TimeDescription : Type :=
  | TIME_DESCRIPTION_CHANGE
  | TIME_DESCRIPTION_CREATION
  | TIME_DESCRIPTION_INSTALLATION
  | TIME_DESCRIPTION_MODIFICATION
  | TIME_DESCRIPTION_WRITTEN.

(** time_events.DateTimeValuesEvent(date_time, description) *)
Record DateTimeValuesEvent : Type := mkEvent {
  date_time : DateTime;
  description : TimeDescription
}.

(** ** The parser mediator and the monad of the parser *)

(** The sink: what [ProduceEventWithEventData] and
    [ProduceExtractionWarning] have received, oldest first. *)
Record Mediator : Type := mkMediator {
  events : list (DateTimeValuesEvent * EventData);
  warnings : list string
}.

Definition empty_mediator : Mediator := mkMediator [] [].

Definition M (A : Type) : Type := Mediator -> Mediator * res A.

Definition ret {A} (a : A) : M A := fun m => (m, Ok a).

Definition raise {A} (e : Exc) : M A := fun m => (m, Raise e).

Definition bind {A B} (c : M A) (k : A -> M B) : M B :=
  fun m =>
    match c m with
    | (m', Ok a) => k a m'
    | (m', Raise e) => (m', Raise e)
    end.

Notation "x <- c ;; k" := (bind c (fun x => k))
  (at level 61, c at next level, right associativity).
Notation "c ;;; k" := (bind c (fun _ => k))
  (at level 61, right associativity).

Definition lift_res {A} (r : res A) : M A :=
  match r with
  | Ok a => ret a
  | Raise e => raise e
  end.

(** A call of a reading method outside any [try]: a fault is raised. *)
Definition call {A} (r : read A) : M A :=
  match r with
  | Read a => ret a
  | Fault f => raise (exc_of_fault f)
  end.

Definition ProduceEventWithEventData (event : DateTimeValuesEvent)
    (event_data : EventData) : M unit :=
  fun m => (mkMediator (events m ++ [(event, event_data)])%list (warnings m), Ok tt).

Definition ProduceExtractionWarning (message : string) : M unit :=
  fun m => (mkMediator (events m) (warnings m ++ [message])%list, Ok tt).

(** [for x in l: body(x)] *)
Definition for_each {A} (body : A -> M unit) : list A -> M unit :=
  fix go (l : list A) : M unit :=
    match l with
    | [] => ret tt
    | x :: l' => body x ;;; go l'
    end.

(** [for x in l: s = body(x, s)], for a loop that updates a local [s]. *)
Definition for_fold {A S} (body : A -> S -> M S) : list A -> S -> M S :=
  fix go (l : list A) (s : S) : M S :=
    match l with
    | [] => ret s
    | x :: l' => s' <- body x s ;; go l' s'
    end.

(** ** More built-ins, on the values the parser holds *)

(** [value.startswith(prefix)]: a method of [str]; [bytes] has it too but
    refuses a [str] argument; the other values have no such attribute. *)
Definition py_startswith (value : PyVal) (p : string) : res bool :=
  match value with
  | PyStr s => Ok (startswith s p)
  | PyBytes _ =>
      Raise (mkExc TypeError
        "startswith first arg must be bytes or a tuple of bytes, not str")
  | PyNone =>
      Raise (mkExc AttributeError
        "'NoneType' object has no attribute 'startswith'")
  | PyInt _ =>
      Raise (mkExc AttributeError "'int' object has no attribute 'startswith'")
  | PyList _ =>
      Raise (mkExc AttributeError "'list' object has no attribute 'startswith'")
  end.

(** [value[n:]] *)
Definition py_slice_from (n : nat) (value : PyVal) : res PyVal :=
  match value with
  | PyStr s => Ok (PyStr (drop n s))
  | PyList l => Ok (PyList (skipn n l))
  | PyBytes b => Ok (PyBytes (skipn n b))
  | PyNone => Raise (mkExc TypeError "'NoneType' object is not subscriptable")
  | PyInt _ => Raise (mkExc TypeError "'int' object is not subscriptable")
  end.

(** The characters of a string, each as a string. *)
Fixpoint chars (s : string) : list string :=
  match s with
  | EmptyString => []
  | String c s' => String c EmptyString :: chars s'
  end.

(** [', '.join(value or [])]: a value that is false stands for the empty
    list; a [str] is joined character by character; the items of [bytes]
    and an [int] cannot be joined. *)
Definition py_join_or_empty (sep : string) (value : PyVal) : res string :=
  match value with
  | PyList l => Ok (join sep l)
  | PyNone => Ok EmptyString
  | PyStr s => Ok (join sep (chars s))
  | PyInt z =>
      if (z =? 0)%Z then Ok EmptyString
      else Raise (mkExc TypeError "can only join an iterable")
  | PyBytes [] => Ok EmptyString
  | PyBytes (_ :: _) =>
      Raise (mkExc TypeError "sequence item 0: expected str instance, int found")
  end.

(** ['{0!s}'.format(value)] for [None], a [str] and an [int], the values
    the formatter passes ([decoded_shape] below); the text of a list
    or of [bytes] is not modelled. *)
Definition py_str (value : PyVal) : string :=
  match value with
  | PyNone => "None"
  | PyStr s => s
  | PyInt z => format_d z
  | PyList _ | PyBytes _ => EmptyString
  end.

(** [len(value)] *)
Definition py_len (value : PyVal) : res nat :=
  match value with
  | PyStr s => Ok (String.length s)
  | PyList l => Ok (List.length l)
  | PyBytes b => Ok (List.length b)
  | PyNone => Raise (mkExc TypeError "object of type 'NoneType' has no len()")
  | PyInt _ => Raise (mkExc TypeError "object of type 'int' has no len()")
  end.

(** *** A [dict] of strings, in insertion order, and [sorted] on its items *)

Definition dict : Type := list (string * string).

(** [d[k] = v]: a key already there keeps its place and takes the new
    value; a new key goes last. *)
Fixpoint dict_set (d : dict) (k v : string) : dict :=
  match d with
  | [] => [(k, v)]
  | (k', v') :: d' =>
      if k' =? k then (k, v) :: d' else (k', v') :: dict_set d' k v
  end.

(** The order of tuples [(name, value)]: by name, then by value. *)
Definition item_ltb (a b : string * string) : bool :=
  match String.compare (fst a) (fst b) with
  | Lt => true
  | Eq => String.ltb (snd a) (snd b)
  | Gt => false
  end.

Fixpoint insert_sorted (x : string * string) (l : list (string * string))
  : list (string * string) :=
  match l with
  | [] => [x]
  | y :: l' => if item_ltb y x then y :: insert_sorted x l' else x :: l
  end.

(** [sorted(items)]: ascending and stable. *)
Definition sorted (l : list (string * string)) : list (string * string) :=
  fold_right insert_sorted [] l.

(** ** The parser *)

Module AMCacheParser.

Definition NAME : string := "amcache".

(** Contains: {value name: attribute name} *)
Definition _FILE_REFERENCE_KEY_VALUES : list (string * string) :=
  [("0", "product_name");
   ("1", "company_name");
   ("3", "language_code");
   ("5", "file_version");
   ("6", "file_size");
   ("c", "file_description");
   ("15", "full_path");
   ("100", "program_identifier");
   ("101", "sha1")].

Definition _AMCACHE_COMPILATION_TIME : string := "f".
Definition _AMCACHE_FILE_MODIFICATION_TIME : string := "11".
Definition _AMCACHE_FILE_CREATION_TIME : string := "12".
Definition _AMCACHE_ENTRY_WRITE_TIME : string := "17".

Definition _AMCACHE_P_INSTALLATION_TIME : string := "a".

Definition _AMCACHE_P_FILES : string := "Files".

Definition _PRODUCT_KEY_VALUES : list (string * string) :=
  [("0", "name");
   ("1", "version");
   ("2", "publisher");
   ("3", "language_code");
   ("6", "entry_type");
   ("7", "uninstall_key");
   ("d", "file_paths");
   ("f", "product_code");
   ("10", "package_code");
   ("11", "msi_product_code");
   ("12", "msi_package_code")].

(** The body of the [try] of [_GetValueDataAsObject]. *)
Definition read_value_data (regf_value : RegfValue) : read PyVal :=
  match value_type regf_value with
  | REG_SZ | REG_EXPAND_SZ | REG_LINK =>
      match get_data_as_string regf_value with
      | Read s => Read (PyStr s)
      | Fault f => Fault f
      end
  | REG_DWORD | REG_DWORD_BIG_ENDIAN | REG_QWORD =>
      match get_data_as_integer regf_value with
      | Read z => Read (PyInt z)
      | Fault f => Fault f
      end
  | REG_MULTI_SZ =>
      match get_data_as_multi_string regf_value with
      | Read l => Read (PyList l)
      | Fault f => Fault f
      end
  | REG_BINARY | REG_OTHER =>
      match value_data regf_value with
      | Some b => Read (PyBytes b)
      | None => Read PyNone
      end
  end.

(** Retrieves the value data as an object: the data as a Python value, or
    [None] if the value cannot be read.  The text of the warning is
    formatted in the [except] clause, with the code [{0:s}] for the name of
    the value: for a value without a name the formatting raises
    [TypeError], which leaves the function. *)
Definition _GetValueDataAsObject (regf_value : RegfValue) : M PyVal :=
  match read_value_data regf_value with
  | Read value_data => ret value_data
  | Fault f =>
      name <- lift_res (format_s (value_name regf_value)) ;;
      ProduceExtractionWarning
        ("Unable to read data from value: " ++ name ++
         " with error: " ++ exc_msg (exc_of_fault f)) ;;;
      ret PyNone
  end.

(** [regf_value.name or '(default)']: [None] and the empty string are
    false. *)
Definition name_or_default (regf_value : RegfValue) : string :=
  match value_name regf_value with
  | Some name => if name =? "" then "(default)" else name
  | None => "(default)"
  end.

(** The string [_GetValuesFromKey] stores for a value that is not skipped. *)
Definition value_string_of (regf_value : RegfValue) : M string :=
  match value_data regf_value with
  | None => ret "(empty)"
  | Some _ =>
      value_object <- _GetValueDataAsObject regf_value ;;
      match value_type regf_value with
      | REG_MULTI_SZ =>
          s <- lift_res (py_join_or_empty ", " value_object) ;;
          ret ("[" ++ s ++ "]")
      | REG_DWORD | REG_DWORD_BIG_ENDIAN | REG_EXPAND_SZ | REG_LINK
      | REG_QWORD | REG_SZ =>
          ret (py_str value_object)
      | REG_BINARY | REG_OTHER =>
          (* Represent remaining types like REG_BINARY and
             REG_RESOURCE_REQUIREMENT_LIST. *)
          n <- lift_res (py_len value_object) ;;
          ret ("(" ++ format_d (Z.of_nat n) ++ " bytes)")
      end
  end.

(** Retrieves the values from a Windows Registry key: the names and the
    data, as strings, of the values in the key. *)
Definition _GetValuesFromKey (regf_key : RegfKey)
    (names_to_skip : option (list string)) : M dict :=
  let names_to_skip :=
    map lower (match names_to_skip with Some l => l | None => [] end) in
  for_fold
    (fun regf_value values_dict =>
       let value_name := name_or_default regf_value in
       if existsb (String.eqb (lower value_name)) names_to_skip
       then ret values_dict
       else
         value_string <- value_string_of regf_value ;;
         ret (dict_set values_dict value_name value_string))
    (key_values regf_key) [].

(** The [values] attribute of the default event:
    [' '.join(['{0:s}: {1!s}'.format(name, value) for ... in sorted(...)])
     or None]. *)
Definition values_text (values_dict : dict) : option string :=
  let s := join " "
    (map (fun item => fst item ++ ": " ++ snd item) (sorted values_dict)) in
  if s =? "" then None else Some s.

(** Produces a default Windows Registry event. *)
Definition _ProduceDefaultWindowsRegistryEvent (regf_key : RegfKey)
    (key_path : string) (names_to_skip : option (list string)) : M unit :=
  values_dict <- _GetValuesFromKey regf_key names_to_skip ;;
  let event_data :=
    WindowsRegistryEventData.mk key_path (values_text values_dict) in
  let timestamp := get_last_written_time_as_integer regf_key in
  let last_written_time := Filetime timestamp in
  let event := mkEvent last_written_time TIME_DESCRIPTION_WRITTEN in
  ProduceEventWithEventData event (RegistryEventData event_data).

(** The body of the [try] of [_ParseFileReferenceKey]: the text of the
    file reference, or the exception raised. *)
Definition file_reference_try (name : string) : res string :=
  if contains "0000" name then
    (* A NTFS file is a combination of MFT entry and sequence number. *)
    match split "0000" name with
    | [sequence_number; mft_entry] =>
        match int16 mft_entry with
        | Raise e => Raise e
        | Ok mft_entry =>
            match int16 sequence_number with
            | Raise e => Raise e
            | Ok sequence_number =>
                Ok (format_d mft_entry ++ "-" ++ format_d sequence_number)
            end
        end
    | [] | [_] => Raise (mkExc ValueError "not enough values to unpack")
    | _ => Raise (mkExc ValueError "too many values to unpack (expected 2)")
    end
  else
    (* A FAT file is a single number. *)
    match int16 name with
    | Raise e => Raise e
    | Ok file_reference => Ok (format_d file_reference)
    end.

(** The [try] with its [except (ValueError, TypeError): pass]. *)
Definition set_file_reference_from_name (name : string)
    (event_data : AMCacheFileEventData.t) : M AMCacheFileEventData.t :=
  match file_reference_try name with
  | Ok s => ret (AMCacheFileEventData.set_file_reference event_data (PyStr s))
  | Raise e =>
      match exc_kind e with
      | ValueError | TypeError => ret event_data
      | _ => raise e
      end
  end.

(** One turn of the loop of [_ParseFileReferenceKey] over the mapping
    table. *)
Definition file_value_step (file_reference_key : RegfKey)
    (item : string * string) (event_data : AMCacheFileEventData.t)
  : M AMCacheFileEventData.t :=
  let value_name := fst item in
  let attribute_name := snd item in
  match get_value_by_name file_reference_key value_name with
  | None => ret event_data
  | Some value =>
      value_data <- _GetValueDataAsObject value ;;
      value_data <-
        (if attribute_name =? "sha1" then
           strip <- lift_res (py_startswith value_data "0000") ;;
           if (strip : bool)
           then
             (* Strip off the 4 leading zero's from the sha1 hash. *)
             lift_res (py_slice_from 4 value_data)
           else ret value_data
         else ret value_data) ;;
      ret (AMCacheFileEventData.setattr event_data attribute_name value_data)
  end.

(** The loop of [_ParseFileReferenceKey] over the mapping table. *)
Definition map_file_reference_values (file_reference_key : RegfKey)
    (event_data : AMCacheFileEventData.t) : M AMCacheFileEventData.t :=
  for_fold (file_value_step file_reference_key)
    _FILE_REFERENCE_KEY_VALUES event_data.

(** Parses a file reference key (sub key of Root\File\%VOLUME%) for
    events. *)
Definition _ParseFileReferenceKey (file_reference_key : RegfKey) : M unit :=
  let event_data := AMCacheFileEventData.init in
  event_data <-
    set_file_reference_from_name (key_name file_reference_key) event_data ;;
  event_data <- map_file_reference_values file_reference_key event_data ;;
  match get_value_by_name file_reference_key _AMCACHE_ENTRY_WRITE_TIME with
  | Some amcache_time_value =>
      timestamp <- call (get_data_as_integer amcache_time_value) ;;
      let amcache_time := Filetime timestamp in
      ProduceEventWithEventData
        (mkEvent amcache_time TIME_DESCRIPTION_MODIFICATION)
        (FileEventData event_data)
  | None => ret tt
  end ;;;
  match get_value_by_name file_reference_key _AMCACHE_FILE_CREATION_TIME with
  | Some creation_time_value =>
      timestamp <- call (get_data_as_integer creation_time_value) ;;
      let creation_time := Filetime timestamp in
      ProduceEventWithEventData
        (mkEvent creation_time TIME_DESCRIPTION_CREATION)
        (FileEventData event_data)
  | None => ret tt
  end ;;;
  match get_value_by_name file_reference_key
          _AMCACHE_FILE_MODIFICATION_TIME with
  | Some modification_time_value =>
      timestamp <- call (get_data_as_integer modification_time_value) ;;
      let modification_time := Filetime timestamp in
      ProduceEventWithEventData
        (mkEvent modification_time TIME_DESCRIPTION_MODIFICATION)
        (FileEventData event_data)
  | None => ret tt
  end ;;;
  match get_value_by_name file_reference_key _AMCACHE_COMPILATION_TIME with
  | Some compilation_time_value =>
      timestamp <- call (get_data_as_integer compilation_time_value) ;;
      let link_time := PosixTime timestamp in
      ProduceEventWithEventData
        (mkEvent link_time TIME_DESCRIPTION_CHANGE)
        (FileEventData event_data)
  | None => ret tt
  end.

(** Parses a Root\File key. *)
Definition _ParseFileKey (file_key : RegfKey) : M unit :=
  for_each
    (fun volume_key =>
       for_each
         (fun file_reference_key => _ParseFileReferenceKey file_reference_key)
         (sub_keys volume_key))
    (sub_keys file_key).

(** One turn of the loop of [_ParseProgramKey] over the mapping table. *)
Definition program_value_step (program_key : RegfKey)
    (item : string * string) (event_data : AMCacheProgramEventData.t)
  : M AMCacheProgramEventData.t :=
  let value_name := fst item in
  let attribute_name := snd item in
  match get_value_by_name program_key value_name with
  | None => ret event_data
  | Some value =>
      value_data <- _GetValueDataAsObject value ;;
      ret (AMCacheProgramEventData.setattr event_data attribute_name value_data)
  end.

(** The loop of [_ParseProgramKey] over the mapping table. *)
Definition map_program_values (program_key : RegfKey)
    (event_data : AMCacheProgramEventData.t) : M AMCacheProgramEventData.t :=
  for_fold (program_value_step program_key) _PRODUCT_KEY_VALUES event_data.

(** Parses a program key (a sub key of Root\Programs) for events. *)
Definition _ParseProgramKey (program_key : RegfKey) : M unit :=
  let event_data := AMCacheProgramEventData.init in
  event_data <- map_program_values program_key event_data ;;
  match get_value_by_name program_key _AMCACHE_P_INSTALLATION_TIME with
  | Some installation_time_value =>
      timestamp <- call (get_data_as_integer installation_time_value) ;;
      let installation_time := PosixTime timestamp in
      ProduceEventWithEventData
        (mkEvent installation_time TIME_DESCRIPTION_INSTALLATION)
        (ProgramEventData event_data)
  | None => ret tt
  end.

(** Parses a Root\Programs key. *)
Definition _ParseProgramsKey (programs_key : RegfKey) : M unit :=
  for_each (fun program_key => _ParseProgramKey program_key)
    (sub_keys programs_key).

(** Parses a sub key.  [key_path_segments] is the list the caller and the
    callee share: the function returns it as the call leaves it. *)
Fixpoint _ParseSubKey (regf_key : RegfKey) (key_path_segments : list string)
    {struct regf_key} : M (list string) :=
  let key_path := join "\" key_path_segments in
  _ProduceDefaultWindowsRegistryEvent regf_key key_path None ;;;
  for_fold
    (fun sub_key key_path_segments =>
       (* key_path_segments.append(sub_key.name) *)
       let key_path_segments :=
         (key_path_segments ++ [key_name sub_key])%list in
       key_path_segments <- _ParseSubKey sub_key key_path_segments ;;
       (* key_path_segments.pop() *)
       ret (removelast key_path_segments))
    (sub_keys regf_key) key_path_segments.

(** Parses a Root key. *)
Definition _ParseRootKey (root_key : RegfKey) : M unit :=
  _ProduceDefaultWindowsRegistryEvent root_key "\Root" None ;;;
  let key_path_segments := [""; "Root"] in
  for_fold
    (fun sub_key key_path_segments =>
       let key_path_segments :=
         (key_path_segments ++ [key_name sub_key])%list in
       key_path_segments <- _ParseSubKey sub_key key_path_segments ;;
       let key_path_segments := removelast key_path_segments in
       (if key_name sub_key =? "File" then _ParseFileKey sub_key
        else if key_name sub_key =? "Programs" then _ParseProgramsKey sub_key
        else ret tt) ;;;
       ret key_path_segments)
    (sub_keys root_key) key_path_segments ;;;
  ret tt.

(** Parses an AMCache.hve file-like object for events.  An [IOError] of
    [open_file_object] is ignored; [regf_file.close()] hands nothing to
    the mediator. *)
Definition ParseFileObject (file_object : RegfFile) : M unit :=
  match open_file_object file_object with
  | Raise e =>
      match exc_kind e with
      | IOError => ret tt
      | _ => raise e
      end
  | Ok _ =>
      match get_key_by_path file_object "Root" with
      | Some root_key => _ParseRootKey root_key
      | None =>
          ProduceExtractionWarning "Root key missing from AMCache.hve file."
      end
  end.

End AMCacheParser.
Import AMCacheParser.

(** ** What a computation hands to the mediator *)

(** The events, the warnings and the outcome of a computation started on a
    mediator that has received nothing.  The parser only appends to the
    mediator and never reads it ([Appends] below), so these describe every
    run. *)
Definition produced {A} (c : M A) : list (DateTimeValuesEvent * EventData) :=
  events (fst (c empty_mediator)).

Definition warned {A} (c : M A) : list string :=
  warnings (fst (c empty_mediator)).

Definition outcome {A} (c : M A) : res A := snd (c empty_mediator).

(** The mediator after it has received more events and warnings. *)
Definition extend (m : Mediator)
    (es : list (DateTimeValuesEvent * EventData)) (ws : list string)
  : Mediator :=
  mkMediator (events m ++ es)%list (warnings m ++ ws)%list.

(** [Runs c es ws r]: on every mediator, [c] hands over the events [es]
    and the warnings [ws], in this order, and ends with [r]. *)
Definition Runs {A} (c : M A)
    (es : list (DateTimeValuesEvent * EventData)) (ws : list string)
    (r : res A) : Prop :=
  forall m, c m = (extend m es ws, r).

Definition Appends {A} (c : M A) : Prop :=
  Runs c (produced c) (warned c) (outcome c).

Definition is_ok {A} (r : res A) : bool :=
  match r with Ok _ => true | Raise _ => false end.

(** The generic key-visit events among a list of events. *)
Definition is_key_visit (e : DateTimeValuesEvent * EventData) : bool :=
  match snd e with
  | RegistryEventData _ => true
  | _ => false
  end.

Definition is_file_entry (e : DateTimeValuesEvent * EventData) : bool :=
  match snd e with
  | FileEventData _ => true
  | _ => false
  end.

Definition is_program_entry (e : DateTimeValuesEvent * EventData) : bool :=
  match snd e with
  | ProgramEventData _ => true
  | _ => false
  end.

(** *** The value decoder and the display formatter as functions *)

(** What [_GetValueDataAsObject] returns when it returns, the warnings it
    produces, and its outcome: it raises for a value without a name whose
    read faults. *)
Definition decoded (regf_value : RegfValue) : PyVal :=
  match read_value_data regf_value with
  | Read value_data => value_data
  | Fault _ => PyNone
  end.

Definition decode_warnings (regf_value : RegfValue) : list string :=
  match read_value_data regf_value, value_name regf_value with
  | Fault f, Some name =>
      ["Unable to read data from value: " ++ name ++
       " with error: " ++ exc_msg (exc_of_fault f)]
  | _, _ => []
  end.

Definition decode_outcome (regf_value : RegfValue) : res PyVal :=
  match read_value_data regf_value, value_name regf_value with
  | Fault f, None => Raise format_type_error
  | _, _ => Ok (decoded regf_value)
  end.

(** The text the display formatter gives a value. *)
Definition rendered (regf_value : RegfValue) : string :=
  match value_data regf_value with
  | None => "(empty)"
  | Some b =>
      match value_type regf_value with
      | REG_MULTI_SZ =>
          match get_data_as_multi_string regf_value with
          | Read l => "[" ++ join ", " l ++ "]"
          | Fault _ => "[]"
          end
      | REG_SZ | REG_EXPAND_SZ | REG_LINK =>
          match get_data_as_string regf_value with
          | Read s => s
          | Fault _ => "None"
          end
      | REG_DWORD | REG_DWORD_BIG_ENDIAN | REG_QWORD =>
          match get_data_as_integer regf_value with
          | Read z => format_d z
          | Fault _ => "None"
          end
      | REG_BINARY | REG_OTHER =>
          "(" ++ format_d (Z.of_nat (List.length b)) ++ " bytes)"
      end
  end.

Definition rendered_warnings (regf_value : RegfValue) : list string :=
  match value_data regf_value with
  | None => []
  | Some _ => decode_warnings regf_value
  end.

(** A value on which the display formatter raises: it has data, it has no
    name, and its read faults. *)
Definition unformattable (regf_value : RegfValue) : Prop :=
  value_name regf_value = None
  /\ value_data regf_value <> None
  /\ exists f, read_value_data regf_value = Fault f.

(** The outcome of the display formatter on a value: it raises when the
    value decoder does, that is for a value with data and without a name
    whose read faults. *)
Definition render_outcome (regf_value : RegfValue) : res string :=
  match value_data regf_value with
  | None => Ok "(empty)"
  | Some _ =>
      match decode_outcome regf_value with
      | Ok _ => Ok (rendered regf_value)
      | Raise e => Raise e
      end
  end.

(** A value is skipped when its name, in lower case, is the lower case of
    a name of the skip list. *)
Definition skipped (names_to_skip : option (list string))
    (regf_value : RegfValue) : bool :=
  existsb (String.eqb (lower (name_or_default regf_value)))
    (map lower (match names_to_skip with Some l => l | None => [] end)).

Definition kept_values (names_to_skip : option (list string))
    (regf_key : RegfKey) : list RegfValue :=
  filter (fun v => negb (skipped names_to_skip v)) (key_values regf_key).

(** The dictionary [_GetValuesFromKey] returns, when it returns. *)
Definition values_dict_of (names_to_skip : option (list string))
    (regf_key : RegfKey) : dict :=
  fold_left (fun d v => dict_set d (name_or_default v) (rendered v))
    (kept_values names_to_skip regf_key) [].

(** The exception of the first value of a list on which the display
    formatter raises. *)
Fixpoint first_fault (l : list RegfValue) : option Exc :=
  match l with
  | [] => None
  | v :: l' =>
      match render_outcome v with
      | Ok _ => first_fault l'
      | Raise e => Some e
      end
  end.

(** The values of a list before the first on which the display formatter
    raises. *)
Fixpoint before_fault (l : list RegfValue) : list RegfValue :=
  match l with
  | [] => []
  | v :: l' =>
      match render_outcome v with
      | Ok _ => v :: before_fault l'
      | Raise _ => []
      end
  end.

(** The outcome of [_GetValuesFromKey]. *)
Definition values_outcome (names_to_skip : option (list string))
    (regf_key : RegfKey) : res dict :=
  match first_fault (kept_values names_to_skip regf_key) with
  | None => Ok (values_dict_of names_to_skip regf_key)
  | Some e => Raise e
  end.

(** The warnings [_GetValuesFromKey] produces. *)
Definition key_warnings (names_to_skip : option (list string))
    (regf_key : RegfKey) : list string :=
  flat_map rendered_warnings
    (before_fault (kept_values names_to_skip regf_key)).

(** The generic key-visit event of a key visited at a path. *)
Definition key_visit_event (names_to_skip : option (list string))
    (key_path : string) (regf_key : RegfKey)
  : DateTimeValuesEvent * EventData :=
  (mkEvent (Filetime (get_last_written_time_as_integer regf_key))
     TIME_DESCRIPTION_WRITTEN,
   RegistryEventData
     (WindowsRegistryEventData.mk key_path
        (values_text (values_dict_of names_to_skip regf_key)))).

(** What [_ProduceDefaultWindowsRegistryEvent] hands over and its outcome:
    the key-visit event, when [_GetValuesFromKey] returns. *)
Definition key_visit_events (names_to_skip : option (list string))
    (key_path : string) (regf_key : RegfKey)
  : list (DateTimeValuesEvent * EventData) :=
  match first_fault (kept_values names_to_skip regf_key) with
  | None => [key_visit_event names_to_skip key_path regf_key]
  | Some _ => []
  end.

Definition key_visit_outcome (names_to_skip : option (list string))
    (regf_key : RegfKey) : res unit :=
  match first_fault (kept_values names_to_skip regf_key) with
  | None => Ok tt
  | Some e => Raise e
  end.

(** *** The tree in depth-first pre-order *)

(** The keys of the subtree of a key with the path segments of each, the
    key first and then its sub keys in their order. *)
Fixpoint preorder (segments : list string) (regf_key : RegfKey)
  : list (list string * RegfKey) :=
  (segments, regf_key) ::
  flat_map (fun sub_key => preorder (segments ++ [key_name sub_key])%list sub_key)
    (sub_keys regf_key).

(** The keys the walk of a Root key visits: the Root key at the segments
    ['', 'Root'], then the subtree of each of its sub keys. *)
Definition visited (root_key : RegfKey) : list (list string * RegfKey) :=
  ([""; "Root"], root_key) ::
  flat_map (fun sub_key => preorder [""; "Root"; key_name sub_key] sub_key)
    (sub_keys root_key).

Definition visit_events (l : list (list string * RegfKey))
  : list (DateTimeValuesEvent * EventData) :=
  map (fun p => key_visit_event None (join "\" (fst p)) (snd p)) l.

(** [l1] is an initial part of [l2]. *)
Definition initial_part {A} (l1 l2 : list A) : Prop :=
  exists rest, l2 = (l1 ++ rest)%list.

Definition visit_warnings (l : list (list string * RegfKey)) : list string :=
  flat_map (fun p => key_warnings None (snd p)) l.

(** [Emits P c]: every run of [c] hands over the same events, warnings and
    outcome, and every event satisfies [P]. *)
Definition Emits {A} (P : DateTimeValuesEvent * EventData -> Prop) (c : M A)
  : Prop :=
  exists es ws r, Runs c es ws r /\ Forall P es.

(** The specialized handling [_ParseRootKey] gives a sub key of Root after
    the walk of its subtree. *)
Definition specialized (sub_key : RegfKey) : M unit :=
  if key_name sub_key =? "File" then _ParseFileKey sub_key
  else if key_name sub_key =? "Programs" then _ParseProgramsKey sub_key
  else ret tt.

(** *** The walk as steps in order *)

(** What a computation hands over, and how it ends. *)
Record Trace : Type := mkTrace {
  trace_events : list (DateTimeValuesEvent * EventData);
  trace_warnings : list string;
  trace_outcome : res unit
}.

Definition trace_of (c : M unit) : Trace :=
  mkTrace (produced c) (warned c) (outcome c).

(** One computation after another: the second runs when the first
    returns. *)
Definition then_trace (t1 t2 : Trace) : Trace :=
  match trace_outcome t1 with
  | Ok _ =>
      mkTrace (trace_events t1 ++ trace_events t2)%list
        (trace_warnings t1 ++ trace_warnings t2)%list (trace_outcome t2)
  | Raise e => mkTrace (trace_events t1) (trace_warnings t1) (Raise e)
  end.

(** Steps run one after the other: what the steps up to the first that
    raises hand over, and its exception. *)
Fixpoint in_order (steps : list Trace) : Trace :=
  match steps with
  | [] => mkTrace [] [] (Ok tt)
  | step :: rest => then_trace step (in_order rest)
  end.

(** The outcome of a computation that returns [a] when it returns. *)
Definition returning {A} (a : A) (r : res unit) : res A :=
  match r with
  | Ok _ => Ok a
  | Raise e => Raise e
  end.

(** A step of the walk of a Root key: the default event of a key at a
    path, or the specialized handling of a sub key of Root. *)
Inductive Step : Type :=
  | Visit (key_path : string) (regf_key : RegfKey)
  | Specialized (sub_key : RegfKey).

Definition step_trace (step : Step) : Trace :=
  match step with
  | Visit key_path regf_key =>
      mkTrace (key_visit_events None key_path regf_key)
        (key_warnings None regf_key) (key_visit_outcome None regf_key)
  | Specialized sub_key => trace_of (specialized sub_key)
  end.

Definition visit_step (p : list string * RegfKey) : Step :=
  Visit (join "\" (fst p)) (snd p).

(** The default event of a key at the path joined from its segments, as
    [_ParseSubKey] produces it. *)
Definition visit_key (p : list string * RegfKey) : M unit :=
  _ProduceDefaultWindowsRegistryEvent (snd p) (join "\" (fst p)) None.

(** The steps of the walk of a subtree, and of the walk of a Root key: the
    visit of Root, then for each sub key the visits of its subtree in
    pre-order and its specialized handling. *)
Definition subtree_steps (segments : list string) (regf_key : RegfKey)
  : list Step :=
  map visit_step (preorder segments regf_key).

Definition root_steps (root_key : RegfKey) : list Step :=
  Visit "\Root" root_key ::
  flat_map
    (fun sub_key =>
       (subtree_steps [""; "Root"; key_name sub_key] sub_key
        ++ [Specialized sub_key])%list)
    (sub_keys root_key).

Definition run_steps (steps : list Step) : Trace :=
  in_order (map step_trace steps).

(** The key-visit event a step hands over when it returns. *)
Definition step_key_visits (step : Step)
  : list (DateTimeValuesEvent * EventData) :=
  match step with
  | Visit key_path regf_key => [key_visit_event None key_path regf_key]
  | Specialized _ => []
  end.

(** [Yields P Q c]: as [Emits P c], and a value [c] returns satisfies
    [Q]. *)
Definition Yields {A} (P : DateTimeValuesEvent * EventData -> Prop)
    (Q : A -> Prop) (c : M A) : Prop :=
  exists es ws r,
    Runs c es ws r /\ Forall P es /\ (forall a, r = Ok a -> Q a).

(** *** The file reference as the specification words it *)

(** Following the words of the specification: the split of a string on
    the first occurrence of a separator, into the part before it and the
    part after it. *)
Fixpoint split_first_from (sep cur s : string) : option (string * string) :=
  if String.prefix sep s then Some (cur, drop (String.length sep) s)
  else match s with
       | EmptyString => None
       | String c s' => split_first_from sep (cur ++ String c EmptyString) s'
       end.

Definition split_first (sep s : string) : option (string * string) :=
  split_first_from sep EmptyString s.

(** Following the words of the specification: the file reference of a key
    name, [None] when a part does not parse. *)
Definition file_reference_spec (name : string) : option string :=
  if contains "0000" name then
    match split_first "0000" name with
    | Some (sequence_hex, entry_hex) =>
        match int16 entry_hex, int16 sequence_hex with
        | Ok entry, Ok sequence =>
            Some (format_d entry ++ "-" ++ format_d sequence)
        | _, _ => None
        end
    | None => None
    end
  else
    match int16 name with
    | Ok z => Some (format_d z)
    | Raise _ => None
    end.

(** The value [_ParseFileReferenceKey] gives the attribute
    [file_reference]: the text its [try] computes, or [None]. *)
Definition file_reference_of (name : string) : PyVal :=
  match file_reference_try name with
  | Ok s => PyStr s
  | Raise _ => PyNone
  end.

(** *** The order of [sorted] *)

(** The comparison of two items [(name, value)], by name and then by
    value, of which [item_ltb] is the "less than". *)
Definition item_compare (a b : string * string) : comparison :=
  match String.compare (fst a) (fst b) with
  | Eq => String.compare (snd a) (snd b)
  | c => c
  end.

Definition item_le (a b : string * string) : Prop := item_ltb b a = false.

(** The text of one entry of the summary: ['{0:s}: {1!s}'.format(name,
    value)]. *)
Definition entry_text (item : string * string) : string :=
  fst item ++ ": " ++ snd item.

(** The item of the dictionary a value gives. *)
Definition item_of (regf_value : RegfValue) : string * string :=
  (name_or_default regf_value, rendered regf_value).

(** ** Example values and keys *)

(** A string value, an integer value, a multi-string value, a binary value
    and a value without data.  A reading method that does not fit the type
    of the value raises [IOError]. *)
Definition sz_value (name s : string) : RegfValue :=
  mkValue (Some name) REG_SZ (Some [Byte.x00; Byte.x00]) (Read s)
    (Fault (IOFault "unsupported integer value type"))
    (Fault (IOFault "unsupported multi string value type")).

Definition qword_value (name : string) (z : Z) : RegfValue :=
  mkValue (Some name) REG_QWORD (Some [Byte.x00; Byte.x00]) 
    (Fault (IOFault "unsupported string value type")) (Read z)
    (Fault (IOFault "unsupported multi string value type")).

Definition multi_sz_value (name : string) (l : list string) : RegfValue :=
  mkValue (Some name) REG_MULTI_SZ (Some [Byte.x00; Byte.x00])
    (Fault (IOFault "unsupported string value type"))
    (Fault (IOFault "unsupported integer value type")) (Read l).

Definition binary_value (name : string) (b : list Byte.byte) : RegfValue :=
  mkValue (Some name) REG_BINARY (Some b)
    (Fault (IOFault "unsupported string value type"))
    (Fault (IOFault "unsupported integer value type"))
    (Fault (IOFault "unsupported multi string value type")).

Definition empty_value (name : string) : RegfValue :=
  mkValue (Some name) REG_SZ None
    (Fault (IOFault "missing data")) (Fault (IOFault "missing data"))
    (Fault (IOFault "missing data")).

(** The default value of a key, which has no name, as a string value, and
    one whose data cannot be read. *)
Definition default_sz_value (s : string) : RegfValue :=
  mkValue None REG_SZ (Some [Byte.x00; Byte.x00]) (Read s)
    (Fault (IOFault "unsupported integer value type"))
    (Fault (IOFault "unsupported multi string value type")).

Definition unreadable_default_value : RegfValue :=
  mkValue None REG_SZ (Some [Byte.x00; Byte.x00])
    (Fault (IOFault "unable to retrieve string"))
    (Fault (IOFault "unsupported integer value type"))
    (Fault (IOFault "unsupported multi string value type")).

(** A key with one value of each kind, not in the order of the names. *)
Definition summary_key : RegfKey :=
  mkKey "Summary" 0
    [sz_value "b" "text"; multi_sz_value "a" ["x"; "y"];
     binary_value "c" [Byte.x00; Byte.x01; Byte.x02];
     default_sz_value "dflt";
     empty_value "e"; multi_sz_value "m" []; qword_value "d" 42]
    [].

(** A key with the default value and a value named "(default)", and the
    same key with the two values in the other order. *)
Definition colliding_key : RegfKey :=
  mkKey "Colliding" 0 [default_sz_value "a"; sz_value "(default)" "b"] [].

Definition colliding_key_swapped : RegfKey :=
  mkKey "Colliding" 0 [sz_value "(default)" "b"; default_sz_value "a"] [].

(** A string value whose data cannot be read. *)
Definition unreadable_sz_value (name : string) : RegfValue :=
  mkValue (Some name) REG_SZ (Some [Byte.x00; Byte.x00])
    (Fault (IOFault "unable to retrieve string"))
    (Fault (IOFault "unsupported integer value type"))
    (Fault (IOFault "unsupported multi string value type")).

(** A file-reference key whose SHA-1 value cannot be read, and one that
    is in order. *)
Definition unreadable_sha1_key : RegfKey :=
  mkKey "a00000b" 10 [unreadable_sz_value "101"; qword_value "17" 100] [].

Definition good_file_key : RegfKey :=
  mkKey "c00000d" 11
    [sz_value "0" "product"; qword_value "17" 200; qword_value "f" 300] [].

(** A file-reference key whose entry write time is a string value, which
    [get_data_as_integer] refuses, and whose file creation time is in
    order. *)
Definition string_time_key : RegfKey :=
  mkKey "a00000b" 12 [sz_value "17" "yesterday"; qword_value "12" 500] [].

(** Program keys: one whose installation time is a string value, one in
    order. *)
Definition string_time_program_key : RegfKey :=
  mkKey "program1" 13 [sz_value "0" "first"; sz_value "a" "yesterday"] [].

Definition good_program_key : RegfKey :=
  mkKey "program2" 14 [sz_value "0" "second"; qword_value "a" 600] [].

Definition example_programs_key : RegfKey :=
  mkKey "Programs" 15 [] [string_time_program_key; good_program_key].

(** Hives: a Root key with a File subtree and a Programs subtree. *)
Definition hive_of (root_key : RegfKey) : RegfFile :=
  mkFile (Ok tt)
    (fun path => if path =? "Root" then Some root_key else None).

Definition unreadable_sha1_root : RegfKey :=
  mkKey "Root" 1 []
    [mkKey "File" 2 []
       [mkKey "Volume" 3 [] [unreadable_sha1_key; good_file_key]];
     mkKey "Programs" 4 [] [good_program_key]].

Definition string_time_root : RegfKey :=
  mkKey "Root" 1 []
    [mkKey "File" 2 [] [mkKey "Volume" 3 [] [string_time_key]];
     mkKey "Programs" 4 [] [good_program_key]].

(** What an event is: the key path of a key-visit event, the data type of
    an entry. *)
Definition event_label (e : DateTimeValuesEvent * EventData) : string :=
  match snd e with
  | RegistryEventData d => WindowsRegistryEventData.key_path d
  | FileEventData _ => AMCacheFileEventData.DATA_TYPE
  | ProgramEventData _ => AMCacheProgramEventData.DATA_TYPE
  end.

(** A hive that opens and holds no key at all. *)
Definition rootless_hive : RegfFile := mkFile (Ok tt) (fun _ => None).

(** A file-reference key with a SHA-1 value that begins with four
    zeros. *)
Definition padded_sha1_value : RegfValue :=
  sz_value "101" "0000da39a3ee5e6b4b0d3255bfef95601890afd80709".

Definition padded_sha1_key : RegfKey :=
  mkKey "a00000b" 0 [padded_sha1_value; qword_value "17" 1] [].

(** *** The events of the entry decoders when the time values are read *)

(** The event of one time value: none when the value is absent. *)
Definition time_event (regf_key : RegfKey) (name : string)
    (clock : Z -> DateTime) (description : TimeDescription)
    (event_data : EventData) : list (DateTimeValuesEvent * EventData) :=
  match get_value_by_name regf_key name with
  | Some v =>
      match get_data_as_integer v with
      | Read z => [(mkEvent (clock z) description, event_data)]
      | Fault _ => []
      end
  | None => []
  end.

(** The time value of that name is absent or is read as an integer. *)
Definition readable_time (regf_key : RegfKey) (name : string) : bool :=
  match get_value_by_name regf_key name with
  | Some v =>
      match get_data_as_integer v with
      | Read _ => true
      | Fault _ => false
      end
  | None => true
  end.

Definition file_time_events (file_reference_key : RegfKey)
    (event_data : AMCacheFileEventData.t)
  : list (DateTimeValuesEvent * EventData) :=
  (time_event file_reference_key _AMCACHE_ENTRY_WRITE_TIME Filetime
     TIME_DESCRIPTION_MODIFICATION (FileEventData event_data) ++
   time_event file_reference_key _AMCACHE_FILE_CREATION_TIME Filetime
     TIME_DESCRIPTION_CREATION (FileEventData event_data) ++
   time_event file_reference_key _AMCACHE_FILE_MODIFICATION_TIME Filetime
     TIME_DESCRIPTION_MODIFICATION (FileEventData event_data) ++
   time_event file_reference_key _AMCACHE_COMPILATION_TIME PosixTime
     TIME_DESCRIPTION_CHANGE (FileEventData event_data))%list.

(** The file-reference key of the MFT entry 9 with the sequence number 1:
    its name is the file reference 0x1000000000009 in hexadecimal. *)
Definition low_entry_key : RegfKey :=
  mkKey "1000000000009" 16 [qword_value "17" 700] [].

(** ** More of the walk and of the decoders *)

(** The number of keys of a subtree. *)
Fixpoint key_count (regf_key : RegfKey) : nat :=
  S (list_sum (map key_count (sub_keys regf_key))).

(** The outcome of the read of one time value: the fault of
    [get_data_as_integer] when the value is present and is not read. *)
Definition time_outcome (regf_key : RegfKey) (name : string) : res unit :=
  match get_value_by_name regf_key name with
  | Some v =>
      match get_data_as_integer v with
      | Read _ => Ok tt
      | Fault f => Raise (exc_of_fault f)
      end
  | None => Ok tt
  end.

(** Steps run one after the other: the events of the steps up to the
    first that raises, and its exception. *)
Fixpoint in_sequence
    (steps : list (list (DateTimeValuesEvent * EventData) * res unit))
  : list (DateTimeValuesEvent * EventData) * res unit :=
  match steps with
  | [] => ([], Ok tt)
  | (es, Ok _) :: rest =>
      ((es ++ fst (in_sequence rest))%list, snd (in_sequence rest))
  | (es, Raise e) :: _ => (es, Raise e)
  end.

(** The four steps of the file entry decoder after the mapping loop. *)
Definition file_time_steps (file_reference_key : RegfKey)
    (event_data : AMCacheFileEventData.t)
  : list (list (DateTimeValuesEvent * EventData) * res unit) :=
  [(time_event file_reference_key _AMCACHE_ENTRY_WRITE_TIME Filetime
      TIME_DESCRIPTION_MODIFICATION (FileEventData event_data),
    time_outcome file_reference_key _AMCACHE_ENTRY_WRITE_TIME);
   (time_event file_reference_key _AMCACHE_FILE_CREATION_TIME Filetime
      TIME_DESCRIPTION_CREATION (FileEventData event_data),
    time_outcome file_reference_key _AMCACHE_FILE_CREATION_TIME);
   (time_event file_reference_key _AMCACHE_FILE_MODIFICATION_TIME Filetime
      TIME_DESCRIPTION_MODIFICATION (FileEventData event_data),
    time_outcome file_reference_key _AMCACHE_FILE_MODIFICATION_TIME);
   (time_event file_reference_key _AMCACHE_COMPILATION_TIME PosixTime
      TIME_DESCRIPTION_CHANGE (FileEventData event_data),
    time_outcome file_reference_key _AMCACHE_COMPILATION_TIME)].

(** [d.get(k)] *)
Fixpoint dict_get (d : dict) (k : string) : option string :=
  match d with
  | [] => None
  | (k', v') :: d' => if k' =? k then Some v' else dict_get d' k
  end.

(** The last of the values of a list that shows under a name. *)
Definition last_named (name : string) (l : list RegfValue) : option RegfValue :=
  find (fun v => name_or_default v =? name) (rev l).

(** [getattr(event_data, attribute_name)] on the program event data,
    [None] for a name that is no attribute of the class. *)
Definition program_getattr (d : AMCacheProgramEventData.t)
    (attribute_name : string) : option PyVal :=
  if attribute_name =? "entry_type" then
    Some (AMCacheProgramEventData.entry_type d)
  else if attribute_name =? "file_paths" then
    Some (AMCacheProgramEventData.file_paths d)
  else if attribute_name =? "files" then
    Some (AMCacheProgramEventData.files d)
  else if attribute_name =? "language_code" then
    Some (AMCacheProgramEventData.language_code d)
  else if attribute_name =? "msi_package_code" then
    Some (AMCacheProgramEventData.msi_package_code d)
  else if attribute_name =? "msi_product_code" then
    Some (AMCacheProgramEventData.msi_product_code d)
  else if attribute_name =? "name" then
    Some (AMCacheProgramEventData.name d)
  else if attribute_name =? "package_code" then
    Some (AMCacheProgramEventData.package_code d)
  else if attribute_name =? "product_code" then
    Some (AMCacheProgramEventData.product_code d)
  else if attribute_name =? "publisher" then
    Some (AMCacheProgramEventData.publisher d)
  else if attribute_name =? "uninstall_key" then
    Some (AMCacheProgramEventData.uninstall_key d)
  else if attribute_name =? "version" then
    Some (AMCacheProgramEventData.version d)
  else None.

(** [Warns P c]: as [Emits], for the warnings of [c]. *)
Definition Warns {A} (P : string -> Prop) (c : M A) : Prop :=
  exists es ws r, Runs c es ws r /\ Forall P ws.

(** The warning for a value of a key of the tree of a Root key that
    cannot be read: it names the value and gives the message of the fault
    of its read. *)
Definition is_read_warning (root_key : RegfKey) (w : string) : Prop :=
  exists segments regf_key regf_value name f,
    In (segments, regf_key) (visited root_key)
    /\ In regf_value (key_values regf_key)
    /\ value_name regf_value = Some name
    /\ read_value_data regf_value = Fault f
    /\ w = "Unable to read data from value: " ++ name ++
           " with error: " ++ exc_msg (exc_of_fault f).

(** A Root key whose sub keys do not have the names "File" and "Programs"
    in this very spelling. *)
Definition other_names_root : RegfKey :=
  mkKey "Root" 1 [default_sz_value "root"]
    [mkKey "file" 2 []
       [mkKey "Volume" 3 [] [good_file_key]];
     mkKey "PROGRAMS" 4 [qword_value "n" 7] [good_program_key]].

(** A Root key with a Programs subtree whose one program key is in
    order. *)
Definition good_programs_root : RegfKey :=
  mkKey "Root" 1 [] [mkKey "Programs" 5 [] [good_program_key]].

(** The key holds a value of that name. *)
Definition has_value (regf_key : RegfKey) (name : string) : bool :=
  match get_value_by_name regf_key name with
  | Some _ => true
  | None => false
  end.

(** [getattr(event_data, attribute_name)] on the file event data, [None]
    for a name that is no attribute of the class. *)
Definition file_getattr (d : AMCacheFileEventData.t)
    (attribute_name : string) : option PyVal :=
  if attribute_name =? "company_name" then
    Some (AMCacheFileEventData.company_name d)
  else if attribute_name =? "file_description" then
    Some (AMCacheFileEventData.file_description d)
  else if attribute_name =? "file_reference" then
    Some (AMCacheFileEventData.file_reference d)
  else if attribute_name =? "file_size" then
    Some (AMCacheFileEventData.file_size d)
  else if attribute_name =? "file_version" then
    Some (AMCacheFileEventData.file_version d)
  else if attribute_name =? "full_path" then
    Some (AMCacheFileEventData.full_path d)
  else if attribute_name =? "language_code" then
    Some (AMCacheFileEventData.language_code d)
  else if attribute_name =? "product_name" then
    Some (AMCacheFileEventData.product_name d)
  else if attribute_name =? "program_identifier" then
    Some (AMCacheFileEventData.program_identifier d)
  else if attribute_name =? "sha1" then
    Some (AMCacheFileEventData.sha1 d)
  else None.

(** * Properties *)

(** ** The built-ins on examples *)

Example split_one : split "0000" "a00000b" = ["a"; "0b"].
Proof. reflexivity. Qed.

Example split_two : split "0000" "a00000000b" = ["a"; ""; "b"].
Proof. reflexivity. Qed.

Example split_trailing : split "0000" "58b989d2A0000" = ["58b989d2A"; ""].
Proof. reflexivity. Qed.

Example int16_examples :
  map int16 ["0x1f"; "-1f"; " 1f "; "1_f"; "0x_1f"; "+a"; "1a2b3c"]
  = map Ok [31; -31; 31; 31; 31; 10; 1715004]%Z.
Proof. reflexivity. Qed.

Example int16_rejects :
  forallb (fun s => negb (is_ok (int16 s)))
    [""; "_1f"; "1__f"; "1f_"; "0X"; "--1"; "+ 1"; "0x-1"; "0_x1"; "1g"; "0x"]
  = true.
Proof. reflexivity. Qed.

Example format_d_examples :
  map format_d [0; 7; -26; 1715004]%Z = ["0"; "7"; "-26"; "1715004"].
Proof. reflexivity. Qed.

Example lower_examples :
  map lower ["AbC"; "(default)"; "Files"] = ["abc"; "(default)"; "files"].
Proof. reflexivity. Qed.

(** ** The mapping tables *)

Ltac nodup_strings :=
  repeat (constructor; [simpl; intuition discriminate |]); constructor.

Lemma file_table_names_distinct :
  NoDup (map fst _FILE_REFERENCE_KEY_VALUES).
Proof. unfold _FILE_REFERENCE_KEY_VALUES; simpl. nodup_strings. Qed.

Lemma program_table_names_distinct :
  NoDup (map fst _PRODUCT_KEY_VALUES).
Proof. unfold _PRODUCT_KEY_VALUES; simpl. nodup_strings. Qed.

(** Every attribute name of the file table is an attribute of the file
    event data, and none is [file_reference]. *)
Lemma file_attributes_known :
  forallb (fun item =>
             existsb (String.eqb (snd item)) AMCacheFileEventData.attributes
             && negb (snd item =? "file_reference"))
    _FILE_REFERENCE_KEY_VALUES = true.
Proof. reflexivity. Qed.

Lemma program_attributes_known :
  forallb (fun item =>
             existsb (String.eqb (snd item)) AMCacheProgramEventData.attributes)
    _PRODUCT_KEY_VALUES = true.
Proof. reflexivity. Qed.

(** C4, as stated, fails: the tables do not hold ten and twelve entries. *)
Lemma C4_counterexample :
  ~ (List.length _FILE_REFERENCE_KEY_VALUES = 10
     /\ List.length _PRODUCT_KEY_VALUES = 12).
Proof. intros [H _]. discriminate H. Qed.

(** C4 (amended): the file-entry mapping table maps exactly nine value
    names to attribute identifiers, among them "0" to product_name and
    "101" to sha1, and the program mapping table maps exactly eleven value
    names, among them "0" to name and "f" to product_code. *)
Theorem C4_mapping_tables :
  List.length _FILE_REFERENCE_KEY_VALUES = 9
  /\ NoDup (map fst _FILE_REFERENCE_KEY_VALUES)
  /\ In ("0", "product_name") _FILE_REFERENCE_KEY_VALUES
  /\ In ("101", "sha1") _FILE_REFERENCE_KEY_VALUES
  /\ List.length _PRODUCT_KEY_VALUES = 11
  /\ NoDup (map fst _PRODUCT_KEY_VALUES)
  /\ In ("0", "name") _PRODUCT_KEY_VALUES
  /\ In ("f", "product_code") _PRODUCT_KEY_VALUES.
Proof.
  split; [reflexivity |].
  split; [exact file_table_names_distinct |].
  split; [simpl; auto |].
  split; [simpl; intuition auto |].
  split; [reflexivity |].
  split; [exact program_table_names_distinct |].
  split; [simpl; auto |].
  simpl; intuition auto.
Qed.

(** ** A missing Root key *)

(** C8: when the hive opens and holds no key at the path "Root", the
    parser produces exactly one extraction warning, the text "Root key
    missing from AMCache.hve file" with a full stop, produces no event,
    and returns without an exception. *)
Theorem C8_root_key_missing (file_object : RegfFile) (m : Mediator) :
  open_file_object file_object = Ok tt ->
  get_key_by_path file_object "Root" = None ->
  ParseFileObject file_object m
  = (mkMediator (events m)
       (warnings m ++ ["Root key missing from AMCache.hve file."])%list,
     Ok tt)
  /\ String.prefix "Root key missing from AMCache.hve file"
       "Root key missing from AMCache.hve file." = true.
Proof.
  intros Hopen Hroot. split; [| reflexivity].
  unfold ParseFileObject. rewrite Hopen, Hroot. reflexivity.
Qed.

Lemma C8_root_key_missing_witness :
  open_file_object rootless_hive = Ok tt
  /\ get_key_by_path rootless_hive "Root" = None
  /\ ParseFileObject rootless_hive empty_mediator
     = (mkMediator [] ["Root key missing from AMCache.hve file."], Ok tt).
Proof.
  split; [reflexivity |].
  split; [reflexivity |].
  exact (proj1 (C8_root_key_missing rootless_hive empty_mediator
                  eq_refl eq_refl)).
Defined.

(** ** Running a computation: the rules of [Runs] *)

Lemma extend_nil (m : Mediator) : extend m [] [] = m.
Proof. destruct m; unfold extend; simpl. now rewrite !app_nil_r. Qed.

Lemma extend_extend (m : Mediator) es1 ws1 es2 ws2 :
  extend (extend m es1 ws1) es2 ws2
  = extend m (es1 ++ es2)%list (ws1 ++ ws2)%list.
Proof. unfold extend; simpl. now rewrite !app_assoc. Qed.

Lemma Runs_ret {A} (a : A) : Runs (ret a) [] [] (Ok a).
Proof. intros m. unfold ret. now rewrite extend_nil. Qed.

Lemma Runs_raise {A} (e : Exc) : Runs (@raise A e) [] [] (Raise e).
Proof. intros m. unfold raise. now rewrite extend_nil. Qed.

Lemma Runs_lift_res {A} (r : res A) : Runs (lift_res r) [] [] r.
Proof. destruct r; [apply Runs_ret | apply Runs_raise]. Qed.

Lemma Runs_call_read {A} (a : A) : Runs (call (Read a)) [] [] (Ok a).
Proof. apply Runs_ret. Qed.

Lemma Runs_call_fault {A} (f : ReadFault) :
  Runs (call (@Fault A f)) [] [] (Raise (exc_of_fault f)).
Proof. apply Runs_raise. Qed.

Lemma Runs_event event event_data :
  Runs (ProduceEventWithEventData event event_data)
    [(event, event_data)] [] (Ok tt).
Proof.
  intros m. unfold ProduceEventWithEventData, extend.
  now rewrite app_nil_r.
Qed.

Lemma Runs_warning message :
  Runs (ProduceExtractionWarning message) [] [message] (Ok tt).
Proof.
  intros m. unfold ProduceExtractionWarning, extend.
  now rewrite app_nil_r.
Qed.

Lemma Runs_bind_ok {A B} (c : M A) (k : A -> M B) es1 ws1 a es2 ws2 r :
  Runs c es1 ws1 (Ok a) ->
  Runs (k a) es2 ws2 r ->
  Runs (bind c k) (es1 ++ es2)%list (ws1 ++ ws2)%list r.
Proof.
  intros Hc Hk m. unfold bind. rewrite (Hc m), (Hk _).
  now rewrite extend_extend.
Qed.

Lemma Runs_bind_ok_eq {A B} (c : M A) (k : A -> M B)
    es1 ws1 a es2 ws2 r es ws :
  Runs c es1 ws1 (Ok a) ->
  Runs (k a) es2 ws2 r ->
  es = (es1 ++ es2)%list -> ws = (ws1 ++ ws2)%list ->
  Runs (bind c k) es ws r.
Proof. intros Hc Hk -> ->. eapply Runs_bind_ok; eauto. Qed.

(** [run_bind H]: the first computation of a bind runs as [H] says. *)
Ltac run_bind H :=
  eapply Runs_bind_ok_eq;
  [ exact H | | simpl; first [reflexivity | rewrite ?app_nil_r; reflexivity]
  | simpl; first [reflexivity | rewrite ?app_nil_r; reflexivity] ].

Lemma Runs_bind_raise {A B} (c : M A) (k : A -> M B) es ws e :
  Runs c es ws (Raise e) ->
  Runs (bind c k) es ws (Raise e).
Proof. intros Hc m. unfold bind. now rewrite (Hc m). Qed.

(** What a run hands over is read off a run on the empty mediator. *)
Lemma Runs_produced {A} (c : M A) es ws r :
  Runs c es ws r -> produced c = es /\ warned c = ws /\ outcome c = r.
Proof.
  intros H. unfold produced, warned, outcome.
  rewrite (H empty_mediator). simpl. auto.
Qed.

Lemma Runs_unique {A} (c : M A) es ws r es' ws' r' :
  Runs c es ws r -> Runs c es' ws' r' -> es = es' /\ ws = ws' /\ r = r'.
Proof.
  intros H H'.
  destruct (Runs_produced _ _ _ _ H) as (<- & <- & <-).
  destruct (Runs_produced _ _ _ _ H') as (<- & <- & <-). auto.
Qed.

Lemma Runs_Appends {A} (c : M A) es ws r : Runs c es ws r -> Appends c.
Proof.
  intros H. unfold Appends.
  destruct (Runs_produced _ _ _ _ H) as (-> & -> & ->). exact H.
Qed.

Lemma Appends_bind {A B} (c : M A) (k : A -> M B) :
  Appends c -> (forall a, Appends (k a)) -> Appends (bind c k).
Proof.
  intros Hc Hk. unfold Appends in Hc.
  destruct (outcome c) as [a | e] eqn:E.
  - eapply Runs_Appends, Runs_bind_ok; [exact Hc | exact (Hk a)].
  - eapply Runs_Appends, Runs_bind_raise; exact Hc.
Qed.

Lemma Appends_for_each {A} (body : A -> M unit) (l : list A) :
  (forall x, Appends (body x)) -> Appends (for_each body l).
Proof.
  intros Hb. induction l as [| x l IH]; simpl.
  - eapply Runs_Appends, Runs_ret.
  - apply Appends_bind; auto.
Qed.

Lemma Appends_for_fold {A S} (body : A -> S -> M S) (l : list A) :
  (forall x s, Appends (body x s)) -> forall s, Appends (for_fold body l s).
Proof.
  intros Hb. induction l as [| x l IH]; intros s; simpl.
  - eapply Runs_Appends, Runs_ret.
  - apply Appends_bind; auto.
Qed.

(** ** The value decoder *)

Lemma GetValueDataAsObject_runs (regf_value : RegfValue) :
  Runs (_GetValueDataAsObject regf_value) []
    (decode_warnings regf_value) (decode_outcome regf_value).
Proof.
  unfold _GetValueDataAsObject, decode_warnings, decode_outcome, decoded.
  destruct (read_value_data regf_value) as [x | f].
  - destruct (value_name regf_value); apply Runs_ret.
  - destruct (value_name regf_value) as [name |]; simpl.
    + run_bind (Runs_ret name).
      run_bind (Runs_warning
        ("Unable to read data from value: " ++ name ++
         " with error: " ++ exc_msg (exc_of_fault f))).
      apply Runs_ret.
    + apply Runs_bind_raise. apply Runs_raise.
Qed.

(** A value found under a name has this name and is a value of the key. *)
Lemma found_value_name (regf_key : RegfKey) (name : string)
    (regf_value : RegfValue) :
  get_value_by_name regf_key name = Some regf_value ->
  value_name regf_value = Some name /\ In regf_value (key_values regf_key).
Proof.
  unfold get_value_by_name. intros H. apply find_some in H.
  destruct H as [Hin Hname]. split; [| exact Hin].
  destruct (value_name regf_value) as [n |]; [| discriminate].
  apply String.eqb_eq in Hname. now subst.
Qed.

Lemma decode_outcome_named (regf_value : RegfValue) (name : string) :
  value_name regf_value = Some name ->
  decode_outcome regf_value = Ok (decoded regf_value).
Proof.
  intros Hn. unfold decode_outcome. rewrite Hn.
  destruct (read_value_data regf_value); reflexivity.
Qed.

Lemma decode_outcome_cases (regf_value : RegfValue) :
  (decode_outcome regf_value = Ok (decoded regf_value)
   /\ ~ (value_name regf_value = None
         /\ exists f, read_value_data regf_value = Fault f))
  \/ (decode_outcome regf_value = Raise format_type_error
      /\ decode_warnings regf_value = []
      /\ value_name regf_value = None
      /\ exists f, read_value_data regf_value = Fault f).
Proof.
  unfold decode_outcome, decode_warnings.
  destruct (read_value_data regf_value) as [x | f].
  - left. split; [destruct (value_name regf_value); reflexivity |].
    intros (_ & f & Hf). discriminate Hf.
  - destruct (value_name regf_value) as [name |].
    + left. split; [reflexivity |]. intros (Hn & _). discriminate Hn.
    + right. repeat split. now exists f.
Qed.

(** The value decoder on a value found under a name never raises. *)
Lemma found_value_runs (regf_key : RegfKey) (name : string)
    (regf_value : RegfValue) :
  get_value_by_name regf_key name = Some regf_value ->
  Runs (_GetValueDataAsObject regf_value) []
    (decode_warnings regf_value) (Ok (decoded regf_value)).
Proof.
  intros H. destruct (found_value_name _ _ _ H) as [Hn _].
  rewrite <- (decode_outcome_named _ _ Hn).
  apply GetValueDataAsObject_runs.
Qed.

(** The decoded object by type tag: text, integer, list, bytes, or [None]
    when the read faults. *)
Lemma decoded_shape (regf_value : RegfValue) :
  match value_type regf_value with
  | REG_SZ | REG_EXPAND_SZ | REG_LINK =>
      decoded regf_value =
        match get_data_as_string regf_value with
        | Read s => PyStr s | Fault _ => PyNone end
  | REG_DWORD | REG_DWORD_BIG_ENDIAN | REG_QWORD =>
      decoded regf_value =
        match get_data_as_integer regf_value with
        | Read z => PyInt z | Fault _ => PyNone end
  | REG_MULTI_SZ =>
      decoded regf_value =
        match get_data_as_multi_string regf_value with
        | Read l => PyList l | Fault _ => PyNone end
  | REG_BINARY | REG_OTHER =>
      decoded regf_value =
        match value_data regf_value with
        | Some b => PyBytes b | None => PyNone end
  end.
Proof.
  unfold decoded, read_value_data.
  destruct (value_type regf_value);
    try destruct (get_data_as_string regf_value);
    try destruct (get_data_as_integer regf_value);
    try destruct (get_data_as_multi_string regf_value);
    try destruct (value_data regf_value); reflexivity.
Qed.

(** ** The display formatter *)

(** The display formatter on a value whose decoding returns. *)
Lemma value_string_of_decoded (regf_value : RegfValue) (b : list Byte.byte) :
  value_data regf_value = Some b ->
  Runs
    (match value_type regf_value with
     | REG_MULTI_SZ =>
         s <- lift_res (py_join_or_empty ", " (decoded regf_value)) ;;
         ret ("[" ++ s ++ "]")
     | REG_DWORD | REG_DWORD_BIG_ENDIAN | REG_EXPAND_SZ | REG_LINK
     | REG_QWORD | REG_SZ =>
         ret (py_str (decoded regf_value))
     | REG_BINARY | REG_OTHER =>
         n <- lift_res (py_len (decoded regf_value)) ;;
         ret ("(" ++ format_d (Z.of_nat n) ++ " bytes)")
     end) [] [] (Ok (rendered regf_value)).
Proof.
  intros Hd. unfold rendered. rewrite Hd.
  pose proof (decoded_shape regf_value) as Hs.
  rewrite Hd in Hs.
  destruct (value_type regf_value); rewrite Hs;
    try destruct (get_data_as_string regf_value);
    try destruct (get_data_as_integer regf_value);
    try destruct (get_data_as_multi_string regf_value);
    simpl;
    try apply Runs_ret;
    (eapply Runs_bind_ok_eq;
     [ apply Runs_ret | apply Runs_ret | reflexivity | reflexivity ]).
Qed.

Lemma value_string_of_runs (regf_value : RegfValue) :
  Runs (value_string_of regf_value) []
    (rendered_warnings regf_value) (render_outcome regf_value).
Proof.
  unfold value_string_of, rendered_warnings, render_outcome.
  destruct (value_data regf_value) as [b |] eqn:Hd; [| apply Runs_ret].
  pose proof (GetValueDataAsObject_runs regf_value) as Hrun.
  destruct (decode_outcome_cases regf_value) as [[Ho _] | (Ho & _)];
    rewrite Ho in Hrun |- *.
  - eapply Runs_bind_ok_eq;
      [ exact Hrun | exact (value_string_of_decoded regf_value b Hd)
      | reflexivity | now rewrite app_nil_r ].
  - apply Runs_bind_raise. exact Hrun.
Qed.

Lemma render_outcome_cases (regf_value : RegfValue) :
  (render_outcome regf_value = Ok (rendered regf_value)
   /\ ~ unformattable regf_value)
  \/ (render_outcome regf_value = Raise format_type_error
      /\ rendered_warnings regf_value = []
      /\ unformattable regf_value).
Proof.
  unfold render_outcome, rendered_warnings, unformattable, rendered.
  destruct (value_data regf_value) as [b |] eqn:Hd.
  - destruct (decode_outcome_cases regf_value)
      as [[Ho Hnot] | (Ho & Hw & Hn & Hf)]; rewrite Ho.
    + left. split; [reflexivity | tauto].
    + right. repeat split; auto. discriminate.
  - left. split; [reflexivity |]. intros (_ & H & _). now apply H.
Qed.

(** No fault in a list of values: the display formatter returns on every
    one of them. *)
Lemma first_fault_none (l : list RegfValue) :
  first_fault l = None <-> forall v, In v l -> ~ unformattable v.
Proof.
  induction l as [| v l IH]; simpl.
  - split; [intros _ ? [] | reflexivity].
  - destruct (render_outcome_cases v) as [[Ho Hnot] | (Ho & _ & Hun)];
      rewrite Ho.
    + rewrite IH. split.
      * intros H x [<- | Hx]; auto.
      * intros H x Hx. apply H. now right.
    + split; [discriminate |]. intros H.
      now contradiction (H v (or_introl eq_refl)).
Qed.

Lemma first_fault_some (l : list RegfValue) (e : Exc) :
  first_fault l = Some e ->
  e = format_type_error /\ exists v, In v l /\ unformattable v.
Proof.
  induction l as [| v l IH]; simpl; [discriminate |].
  destruct (render_outcome_cases v) as [[Ho Hnot] | (Ho & _ & Hun)];
    rewrite Ho.
  - intros H. destruct (IH H) as (He & x & Hx & Hun).
    split; [exact He |]. exists x. auto.
  - intros [= <-]. split; [reflexivity |]. exists v. auto.
Qed.

Lemma before_fault_all (l : list RegfValue) :
  first_fault l = None -> before_fault l = l.
Proof.
  induction l as [| v l IH]; simpl; [reflexivity |].
  destruct (render_outcome v); [| discriminate].
  intros H. now rewrite IH.
Qed.

Lemma kept_values_In names_to_skip regf_key v :
  In v (kept_values names_to_skip regf_key)
  <-> In v (key_values regf_key) /\ skipped names_to_skip v = false.
Proof.
  unfold kept_values. rewrite filter_In, negb_true_iff. reflexivity.
Qed.

(** The formatter returns on a key exactly when no value of the key that
    is not skipped has data, no name and a read that faults. *)
Lemma kept_fault_none names_to_skip regf_key :
  first_fault (kept_values names_to_skip regf_key) = None
  <-> forall v, In v (key_values regf_key) ->
        skipped names_to_skip v = false -> ~ unformattable v.
Proof.
  rewrite first_fault_none. split.
  - intros H v Hv Hs. apply H, kept_values_In. auto.
  - intros H v Hv. apply kept_values_In in Hv. now apply H.
Qed.

Lemma kept_fault_some names_to_skip regf_key e :
  first_fault (kept_values names_to_skip regf_key) = Some e ->
  e = format_type_error
  /\ exists v, In v (key_values regf_key)
               /\ skipped names_to_skip v = false /\ unformattable v.
Proof.
  intros H. destruct (first_fault_some _ _ H) as (He & v & Hv & Hun).
  apply kept_values_In in Hv. split; [exact He |]. exists v. tauto.
Qed.

Lemma GetValuesFromKey_runs (regf_key : RegfKey)
    (names_to_skip : option (list string)) :
  Runs (_GetValuesFromKey regf_key names_to_skip) []
    (key_warnings names_to_skip regf_key)
    (values_outcome names_to_skip regf_key).
Proof.
  unfold _GetValuesFromKey, key_warnings, values_outcome, values_dict_of,
    kept_values.
  generalize (@nil (string * string)) as d.
  induction (key_values regf_key) as [| v l IH]; intros d; simpl.
  - apply Runs_ret.
  - fold (skipped names_to_skip v).
    destruct (skipped names_to_skip v); simpl.
    + run_bind (Runs_ret d). apply IH.
    + pose proof (value_string_of_runs v) as Hv.
      destruct (render_outcome_cases v) as [[Ho _] | (Ho & Hw & _)];
        rewrite Ho in Hv |- *.
      * assert (Hstep :
          Runs (value_string <- value_string_of v ;;
                ret (dict_set d (name_or_default v) value_string))
            [] (rendered_warnings v)
            (Ok (dict_set d (name_or_default v) (rendered v)))).
        { run_bind Hv. apply Runs_ret. }
        simpl. run_bind Hstep. apply IH.
      * simpl. rewrite Hw in Hv.
        apply Runs_bind_raise, Runs_bind_raise. exact Hv.
Qed.

Lemma ProduceDefaultWindowsRegistryEvent_runs (regf_key : RegfKey)
    (key_path : string) (names_to_skip : option (list string)) :
  Runs (_ProduceDefaultWindowsRegistryEvent regf_key key_path names_to_skip)
    (key_visit_events names_to_skip key_path regf_key)
    (key_warnings names_to_skip regf_key)
    (key_visit_outcome names_to_skip regf_key).
Proof.
  unfold _ProduceDefaultWindowsRegistryEvent, key_visit_events,
    key_visit_outcome.
  pose proof (GetValuesFromKey_runs regf_key names_to_skip) as H.
  unfold values_outcome in H.
  destruct (first_fault (kept_values names_to_skip regf_key)).
  - apply Runs_bind_raise. exact H.
  - run_bind H. apply Runs_event.
Qed.

(** ** Computations whose events all have a property *)

Lemma Emits_of_Runs {A} P (c : M A) es ws r :
  Runs c es ws r -> Forall P es -> Emits P c.
Proof. intros H HP. exists es, ws, r. auto. Qed.

Lemma Emits_Appends {A} P (c : M A) : Emits P c -> Appends c.
Proof. intros (es & ws & r & H & _). eapply Runs_Appends, H. Qed.

Lemma Emits_produced {A} P (c : M A) : Emits P c -> Forall P (produced c).
Proof.
  intros (es & ws & r & H & HP).
  destruct (Runs_produced _ _ _ _ H) as (-> & _). exact HP.
Qed.

Lemma Emits_ret {A} P (a : A) : Emits P (ret a).
Proof. eapply Emits_of_Runs; [apply Runs_ret | constructor]. Qed.

Lemma Emits_raise {A} P (e : Exc) : Emits P (@raise A e).
Proof. eapply Emits_of_Runs; [apply Runs_raise | constructor]. Qed.

Lemma Emits_lift_res {A} P (r : res A) : Emits P (lift_res r).
Proof. eapply Emits_of_Runs; [apply Runs_lift_res | constructor]. Qed.

Lemma Emits_call {A} P (r : read A) : Emits P (call r).
Proof. destruct r; [apply Emits_ret | apply Emits_raise]. Qed.

Lemma Emits_event (P : DateTimeValuesEvent * EventData -> Prop)
    event event_data :
  P (event, event_data) -> Emits P (ProduceEventWithEventData event event_data).
Proof.
  intros HP. eapply Emits_of_Runs; [apply Runs_event |].
  constructor; [exact HP | constructor].
Qed.

Lemma Emits_bind {A B} P (c : M A) (k : A -> M B) :
  Emits P c -> (forall a, Emits P (k a)) -> Emits P (bind c k).
Proof.
  intros (es & ws & [a | e] & Hc & HP) Hk.
  - destruct (Hk a) as (es' & ws' & r' & Hk' & HP').
    exists (es ++ es')%list, (ws ++ ws')%list, r'. split.
    + eapply Runs_bind_ok; eauto.
    + apply Forall_app; auto.
  - exists es, ws, (Raise e). split; [| exact HP].
    apply Runs_bind_raise; exact Hc.
Qed.

Lemma Emits_for_each {A} P (body : A -> M unit) (l : list A) :
  (forall x, Emits P (body x)) -> Emits P (for_each body l).
Proof.
  intros Hb. induction l as [| x l IH]; simpl.
  - apply Emits_ret.
  - apply Emits_bind; auto.
Qed.

Lemma Emits_for_fold {A S} P (body : A -> S -> M S) (l : list A) :
  (forall x s, Emits P (body x s)) -> forall s, Emits P (for_fold body l s).
Proof.
  intros Hb. induction l as [| x l IH]; intros s; simpl.
  - apply Emits_ret.
  - apply Emits_bind; auto.
Qed.

Lemma Emits_GetValueDataAsObject P (regf_value : RegfValue) :
  Emits P (_GetValueDataAsObject regf_value).
Proof.
  eapply Emits_of_Runs; [apply GetValueDataAsObject_runs | constructor].
Qed.

(** [emits]: the rules above, through the binds, matches and tests of a
    computation. *)
Ltac emits :=
  repeat first
    [ apply Emits_ret | apply Emits_raise | apply Emits_lift_res
    | apply Emits_call | apply Emits_GetValueDataAsObject
    | apply Emits_event; reflexivity
    | apply Emits_bind; [| intros ? ]
    | match goal with
      | |- Emits _ (match ?x with _ => _ end) => destruct x
      end ].

(** ** The entry decoders hand over entries of their own kind only *)

Lemma Emits_set_file_reference_from_name P name event_data :
  Emits P (set_file_reference_from_name name event_data).
Proof. unfold set_file_reference_from_name. emits. Qed.

Lemma Emits_map_file_reference_values P key event_data :
  Emits P (map_file_reference_values key event_data).
Proof.
  unfold map_file_reference_values. apply Emits_for_fold.
  intros item d. unfold file_value_step. emits.
Qed.

Lemma Emits_ParseFileReferenceKey (file_reference_key : RegfKey) :
  Emits (fun e => is_file_entry e = true)
    (_ParseFileReferenceKey file_reference_key).
Proof.
  unfold _ParseFileReferenceKey.
  apply Emits_bind; [apply Emits_set_file_reference_from_name | intros d0].
  apply Emits_bind; [apply Emits_map_file_reference_values | intros d].
  emits.
Qed.

Lemma Emits_ParseFileKey (file_key : RegfKey) :
  Emits (fun e => is_file_entry e = true) (_ParseFileKey file_key).
Proof.
  unfold _ParseFileKey. apply Emits_for_each. intros volume_key.
  apply Emits_for_each. intros k. apply Emits_ParseFileReferenceKey.
Qed.

Lemma Emits_map_program_values P key event_data :
  Emits P (map_program_values key event_data).
Proof.
  unfold map_program_values. apply Emits_for_fold.
  intros item d. unfold program_value_step. emits.
Qed.

Lemma Emits_ParseProgramKey (program_key : RegfKey) :
  Emits (fun e => is_program_entry e = true) (_ParseProgramKey program_key).
Proof.
  unfold _ParseProgramKey.
  apply Emits_bind; [apply Emits_map_program_values | intros d].
  emits.
Qed.

Lemma Emits_ParseProgramsKey (programs_key : RegfKey) :
  Emits (fun e => is_program_entry e = true) (_ParseProgramsKey programs_key).
Proof.
  unfold _ParseProgramsKey. apply Emits_for_each. intros k.
  apply Emits_ParseProgramKey.
Qed.

Lemma Emits_specialized (sub_key : RegfKey) :
  Emits (fun e => is_key_visit e = false) (specialized sub_key).
Proof.
  unfold specialized.
  destruct (key_name sub_key =? "File").
  - destruct (Emits_ParseFileKey sub_key) as (es & ws & r & H & HP).
    exists es, ws, r. split; [exact H |].
    eapply Forall_impl; [| exact HP].
    intros [ev [d | d | d]] Hk; cbv in Hk |- *; congruence.
  - destruct (key_name sub_key =? "Programs").
    + destruct (Emits_ParseProgramsKey sub_key) as (es & ws & r & H & HP).
      exists es, ws, r. split; [exact H |].
      eapply Forall_impl; [| exact HP].
      intros [ev [d | d | d]] Hk; cbv in Hk |- *; congruence.
    + apply Emits_ret.
Qed.

(** ** The tree walker *)

(** Induction on a key tree: a property holds of a key when it holds of
    its sub keys. *)
Lemma RegfKey_ind' (P : RegfKey -> Prop) :
  (forall name time values subs,
      Forall P subs -> P (mkKey name time values subs)) ->
  forall regf_key, P regf_key.
Proof.
  intros H. fix IH 1. intros [name time values subs]. apply H.
  induction subs as [| sub subs IHsubs]; constructor.
  - apply IH.
  - exact IHsubs.
Qed.

Lemma ParseSubKey_eq (regf_key : RegfKey) (key_path_segments : list string) :
  _ParseSubKey regf_key key_path_segments
  = (_ProduceDefaultWindowsRegistryEvent regf_key
       (join "\" key_path_segments) None ;;;
     for_fold
       (fun sub_key key_path_segments =>
          key_path_segments <-
            _ParseSubKey sub_key
              (key_path_segments ++ [key_name sub_key])%list ;;
          ret (removelast key_path_segments))
       (sub_keys regf_key) key_path_segments).
Proof. destruct regf_key; reflexivity. Qed.

Lemma visit_events_app l1 l2 :
  visit_events (l1 ++ l2) = (visit_events l1 ++ visit_events l2)%list.
Proof. apply map_app. Qed.

Lemma visit_warnings_app l1 l2 :
  visit_warnings (l1 ++ l2) = (visit_warnings l1 ++ visit_warnings l2)%list.
Proof. apply flat_map_app. Qed.

(** *** Steps in order *)

Lemma returning_tt (r : res unit) : returning tt r = r.
Proof. destruct r as [[] | e]; reflexivity. Qed.

Lemma then_trace_nil_l (t : Trace) : then_trace (mkTrace [] [] (Ok tt)) t = t.
Proof. destruct t; reflexivity. Qed.

Lemma then_trace_assoc (t1 t2 t3 : Trace) :
  then_trace (then_trace t1 t2) t3 = then_trace t1 (then_trace t2 t3).
Proof.
  destruct t1 as [e1 w1 [u1 | x1]], t2 as [e2 w2 [u2 | x2]];
    unfold then_trace; simpl; try reflexivity.
  now rewrite !app_assoc.
Qed.

Lemma in_order_app (l1 l2 : list Trace) :
  in_order (l1 ++ l2) = then_trace (in_order l1) (in_order l2).
Proof.
  induction l1 as [| t l1 IH]; simpl.
  - now rewrite then_trace_nil_l.
  - now rewrite IH, then_trace_assoc.
Qed.

Lemma run_steps_app (l1 l2 : list Step) :
  run_steps (l1 ++ l2) = then_trace (run_steps l1) (run_steps l2).
Proof. unfold run_steps. now rewrite map_app, in_order_app. Qed.

Lemma run_steps_cons (step : Step) (steps : list Step) :
  run_steps (step :: steps) = then_trace (step_trace step) (run_steps steps).
Proof. reflexivity. Qed.

(** One computation after another runs as [then_trace] says. *)
Lemma Runs_then {A B} (c : M A) (k : A -> M B) (a : A) (b : B)
    (t1 t2 : Trace) :
  Runs c (trace_events t1) (trace_warnings t1)
    (returning a (trace_outcome t1)) ->
  Runs (k a) (trace_events t2) (trace_warnings t2)
    (returning b (trace_outcome t2)) ->
  Runs (bind c k) (trace_events (then_trace t1 t2))
    (trace_warnings (then_trace t1 t2))
    (returning b (trace_outcome (then_trace t1 t2))).
Proof.
  destruct t1 as [e1 w1 [u1 | x1]]; unfold then_trace; simpl; intros Hc Hk.
  - eapply Runs_bind_ok; eauto.
  - apply Runs_bind_raise. exact Hc.
Qed.

Lemma Runs_trace_of (c : M unit) :
  Appends c ->
  Runs c (trace_events (trace_of c)) (trace_warnings (trace_of c))
    (returning tt (trace_outcome (trace_of c))).
Proof. intros H. rewrite returning_tt. exact H. Qed.

(** The walk of a subtree: the visits of its keys in pre-order, up to the
    first that raises; when the walk returns, the path-segment stack is as
    the walk found it. *)
Lemma ParseSubKey_runs (regf_key : RegfKey) :
  forall key_path_segments,
    Runs (_ParseSubKey regf_key key_path_segments)
      (trace_events (run_steps (subtree_steps key_path_segments regf_key)))
      (trace_warnings (run_steps (subtree_steps key_path_segments regf_key)))
      (returning key_path_segments
         (trace_outcome
            (run_steps (subtree_steps key_path_segments regf_key)))).
Proof.
  induction regf_key as [name time values subs IH] using RegfKey_ind'.
  intros segs. rewrite ParseSubKey_eq.
  unfold subtree_steps. cbn [preorder map sub_keys key_name].
  rewrite run_steps_cons.
  apply Runs_then with (a := tt).
  - rewrite returning_tt.
    apply (ProduceDefaultWindowsRegistryEvent_runs
             (mkKey name time values subs) (join "\" segs) None).
  - induction IH as [| sub subs Hsub _ IHsubs].
    + apply Runs_ret.
    + cbn [flat_map]. rewrite map_app, run_steps_app.
      cbn [for_fold].
      apply Runs_then with (a := segs); [| exact IHsubs].
      specialize (Hsub (segs ++ [key_name sub])%list).
      unfold subtree_steps in Hsub.
      destruct (run_steps
                  (map visit_step
                     (preorder (segs ++ [key_name sub])%list sub)))
        as [es ws [u | e]]; simpl in *.
      * run_bind Hsub. rewrite removelast_last. apply Runs_ret.
      * apply Runs_bind_raise. exact Hsub.
Qed.

Lemma ParseRootKey_loop_runs (subs : list RegfKey) :
  Runs
    (for_fold
       (fun sub_key key_path_segments =>
          key_path_segments <-
            _ParseSubKey sub_key
              (key_path_segments ++ [key_name sub_key])%list ;;
          (if key_name sub_key =? "File" then _ParseFileKey sub_key
           else if key_name sub_key =? "Programs"
                then _ParseProgramsKey sub_key
                else ret tt) ;;;
          ret (removelast key_path_segments))
       subs [""; "Root"])
    (trace_events
       (run_steps
          (flat_map
             (fun sub_key =>
                (subtree_steps [""; "Root"; key_name sub_key] sub_key
                 ++ [Specialized sub_key])%list) subs)))
    (trace_warnings
       (run_steps
          (flat_map
             (fun sub_key =>
                (subtree_steps [""; "Root"; key_name sub_key] sub_key
                 ++ [Specialized sub_key])%list) subs)))
    (returning [""; "Root"]
       (trace_outcome
          (run_steps
             (flat_map
                (fun sub_key =>
                   (subtree_steps [""; "Root"; key_name sub_key] sub_key
                    ++ [Specialized sub_key])%list) subs)))).
Proof.
  induction subs as [| sub subs IH].
  - apply Runs_ret.
  - cbn [flat_map for_fold]. rewrite run_steps_app.
    apply Runs_then with (a := [""; "Root"]); [| exact IH].
    rewrite run_steps_app.
    fold (specialized sub).
    pose proof (ParseSubKey_runs sub [""; "Root"; key_name sub]) as Hsub.
    eapply Runs_then with (a := [""; "Root"; key_name sub]);
      [exact Hsub |].
    pose proof (Emits_Appends _ _ (Emits_specialized sub)) as Hsp.
    unfold Appends in Hsp.
    change (run_steps [Specialized sub])
      with (then_trace (trace_of (specialized sub))
              (mkTrace [] [] (Ok tt))).
    apply Runs_then with (a := tt).
    + rewrite returning_tt. exact Hsp.
    + apply Runs_ret.
Qed.

(** The walk of a Root key: its steps in order. *)
Lemma ParseRootKey_runs (root_key : RegfKey) :
  Runs (_ParseRootKey root_key)
    (trace_events (run_steps (root_steps root_key)))
    (trace_warnings (run_steps (root_steps root_key)))
    (trace_outcome (run_steps (root_steps root_key))).
Proof.
  unfold _ParseRootKey, root_steps. rewrite run_steps_cons.
  rewrite <- (returning_tt (trace_outcome _)).
  apply Runs_then with (a := tt).
  - rewrite returning_tt.
    apply (ProduceDefaultWindowsRegistryEvent_runs root_key "\Root" None).
  - pose proof (ParseRootKey_loop_runs (sub_keys root_key)) as Hloop.
    destruct (run_steps
                (flat_map
                   (fun sub_key =>
                      (subtree_steps [""; "Root"; key_name sub_key] sub_key
                       ++ [Specialized sub_key])%list) (sub_keys root_key)))
      as [es ws [u | e]]; simpl in *.
    + run_bind Hloop. apply Runs_ret.
    + apply Runs_bind_raise. exact Hloop.
Qed.

Lemma filter_key_visit_visit_events l :
  filter is_key_visit (visit_events l) = visit_events l.
Proof.
  unfold visit_events. induction l as [| p l IH]; simpl; [reflexivity |].
  now rewrite IH.
Qed.

Lemma filter_key_visit_specialized (sub_key : RegfKey) :
  filter is_key_visit (produced (specialized sub_key)) = [].
Proof.
  pose proof (Emits_produced _ _ (Emits_specialized sub_key)) as H.
  induction H as [| e es He _ IH]; simpl; [reflexivity |].
  now rewrite He.
Qed.

(** The key-visit events of a step that returns are the ones the step is
    to hand over; a step that raises has handed over an initial part of
    them. *)
Lemma step_key_visits_spec (step : Step) :
  exists rest,
    step_key_visits step
    = (filter is_key_visit (trace_events (step_trace step)) ++ rest)%list
    /\ (is_ok (trace_outcome (step_trace step)) = true -> rest = []).
Proof.
  destruct step as [key_path regf_key | sub_key]; simpl.
  - unfold key_visit_events, key_visit_outcome.
    destruct (first_fault (kept_values None regf_key)); simpl.
    + eexists. split; [reflexivity | discriminate].
    + exists []. auto.
  - rewrite filter_key_visit_specialized. exists []. auto.
Qed.

Lemma run_steps_key_visits (steps : list Step) :
  exists rest,
    flat_map step_key_visits steps
    = (filter is_key_visit (trace_events (run_steps steps)) ++ rest)%list
    /\ (is_ok (trace_outcome (run_steps steps)) = true -> rest = []).
Proof.
  induction steps as [| step steps (rest & Heq & Hok)].
  - exists []. auto.
  - rewrite run_steps_cons. cbn [flat_map].
    destruct (step_key_visits_spec step) as (rest0 & Heq0 & Hok0).
    rewrite Heq0, Heq. unfold then_trace.
    destruct (trace_outcome (step_trace step)) as [u | e]; simpl.
    + exists rest. split; [| exact Hok].
      now rewrite (Hok0 eq_refl), filter_app, app_nil_r, <- app_assoc.
    + exists (rest0 ++ filter is_key_visit (trace_events (run_steps steps))
                ++ rest)%list.
      split; [now rewrite <- app_assoc | discriminate].
Qed.

Lemma subtree_steps_key_visits segments regf_key :
  flat_map step_key_visits (subtree_steps segments regf_key)
  = visit_events (preorder segments regf_key).
Proof.
  unfold subtree_steps, visit_events.
  induction (preorder segments regf_key) as [| p l IH]; simpl;
    [reflexivity | now rewrite IH].
Qed.

Lemma root_steps_key_visits (root_key : RegfKey) :
  flat_map step_key_visits (root_steps root_key)
  = visit_events (visited root_key).
Proof.
  unfold root_steps, visited. cbn [flat_map step_key_visits].
  change (visit_events (([""; "Root"], root_key) :: ?l))
    with (key_visit_event None "\Root" root_key :: visit_events l).
  simpl app. f_equal.
  induction (sub_keys root_key) as [| sub subs IH]; simpl; [reflexivity |].
  rewrite !flat_map_app, subtree_steps_key_visits, visit_events_app, IH.
  simpl. now rewrite app_nil_r.
Qed.

(** The key-visit events of the walk of a Root key, in the order in which
    the mediator receives them, are an initial part of the pre-order of
    the tree, and the whole of it when the walk does not raise. *)
Lemma ParseRootKey_key_visits (root_key : RegfKey) :
  initial_part (filter is_key_visit (produced (_ParseRootKey root_key)))
    (visit_events (visited root_key))
  /\ (is_ok (outcome (_ParseRootKey root_key)) = true ->
      filter is_key_visit (produced (_ParseRootKey root_key))
      = visit_events (visited root_key)).
Proof.
  destruct (Runs_produced _ _ _ _ (ParseRootKey_runs root_key))
    as (-> & _ & ->).
  destruct (run_steps_key_visits (root_steps root_key)) as (rest & Heq & Hok).
  rewrite root_steps_key_visits in Heq. rewrite Heq. split.
  - exists rest. reflexivity.
  - intros H. rewrite (Hok H), app_nil_r. reflexivity.
Qed.

(** ** The time of the key-visit event *)

(** C10: the key-visit event of a key carries the last-written time of
    the key as a FILETIME and the description "written".  Every event the
    parser hands over when it produces the default event of a key is this
    event, and it is one event when the producer returns, which it does
    exactly when the value summary of the key can be formatted.  Every
    key-visit event of a walk is the one of a key of the tree at its path,
    with this time and this description, whatever specialized events the
    walk hands over besides; and a walk that does not raise hands over the
    key-visit event of every key of the tree. *)
Theorem C10_key_visit_time :
  (forall regf_key key_path names_to_skip m,
      exists es ws r,
        _ProduceDefaultWindowsRegistryEvent regf_key key_path names_to_skip m
        = (extend m es ws, r)
        /\ (forall e, In e es ->
              exists values,
                e = (mkEvent
                       (Filetime (get_last_written_time_as_integer regf_key))
                       TIME_DESCRIPTION_WRITTEN,
                     RegistryEventData
                       (WindowsRegistryEventData.mk key_path values)))
        /\ (r = Ok tt -> List.length es = 1)
        /\ (r = Ok tt <->
            forall v, In v (key_values regf_key) ->
              skipped names_to_skip v = false -> ~ unformattable v))
  /\ (forall root_key m,
        exists es ws,
          fst (_ParseRootKey root_key m) = extend m es ws
          /\ (forall e, In e es -> is_key_visit e = true ->
                exists segments regf_key values,
                  In (segments, regf_key) (visited root_key)
                  /\ e = (mkEvent
                            (Filetime
                               (get_last_written_time_as_integer regf_key))
                            TIME_DESCRIPTION_WRITTEN,
                          RegistryEventData
                            (WindowsRegistryEventData.mk
                               (join "\" segments) values)))
          /\ (is_ok (snd (_ParseRootKey root_key m)) = true ->
              forall segments regf_key,
                In (segments, regf_key) (visited root_key) ->
                In (key_visit_event None (join "\" segments) regf_key) es)).
Proof.
  split.
  - intros regf_key key_path names_to_skip m.
    exists (key_visit_events names_to_skip key_path regf_key),
      (key_warnings names_to_skip regf_key),
      (key_visit_outcome names_to_skip regf_key).
    split; [apply (ProduceDefaultWindowsRegistryEvent_runs regf_key key_path
                     names_to_skip m) |].
    rewrite <- kept_fault_none.
    unfold key_visit_events, key_visit_outcome.
    destruct (first_fault (kept_values names_to_skip regf_key)) as [e |].
    + split; [intros ? [] |]. split; [discriminate |].
      split; discriminate.
    + split; [| split; [reflexivity | tauto]].
      intros e [<- | []].
      exists (values_text (values_dict_of names_to_skip regf_key)).
      reflexivity.
  - intros root_key m.
    pose proof (Runs_Appends _ _ _ _ (ParseRootKey_runs root_key)) as Happ.
    exists (produced (_ParseRootKey root_key)),
      (warned (_ParseRootKey root_key)).
    rewrite (Happ m). simpl.
    destruct (ParseRootKey_key_visits root_key) as ((rest & Hpre) & Hall).
    split; [reflexivity | split].
    + intros e He Hk.
      assert (Hin : In e (visit_events (visited root_key))).
      { rewrite Hpre. apply in_or_app. left.
        apply filter_In. auto. }
      unfold visit_events in Hin. apply in_map_iff in Hin.
      destruct Hin as ([segments regf_key] & <- & Hin).
      exists segments, regf_key,
        (values_text (values_dict_of None regf_key)).
      split; [exact Hin | reflexivity].
    + intros Hok segments regf_key Hin.
      specialize (Hall Hok).
      assert (Hin' : In (key_visit_event None (join "\" segments) regf_key)
                       (visit_events (visited root_key))).
      { unfold visit_events. apply in_map_iff.
        exists (segments, regf_key). auto. }
      rewrite <- Hall in Hin'. apply filter_In in Hin'. tauto.
Qed.

(** ** Computations whose result has a property *)

Lemma Yields_of_Runs {A} P (Q : A -> Prop) (c : M A) es ws r :
  Runs c es ws r -> Forall P es -> (forall a, r = Ok a -> Q a) ->
  Yields P Q c.
Proof. intros H HP HQ. exists es, ws, r. auto. Qed.

Lemma Yields_ret {A} P (Q : A -> Prop) (a : A) : Q a -> Yields P Q (ret a).
Proof.
  intros HQ. eapply Yields_of_Runs; [apply Runs_ret | constructor |].
  intros a' [= <-]. exact HQ.
Qed.

Lemma Yields_raise {A} P (Q : A -> Prop) (e : Exc) : Yields P Q (raise e).
Proof.
  eapply Yields_of_Runs; [apply Runs_raise | constructor | discriminate].
Qed.

Lemma Yields_bind {A B} P (Q : A -> Prop) (Q' : B -> Prop)
    (c : M A) (k : A -> M B) :
  Yields P Q c -> (forall a, Q a -> Yields P Q' (k a)) ->
  Yields P Q' (bind c k).
Proof.
  intros (es & ws & [a | e] & Hc & HP & HQ) Hk.
  - destruct (Hk a (HQ a eq_refl)) as (es' & ws' & r' & Hk' & HP' & HQ').
    exists (es ++ es')%list, (ws ++ ws')%list, r'. split; [| split].
    + eapply Runs_bind_ok; eauto.
    + apply Forall_app; auto.
    + exact HQ'.
  - exists es, ws, (Raise e). split; [| split].
    + apply Runs_bind_raise; exact Hc.
    + exact HP.
    + discriminate.
Qed.

Lemma Yields_weaken {A} (P P' : _ -> Prop) (Q Q' : A -> Prop) (c : M A) :
  Yields P Q c -> (forall e, P e -> P' e) -> (forall a, Q a -> Q' a) ->
  Yields P' Q' c.
Proof.
  intros (es & ws & r & H & HP & HQ) HP' HQ'.
  exists es, ws, r. split; [exact H | split].
  - eapply Forall_impl; eauto.
  - intros a Ha. auto.
Qed.

Lemma Yields_of_Emits {A} P (c : M A) : Emits P c -> Yields P (fun _ => True) c.
Proof.
  intros (es & ws & r & H & HP). exists es, ws, r. auto.
Qed.

Lemma Emits_of_Yields {A} P (Q : A -> Prop) (c : M A) :
  Yields P Q c -> Emits P c.
Proof.
  intros (es & ws & r & H & HP & _). exists es, ws, r. auto.
Qed.

Lemma Yields_for_fold {A S} P (Inv : S -> Prop) (body : A -> S -> M S)
    (l : list A) :
  (forall x s, In x l -> Inv s -> Yields P Inv (body x s)) ->
  forall s, Inv s -> Yields P Inv (for_fold body l s).
Proof.
  induction l as [| x l IH]; intros Hb s Hs; simpl.
  - apply Yields_ret; exact Hs.
  - eapply Yields_bind.
    + apply Hb; [left; reflexivity | exact Hs].
    + intros s' Hs'. apply IH; [| exact Hs'].
      intros y t Hy. apply Hb. right; exact Hy.
Qed.

Lemma for_fold_app {A S} (body : A -> S -> M S) (l1 l2 : list A) (s : S) m :
  for_fold body (l1 ++ l2) s m
  = (s' <- for_fold body l1 s ;; for_fold body l2 s') m.
Proof.
  revert s m. induction l1 as [| x l1 IH]; intros s m; simpl.
  - reflexivity.
  - unfold bind.
    destruct (body x s m) as [m' [s' | e]]; [| reflexivity].
    rewrite IH. reflexivity.
Qed.

(** ** The file reference *)

Lemma int16_magnitude_raise (s : string) (e : Exc) :
  int16_magnitude s = Raise e -> e = invalid_literal.
Proof.
  unfold int16_magnitude.
  match goal with |- context [match ?b with EmptyString => _ | _ => _ end] =>
    generalize b end.
  intros body. destruct body as [| c body']; [congruence |].
  destruct (hex_digit c) as [d |]; [| congruence].
  destruct (scan_digits 0 false (String c body')) as [[z rest] |];
    [| congruence].
  destruct (all_space rest); congruence.
Qed.

Lemma int16_raise (s : string) (e : Exc) :
  int16 s = Raise e -> e = invalid_literal.
Proof.
  unfold int16. destruct (lstrip s) as [| c s'].
  - apply int16_magnitude_raise.
  - destruct c as [[] [] [] [] [] [] [] []];
      try apply int16_magnitude_raise;
      destruct (int16_magnitude s') eqn:E; try congruence;
      intros [= <-]; eapply int16_magnitude_raise; eassumption.
Qed.

(** The [try] of [_ParseFileReferenceKey] raises [ValueError] only, which
    its [except] clause catches. *)
Lemma file_reference_try_raise (name : string) (e : Exc) :
  file_reference_try name = Raise e -> exc_kind e = ValueError.
Proof.
  unfold file_reference_try.
  destruct (contains "0000" name).
  - destruct (split "0000" name) as [| a [| b [| c l]]];
      try (intros [= <-]; reflexivity).
    destruct (int16 b) eqn:Eb.
    + destruct (int16 a) eqn:Ea; [discriminate |].
      intros [= <-]. now rewrite (int16_raise _ _ Ea).
    + intros [= <-]. now rewrite (int16_raise _ _ Eb).
  - destruct (int16 name) eqn:E; [discriminate |].
    intros [= <-]. now rewrite (int16_raise _ _ E).
Qed.

Lemma set_file_reference_from_name_runs (name : string) :
  Runs (set_file_reference_from_name name AMCacheFileEventData.init) [] []
    (Ok (AMCacheFileEventData.set_file_reference AMCacheFileEventData.init
           (file_reference_of name))).
Proof.
  unfold set_file_reference_from_name, file_reference_of.
  destruct (file_reference_try name) as [s | e] eqn:E.
  - apply Runs_ret.
  - rewrite (file_reference_try_raise _ _ E). apply Runs_ret.
Qed.

Lemma setattr_keeps_file_reference d attribute_name v :
  attribute_name <> "file_reference" ->
  AMCacheFileEventData.file_reference
    (AMCacheFileEventData.setattr d attribute_name v)
  = AMCacheFileEventData.file_reference d.
Proof.
  intros Hne. unfold AMCacheFileEventData.setattr.
  repeat match goal with
    | |- context [if ?a =? ?b then _ else _] =>
        destruct (a =? b) eqn:?; [try reflexivity |]
    end; try reflexivity.
  exfalso. apply Hne. now apply String.eqb_eq.
Qed.

Lemma file_table_attribute_not_reference item :
  In item _FILE_REFERENCE_KEY_VALUES -> snd item <> "file_reference".
Proof.
  intros Hin Heq.
  pose proof file_attributes_known as H.
  rewrite forallb_forall in H. specialize (H item Hin).
  rewrite Heq in H. discriminate H.
Qed.

(** The loop over the mapping table leaves [file_reference] as it is. *)
Lemma map_file_reference_values_keeps_reference P key d :
  Yields P
    (fun d' => AMCacheFileEventData.file_reference d'
               = AMCacheFileEventData.file_reference d)
    (map_file_reference_values key d).
Proof.
  unfold map_file_reference_values.
  apply Yields_for_fold; [| reflexivity].
  intros item d' Hin Hd'. unfold file_value_step.
  destruct (get_value_by_name key (fst item)) as [value |];
    [| apply Yields_ret; exact Hd'].
  eapply Yields_bind;
    [apply Yields_of_Emits, Emits_GetValueDataAsObject | intros v _].
  eapply Yields_bind with (Q := fun _ => True).
  - apply Yields_of_Emits. emits.
  - intros v' _. apply Yields_ret.
    rewrite setattr_keeps_file_reference; [exact Hd' |].
    apply file_table_attribute_not_reference; exact Hin.
Qed.

(** Every event of the file entry decoder carries a record with one and
    the same [file_reference], the one computed from the name of the
    key. *)
Lemma ParseFileReferenceKey_reference (file_reference_key : RegfKey) :
  Emits
    (fun e => exists d, snd e = FileEventData d
                        /\ AMCacheFileEventData.file_reference d
                           = file_reference_of (key_name file_reference_key))
    (_ParseFileReferenceKey file_reference_key).
Proof.
  unfold _ParseFileReferenceKey.
  eapply Emits_of_Yields with (Q := fun _ => True).
  eapply Yields_bind with
    (Q := fun d0 => AMCacheFileEventData.file_reference d0
                    = file_reference_of (key_name file_reference_key)).
  - eapply Yields_of_Runs;
      [apply set_file_reference_from_name_runs | constructor |].
    intros a [= <-]. reflexivity.
  - intros d0 Hd0.
    eapply Yields_bind;
      [apply (map_file_reference_values_keeps_reference _
                file_reference_key d0) |].
    cbv beta. intros d Hd. rewrite Hd0 in Hd.
    apply Yields_of_Emits.
    repeat first
      [ apply Emits_ret | apply Emits_call
      | apply Emits_event; exists d; split; [reflexivity | exact Hd]
      | apply Emits_bind; [| intros ? ]
      | match goal with
        | |- Emits _ (match ?x with _ => _ end) => destruct x
        end ].
Qed.

Lemma append_empty_r (s : string) : s ++ "" = s.
Proof. induction s as [| c s IH]; simpl; [reflexivity | now rewrite IH]. Qed.

Lemma append_single_assoc (s : string) (c : ascii) (t : string) :
  (s ++ String c "") ++ t = s ++ String c t.
Proof. induction s as [| c' s IH]; simpl; [reflexivity | now rewrite IH]. Qed.

Lemma split_from_cons sep skip cur c s :
  split_from sep skip cur (String c s)
  = match skip with
    | S k => split_from sep k cur s
    | O =>
        if String.prefix sep (String c s)
        then cur :: split_from sep (String.length sep - 1) "" s
        else split_from sep 0 (cur ++ String c "") s
    end.
Proof. reflexivity. Qed.

Lemma split_first_from_eq sep cur s :
  split_first_from sep cur s
  = if String.prefix sep s then Some (cur, drop (String.length sep) s)
    else match s with
         | EmptyString => None
         | String c s' => split_first_from sep (cur ++ String c "") s'
         end.
Proof. destruct s; reflexivity. Qed.

Lemma split_from_not_nil sep s : forall skip cur,
  split_from sep skip cur s <> [].
Proof.
  induction s as [| c s IH]; intros skip cur.
  - discriminate.
  - rewrite split_from_cons. destruct skip; [| apply IH].
    destruct (String.prefix sep (String c s)); [discriminate | apply IH].
Qed.

(** A split in one part: the separator does not occur. *)
Lemma split_from_single sep s : forall cur b,
  split_from sep 0 cur s = [b] -> b = cur ++ s.
Proof.
  induction s as [| c s IH]; intros cur b.
  - intros [= <-]. now rewrite append_empty_r.
  - rewrite split_from_cons.
    destruct (String.prefix sep (String c s)).
    + intros [= _ H]. now apply split_from_not_nil in H.
    + intros H. apply IH in H. now rewrite append_single_assoc in H.
Qed.

Lemma split_from_skip_single sep : forall skip s b,
  split_from sep skip "" s = [b] -> b = drop skip s.
Proof.
  induction skip as [| k IH]; intros s b H.
  - apply split_from_single in H. destruct s; exact H.
  - destruct s as [| c s].
    + now injection H as <-.
    + rewrite split_from_cons in H. apply IH in H. exact H.
Qed.

(** A split in exactly two parts is the split on the first occurrence of
    the separator. *)
Lemma split_two_first sep n s :
  String.length sep = S n ->
  forall cur a b,
    split_from sep 0 cur s = [a; b] ->
    split_first_from sep cur s = Some (a, b).
Proof.
  intros Hlen. induction s as [| c s IH]; intros cur a b.
  - discriminate.
  - rewrite split_from_cons, split_first_from_eq.
    destruct (String.prefix sep (String c s)).
    + rewrite Hlen. simpl. rewrite Nat.sub_0_r.
      intros [= <- H]. apply split_from_skip_single in H. now subst b.
    + apply IH.
Qed.

(** C2 (the parser breaks the claim): the name "1000000000009" contains
    "0000"; split on the first occurrence it gives the sequence part "1"
    and the entry part "00000009", which parse as 1 and 9, so that the
    claim asks for the reference "9-1", the example the docstring of the
    event data gives.  [split] finds "0000" twice and returns three parts,
    the unpacking in two names raises [ValueError], and the record of the
    key goes to the mediator with its reference unset. *)
Theorem C2_reference_lost :
  contains "0000" (key_name low_entry_key) = true
  /\ split_first "0000" (key_name low_entry_key) = Some ("1", "00000009")
  /\ int16 "1" = Ok 1%Z
  /\ int16 "00000009" = Ok 9%Z
  /\ file_reference_spec (key_name low_entry_key) = Some "9-1"
  /\ split "0000" (key_name low_entry_key) = ["1"; ""; "0009"]
  /\ file_reference_try (key_name low_entry_key)
     = Raise (mkExc ValueError "too many values to unpack (expected 2)")
  /\ _ParseFileReferenceKey low_entry_key empty_mediator
     = (mkMediator
          [(mkEvent (Filetime 700) TIME_DESCRIPTION_MODIFICATION,
            FileEventData AMCacheFileEventData.init)] [],
        Ok tt)
  /\ AMCacheFileEventData.file_reference AMCacheFileEventData.init = PyNone.
Proof. repeat split; reflexivity. Qed.

(** X8: the file reference of a file-reference key is computed from the
    name of the key alone, without a warning or an event, and every event of
    the key carries it.  If the name contains "0000" and its split on that
    substring has exactly two parts, which then are the parts before and
    after the first occurrence, the sequence part and the entry part are
    both parsed with [int(., 16)] and the reference is the text
    "{entry}-{sequence}" in decimal; if the name does not contain "0000",
    the whole name is parsed and the reference is its value in decimal; if
    a part does not parse, or the split has more than two parts, the
    reference is left unset. *)
Lemma file_reference_cases (file_reference_key : RegfKey) :
  let name := key_name file_reference_key in
  exists reference : PyVal,
    Runs (set_file_reference_from_name name AMCacheFileEventData.init) [] []
      (Ok (AMCacheFileEventData.set_file_reference AMCacheFileEventData.init
             reference))
    /\ (forall e,
          In e (produced (_ParseFileReferenceKey file_reference_key)) ->
          exists d, snd e = FileEventData d
                    /\ AMCacheFileEventData.file_reference d = reference)
    /\ (contains "0000" name = true ->
          (forall sequence_hex entry_hex,
              split "0000" name = [sequence_hex; entry_hex] ->
              split_first "0000" name = Some (sequence_hex, entry_hex)
              /\ (forall sequence entry,
                    int16 sequence_hex = Ok sequence ->
                    int16 entry_hex = Ok entry ->
                    reference
                    = PyStr (format_d entry ++ "-" ++ format_d sequence))
              /\ (is_ok (int16 sequence_hex) && is_ok (int16 entry_hex)
                  = false ->
                  reference = PyNone))
          /\ (List.length (split "0000" name) <> 2 -> reference = PyNone))
    /\ (contains "0000" name = false ->
          (forall z, int16 name = Ok z -> reference = PyStr (format_d z))
          /\ (is_ok (int16 name) = false -> reference = PyNone)).
Proof.
  intros name. exists (file_reference_of name).
  split; [apply set_file_reference_from_name_runs |].
  split.
  { intros e He.
    pose proof (Emits_produced _ _
                  (ParseFileReferenceKey_reference file_reference_key)) as H.
    rewrite Forall_forall in H. exact (H e He). }
  unfold file_reference_of, file_reference_try. split.
  - intros Hc. rewrite Hc. split.
    + intros sequence_hex entry_hex Hs. rewrite Hs. split; [| split].
      * unfold split_first. eapply split_two_first; [reflexivity | exact Hs].
      * intros sequence entry Hseq Hent. now rewrite Hent, Hseq.
      * destruct (int16 entry_hex); [| reflexivity].
        destruct (int16 sequence_hex); [discriminate | reflexivity].
    + destruct (split "0000" name) as [| a [| b [| c l]]]; simpl;
        try reflexivity.
      intros H. now contradiction H.
  - intros Hc. rewrite Hc. split.
    + intros z Hz. now rewrite Hz.
    + destruct (int16 name); [discriminate | reflexivity].
Qed.

(** ** The SHA-1 of a file entry *)

Lemma Runs_for_fold_app {A S} (body : A -> S -> M S) l1 l2 s
    es1 ws1 s1 es2 ws2 r :
  Runs (for_fold body l1 s) es1 ws1 (Ok s1) ->
  Runs (for_fold body l2 s1) es2 ws2 r ->
  Runs (for_fold body (l1 ++ l2) s) (es1 ++ es2)%list (ws1 ++ ws2)%list r.
Proof.
  intros H1 H2 m. rewrite for_fold_app.
  exact (Runs_bind_ok _ _ _ _ _ _ _ _ H1 H2 m).
Qed.

(** A turn of the loop for an attribute other than [sha1] never raises. *)
Lemma file_value_step_other key item d :
  (snd item =? "sha1") = false ->
  exists ws d', Runs (file_value_step key item d) [] ws (Ok d').
Proof.
  intros Hne. unfold file_value_step. rewrite Hne.
  destruct (get_value_by_name key (fst item)) as [value |] eqn:Hget.
  - eexists _, _.
    run_bind (found_value_runs _ _ _ Hget).
    run_bind (Runs_ret (decoded value)). apply Runs_ret.
  - eexists _, _. apply Runs_ret.
Qed.

Lemma file_value_steps_other key (l : list (string * string)) :
  forallb (fun item => negb (snd item =? "sha1")) l = true ->
  forall d, exists ws d', Runs (for_fold (file_value_step key) l d) [] ws (Ok d').
Proof.
  induction l as [| item l IH]; simpl; intros Hl d.
  - eexists _, _. apply Runs_ret.
  - apply andb_prop in Hl. destruct Hl as [Hitem Hl].
    apply negb_true_iff in Hitem.
    destruct (file_value_step_other key item d Hitem) as (ws & d' & H).
    destruct (IH Hl d') as (ws' & d'' & H').
    exists (ws ++ ws')%list, d''. run_bind H. exact H'.
Qed.

Lemma decoded_text (value : RegfValue) (s : string) :
  In (value_type value) [REG_SZ; REG_EXPAND_SZ; REG_LINK] ->
  get_data_as_string value = Read s ->
  decoded value = PyStr s.
Proof.
  intros Ht Hs. pose proof (decoded_shape value) as H.
  destruct Ht as [Ht | [Ht | [Ht | []]]]; rewrite <- Ht in H;
    rewrite H, Hs; reflexivity.
Qed.

(** The turn of the loop for [sha1], on a value that decodes to text. *)
Lemma file_value_step_sha1 key value s d :
  get_value_by_name key "101" = Some value ->
  decoded value = PyStr s ->
  Runs (file_value_step key ("101", "sha1") d) [] (decode_warnings value)
    (Ok (AMCacheFileEventData.setattr d "sha1"
           (PyStr (if startswith s "0000" then drop 4 s else s)))).
Proof.
  intros Hget Hdec. unfold file_value_step. simpl fst. simpl snd.
  rewrite Hget.
  run_bind (found_value_runs _ _ _ Hget).
  rewrite Hdec. simpl.
  destruct (startswith s "0000").
  - eapply Runs_bind_ok_eq with (es1 := []) (ws1 := []);
      [| apply Runs_ret | reflexivity | reflexivity].
    run_bind (Runs_ret true). apply Runs_ret.
  - eapply Runs_bind_ok_eq with (es1 := []) (ws1 := []);
      [| apply Runs_ret | reflexivity | reflexivity].
    run_bind (Runs_ret false). apply Runs_ret.
Qed.

Lemma map_file_reference_values_sha1 key value s d0 :
  get_value_by_name key "101" = Some value ->
  decoded value = PyStr s ->
  exists ws d,
    Runs (map_file_reference_values key d0) [] ws (Ok d)
    /\ AMCacheFileEventData.sha1 d
       = PyStr (if startswith s "0000" then drop 4 s else s).
Proof.
  intros Hget Hdec. unfold map_file_reference_values.
  change _FILE_REFERENCE_KEY_VALUES with
    (removelast _FILE_REFERENCE_KEY_VALUES ++ [("101", "sha1")])%list.
  destruct (file_value_steps_other key
              (removelast _FILE_REFERENCE_KEY_VALUES) eq_refl d0)
    as (ws & d8 & H8).
  eexists _, _. split.
  - change (@nil (DateTimeValuesEvent * EventData)) with
      (@nil (DateTimeValuesEvent * EventData) ++ [])%list.
    eapply Runs_for_fold_app; [exact H8 |].
    simpl for_fold.
    run_bind (file_value_step_sha1 key value s d8 Hget Hdec).
    apply Runs_ret.
  - reflexivity.
Qed.

Lemma startswith_zeros_drop (t : string) :
  startswith ("0000" ++ t) "0000" = true /\ drop 4 ("0000" ++ t) = t.
Proof.
  split; [| reflexivity].
  unfold startswith. simpl. destruct t; reflexivity.
Qed.

(** C3: when the value "101" of a file-reference key is present and
    decodes to a text, the [sha1] attribute of the record is that text
    without its first four characters if the text begins with "0000", and
    the text unchanged if it does not; every event of the key carries the
    record with this [sha1]. *)
Theorem C3_sha1_normalization (file_reference_key : RegfKey)
    (value : RegfValue) (s : string) :
  get_value_by_name file_reference_key "101" = Some value ->
  In (value_type value) [REG_SZ; REG_EXPAND_SZ; REG_LINK] ->
  get_data_as_string value = Read s ->
  let stored := if startswith s "0000" then drop 4 s else s in
  (forall d0, exists ws d,
      Runs (map_file_reference_values file_reference_key d0) [] ws (Ok d)
      /\ AMCacheFileEventData.sha1 d = PyStr stored)
  /\ (forall e,
        In e (produced (_ParseFileReferenceKey file_reference_key)) ->
        exists d, snd e = FileEventData d
                  /\ AMCacheFileEventData.sha1 d = PyStr stored)
  /\ (forall t, s = "0000" ++ t -> stored = t)
  /\ (startswith s "0000" = false -> stored = s).
Proof.
  intros Hget Htype Hread stored.
  pose proof (decoded_text value s Htype Hread) as Hdec.
  split; [| split; [| split]].
  - intros d0.
    exact (map_file_reference_values_sha1 file_reference_key value s d0
             Hget Hdec).
  - assert (HE : Emits
        (fun e => exists d, snd e = FileEventData d
                            /\ AMCacheFileEventData.sha1 d = PyStr stored)
        (_ParseFileReferenceKey file_reference_key)).
    { unfold _ParseFileReferenceKey.
      apply Emits_bind;
        [apply Emits_set_file_reference_from_name | intros d0].
      eapply Emits_of_Yields with (Q := fun _ => True).
      eapply Yields_bind with
        (Q := fun d => AMCacheFileEventData.sha1 d = PyStr stored).
      - destruct (map_file_reference_values_sha1 file_reference_key value s
                    d0 Hget Hdec) as (ws & d & Hrun & Hsha).
        eapply Yields_of_Runs; [exact Hrun | constructor |].
        intros a [= <-]. exact Hsha.
      - intros d Hd. apply Yields_of_Emits.
        repeat first
          [ apply Emits_ret | apply Emits_call
          | apply Emits_event; exists d; split; [reflexivity | exact Hd]
          | apply Emits_bind; [| intros ? ]
          | match goal with
            | |- Emits _ (match ?x with _ => _ end) => destruct x
            end ]. }
    intros e He. pose proof (Emits_produced _ _ HE) as H.
    rewrite Forall_forall in H. exact (H e He).
  - intros t ->. subst stored.
    destruct (startswith_zeros_drop t) as [-> ->]. reflexivity.
  - intros H. subst stored. now rewrite H.
Qed.

Lemma C3_sha1_normalization_witness :
  get_value_by_name padded_sha1_key "101" = Some padded_sha1_value
  /\ In (value_type padded_sha1_value) [REG_SZ; REG_EXPAND_SZ; REG_LINK]
  /\ get_data_as_string padded_sha1_value
     = Read "0000da39a3ee5e6b4b0d3255bfef95601890afd80709"
  /\ exists ws d,
       Runs (map_file_reference_values padded_sha1_key
               AMCacheFileEventData.init) [] ws (Ok d)
       /\ AMCacheFileEventData.sha1 d
          = PyStr "da39a3ee5e6b4b0d3255bfef95601890afd80709".
Proof.
  split; [reflexivity |].
  split; [left; reflexivity |].
  split; [reflexivity |].
  exact (proj1
    (C3_sha1_normalization padded_sha1_key padded_sha1_value
       "0000da39a3ee5e6b4b0d3255bfef95601890afd80709"
       eq_refl (or_introl eq_refl) eq_refl) AMCacheFileEventData.init).
Defined.

(** ** The order of strings and of items *)

Lemma ascii_compare_refl (a : ascii) : Ascii.compare a a = Eq.
Proof. unfold Ascii.compare. apply N.compare_refl. Qed.

Lemma ascii_compare_trans (a b c : ascii) :
  Ascii.compare a b = Lt -> Ascii.compare b c = Lt -> Ascii.compare a c = Lt.
Proof.
  unfold Ascii.compare. rewrite !N.compare_lt_iff. apply N.lt_trans.
Qed.

Lemma string_compare_refl (s : string) : String.compare s s = Eq.
Proof.
  induction s as [| c s IH]; simpl; [reflexivity |].
  now rewrite ascii_compare_refl.
Qed.

Lemma string_compare_trans (a : string) : forall b c,
  String.compare a b = Lt -> String.compare b c = Lt ->
  String.compare a c = Lt.
Proof.
  induction a as [| x a IH]; intros [| y b] [| z c]; simpl;
    try congruence.
  destruct (Ascii.compare x y) eqn:Hxy; try discriminate;
    destruct (Ascii.compare y z) eqn:Hyz; try discriminate; intros H1 H2.
  - apply Ascii.compare_eq_iff in Hxy, Hyz. subst.
    rewrite ascii_compare_refl. eapply IH; eauto.
  - apply Ascii.compare_eq_iff in Hxy. subst. now rewrite Hyz.
  - apply Ascii.compare_eq_iff in Hyz. subst. now rewrite Hxy.
  - now rewrite (ascii_compare_trans _ _ _ Hxy Hyz).
Qed.

Lemma item_ltb_compare (a b : string * string) :
  item_ltb a b = true <-> item_compare a b = Lt.
Proof.
  unfold item_ltb, item_compare, String.ltb.
  destruct (String.compare (fst a) (fst b));
    [destruct (String.compare (snd a) (snd b)) |..];
    split; congruence.
Qed.

Lemma item_compare_antisym (a b : string * string) :
  item_compare a b = CompOpp (item_compare b a).
Proof.
  unfold item_compare.
  rewrite (String.compare_antisym (fst a) (fst b)).
  destruct (String.compare (fst b) (fst a)); simpl; try reflexivity.
  apply String.compare_antisym.
Qed.

Lemma item_compare_eq (a b : string * string) :
  item_compare a b = Eq -> a = b.
Proof.
  unfold item_compare. destruct a as [n v], b as [n' v']; simpl.
  destruct (String.compare n n') eqn:Hn; try discriminate.
  intros Hv. apply String.compare_eq_iff in Hn, Hv. now subst.
Qed.

Lemma item_compare_refl (a : string * string) : item_compare a a = Eq.
Proof. unfold item_compare. now rewrite !string_compare_refl. Qed.

Lemma item_compare_trans (a b c : string * string) :
  item_compare a b = Lt -> item_compare b c = Lt -> item_compare a c = Lt.
Proof.
  unfold item_compare.
  destruct (String.compare (fst a) (fst b)) eqn:Hab; try discriminate;
    destruct (String.compare (fst b) (fst c)) eqn:Hbc; try discriminate;
    intros H1 H2.
  - apply String.compare_eq_iff in Hab, Hbc. rewrite Hab, Hbc.
    rewrite string_compare_refl. eapply string_compare_trans; eauto.
  - apply String.compare_eq_iff in Hab. now rewrite Hab, Hbc.
  - apply String.compare_eq_iff in Hbc. now rewrite <- Hbc, Hab.
  - now rewrite (string_compare_trans _ _ _ Hab Hbc).
Qed.

Lemma item_le_compare (a b : string * string) :
  item_le a b <-> item_compare a b <> Gt.
Proof.
  unfold item_le. rewrite item_compare_antisym.
  pose proof (item_ltb_compare b a) as H.
  destruct (item_ltb b a), (item_compare b a); simpl;
    split; intros; try congruence;
    try (destruct H as [H1 H2]; specialize (H1 eq_refl); congruence);
    try (destruct H as [H1 H2]; specialize (H2 eq_refl); congruence).
Qed.

Lemma item_le_trans (a b c : string * string) :
  item_le a b -> item_le b c -> item_le a c.
Proof.
  rewrite !item_le_compare.
  destruct (item_compare a b) eqn:Hab; try congruence;
    destruct (item_compare b c) eqn:Hbc; try congruence; intros _ _.
  - apply item_compare_eq in Hab, Hbc. subst.
    rewrite item_compare_refl. discriminate.
  - apply item_compare_eq in Hab. subst. rewrite Hbc. discriminate.
  - apply item_compare_eq in Hbc. subst. rewrite Hab. discriminate.
  - rewrite (item_compare_trans _ _ _ Hab Hbc). discriminate.
Qed.

Lemma item_le_antisym (a b : string * string) :
  item_le a b -> item_le b a -> a = b.
Proof.
  rewrite !item_le_compare. rewrite (item_compare_antisym b a).
  destruct (item_compare a b) eqn:Hab; simpl; try congruence.
  intros _ _. now apply item_compare_eq.
Qed.

Lemma item_ltb_le (a b : string * string) :
  item_ltb a b = true -> item_le a b.
Proof.
  rewrite item_ltb_compare, item_le_compare. congruence.
Qed.

(** ** [sorted] sorts *)

Lemma insert_sorted_perm x l : Permutation (x :: l) (insert_sorted x l).
Proof.
  induction l as [| y l IH]; simpl; [reflexivity |].
  destruct (item_ltb y x); [| reflexivity].
  rewrite perm_swap. now constructor.
Qed.

Lemma sorted_perm l : Permutation l (sorted l).
Proof.
  induction l as [| x l IH]; simpl; [constructor |].
  rewrite <- insert_sorted_perm. now constructor.
Qed.

Lemma insert_sorted_ordered x l :
  StronglySorted item_le l -> StronglySorted item_le (insert_sorted x l).
Proof.
  induction 1 as [| y l Hs IH Hy]; simpl.
  - repeat constructor.
  - destruct (item_ltb y x) eqn:Hyx.
    + constructor; [exact IH |].
      rewrite Forall_forall in *. intros z Hz.
      apply (Permutation_in _ (Permutation_sym (insert_sorted_perm x l)))
        in Hz.
      destruct Hz as [<- | Hz]; [now apply item_ltb_le | auto].
    + constructor; [now constructor |].
      constructor; [exact Hyx |].
      rewrite Forall_forall in *. intros z Hz.
      eapply item_le_trans; [exact Hyx | auto].
Qed.

Lemma sorted_ordered l : StronglySorted item_le (sorted l).
Proof.
  induction l as [| x l IH]; simpl; [constructor |].
  now apply insert_sorted_ordered.
Qed.

(** Two ordered lists with the same items are the same list. *)
Lemma ordered_unique l1 : forall l2,
  StronglySorted item_le l1 -> StronglySorted item_le l2 ->
  Permutation l1 l2 -> l1 = l2.
Proof.
  induction l1 as [| a l1 IH]; intros l2 H1 H2 HP.
  - apply Permutation_nil in HP. now subst.
  - destruct l2 as [| b l2].
    + apply Permutation_sym, Permutation_nil in HP. discriminate.
    + inversion H1 as [| ? ? H1' Ha]; subst.
      inversion H2 as [| ? ? H2' Hb]; subst.
      rewrite Forall_forall in Ha, Hb.
      assert (a = b) as ->.
      { assert (Hab : In a (b :: l2))
          by (eapply Permutation_in; [exact HP | now left]).
        assert (Hba : In b (a :: l1))
          by (eapply Permutation_in;
              [exact (Permutation_sym HP) | now left]).
        destruct Hab as [-> | Hab]; [reflexivity |].
        destruct Hba as [-> | Hba]; [reflexivity |].
        apply item_le_antisym; auto. }
      f_equal. apply IH; auto.
      eapply Permutation_cons_inv; exact HP.
Qed.

(** [sorted] does not depend on the order of the items. *)
Lemma sorted_permutation l1 l2 :
  Permutation l1 l2 -> sorted l1 = sorted l2.
Proof.
  intros HP. apply ordered_unique; try apply sorted_ordered.
  rewrite <- (sorted_perm l1), <- (sorted_perm l2). exact HP.
Qed.

(** ** The dictionary of the values of a key *)

Lemma dict_set_fresh (d : dict) (k v : string) :
  ~ In k (map fst d) -> dict_set d k v = (d ++ [(k, v)])%list.
Proof.
  induction d as [| [k' v'] d IH]; simpl; intros Hk; [reflexivity |].
  destruct (k' =? k) eqn:E.
  - apply String.eqb_eq in E. tauto.
  - rewrite IH; [reflexivity | tauto].
Qed.

(** With names that differ, the dictionary holds the items of the values
    in their order. *)
Lemma fold_dict_set_distinct (l : list RegfValue) : forall d : dict,
  NoDup (map fst d ++ map name_or_default l) ->
  fold_left (fun d v => dict_set d (name_or_default v) (rendered v)) l d
  = (d ++ map item_of l)%list.
Proof.
  induction l as [| v l IH]; intros d Hnd; simpl.
  - now rewrite app_nil_r.
  - simpl in Hnd. pose proof (NoDup_remove_2 _ _ _ Hnd) as Hfresh.
    rewrite dict_set_fresh.
    + rewrite IH.
      * now rewrite <- app_assoc.
      * rewrite map_app, <- app_assoc. exact Hnd.
    + intros Hin. apply Hfresh. apply in_or_app. now left.
Qed.

Lemma values_dict_of_distinct names_to_skip regf_key :
  NoDup (map name_or_default (kept_values names_to_skip regf_key)) ->
  values_dict_of names_to_skip regf_key
  = map item_of (kept_values names_to_skip regf_key).
Proof.
  intros Hnd. unfold values_dict_of.
  now rewrite fold_dict_set_distinct.
Qed.

Lemma Permutation_filter' {A} (f : A -> bool) (l1 l2 : list A) :
  Permutation l1 l2 -> Permutation (filter f l1) (filter f l2).
Proof.
  induction 1 as [| x l1 l2 _ IH | x y l | l1 l2 l3 _ IH1 _ IH2]; simpl.
  - constructor.
  - destruct (f x); [now constructor | exact IH].
  - destruct (f x), (f y); try reflexivity. apply perm_swap.
  - now transitivity (filter f l2).
Qed.

(** ** The text of the summary *)

Lemma append_eq_empty (s t : string) : s ++ t = "" -> s = "".
Proof. destruct s; [reflexivity | discriminate]. Qed.

Lemma entry_text_not_empty (item : string * string) : entry_text item <> "".
Proof.
  unfold entry_text. destruct (fst item); discriminate.
Qed.

Lemma join_entries_not_empty (x : string * string) l :
  join " " (map entry_text (x :: l)) <> "".
Proof.
  unfold join. simpl. destruct (map entry_text l).
  - apply entry_text_not_empty.
  - intros H. apply append_eq_empty in H.
    now apply entry_text_not_empty in H.
Qed.

Lemma sorted_nil_iff l : sorted l = [] <-> l = [].
Proof.
  split; intros H.
  - pose proof (sorted_perm l) as HP. rewrite H in HP.
    now apply Permutation_sym, Permutation_nil in HP.
  - now subst.
Qed.

Lemma values_text_spec (values_dict : dict) :
  values_text values_dict
  = match values_dict with
    | [] => None
    | _ :: _ => Some (join " " (map entry_text (sorted values_dict)))
    end.
Proof.
  unfold values_text. fold entry_text.
  destruct values_dict as [| x d]; [reflexivity |].
  destruct (sorted (x :: d)) as [| y l] eqn:E.
  - apply (proj1 (sorted_nil_iff _)) in E. discriminate E.
  - pose proof (join_entries_not_empty y l) as Hne.
    apply String.eqb_neq in Hne.
    change (fun item : string * string => fst item ++ ": " ++ snd item)
      with entry_text.
    now rewrite Hne.
Qed.

(** Items in order, with names that differ, are in the order of their
    names. *)
Lemma ordered_by_name l :
  StronglySorted item_le l -> NoDup (map fst l) ->
  StronglySorted (fun a b => String.compare (fst a) (fst b) = Lt) l.
Proof.
  induction 1 as [| a l Hs IH Ha]; intros Hnd; [constructor |].
  simpl in Hnd. inversion Hnd as [| ? ? Hnotin Hnd']; subst.
  constructor; [auto |].
  rewrite Forall_forall in *. intros b Hb.
  specialize (Ha b Hb). apply item_le_compare in Ha.
  unfold item_compare in Ha.
  destruct (String.compare (fst a) (fst b)) eqn:E; try congruence.
  apply String.compare_eq_iff in E. exfalso. apply Hnotin.
  rewrite E. now apply in_map.
Qed.

(** ** The value summary of the key-visit event *)

(** C7, as stated, fails: a key may hold the default value, which has no
    name, and a value named "(default)"; the summary then has one entry
    for the two values, and which of the two it shows depends on their
    order in the key. *)
Lemma C7_counterexample :
  Permutation (key_values colliding_key) (key_values colliding_key_swapped)
  /\ skipped None (default_sz_value "a") = false
  /\ skipped None (sz_value "(default)" "b") = false
  /\ outcome (_GetValuesFromKey colliding_key None)
     = Ok [("(default)", "b")]
  /\ outcome (_GetValuesFromKey colliding_key_swapped None)
     = Ok [("(default)", "a")]
  /\ produced (_ProduceDefaultWindowsRegistryEvent colliding_key "\Root" None)
     = [(mkEvent (Filetime 0) TIME_DESCRIPTION_WRITTEN,
         RegistryEventData
           (WindowsRegistryEventData.mk "\Root" (Some "(default): b")))]
  /\ produced
       (_ProduceDefaultWindowsRegistryEvent colliding_key_swapped "\Root" None)
     = [(mkEvent (Filetime 0) TIME_DESCRIPTION_WRITTEN,
         RegistryEventData
           (WindowsRegistryEventData.mk "\Root" (Some "(default): a")))].
Proof.
  split; [apply perm_swap |]. repeat split; reflexivity.
Qed.

Lemma skipped_spec names_to_skip regf_value :
  skipped names_to_skip regf_value = true <->
  exists name,
    In name (match names_to_skip with Some l => l | None => [] end)
    /\ lower name = lower (name_or_default regf_value).
Proof.
  unfold skipped. rewrite existsb_exists. split.
  - intros (x & Hx & Heq). apply in_map_iff in Hx.
    destruct Hx as (name & <- & Hin). apply String.eqb_eq in Heq.
    exists name. auto.
  - intros (name & Hin & Heq). exists (lower name). split.
    + now apply in_map.
    + now apply String.eqb_eq.
Qed.

Lemma rendered_spec (v : RegfValue) :
  (value_name v = None \/ value_name v = Some "" ->
   name_or_default v = "(default)")
  /\ (forall name, value_name v = Some name -> name <> "" ->
        name_or_default v = name)
  /\ (value_data v = None -> rendered v = "(empty)")
  /\ (forall l, value_data v <> None -> value_type v = REG_MULTI_SZ ->
        get_data_as_multi_string v = Read l ->
        rendered v = "[" ++ join ", " l ++ "]")
  /\ (forall s, value_data v <> None ->
        In (value_type v) [REG_SZ; REG_EXPAND_SZ; REG_LINK] ->
        get_data_as_string v = Read s -> rendered v = s)
  /\ (forall z, value_data v <> None ->
        In (value_type v) [REG_DWORD; REG_DWORD_BIG_ENDIAN; REG_QWORD] ->
        get_data_as_integer v = Read z -> rendered v = format_d z)
  /\ (forall b, value_data v = Some b ->
        In (value_type v) [REG_BINARY; REG_OTHER] ->
        rendered v = "(" ++ format_d (Z.of_nat (List.length b)) ++ " bytes)").
Proof.
  unfold name_or_default, rendered.
  split; [intros [-> | ->]; reflexivity |].
  split; [intros name -> H; apply String.eqb_neq in H; now rewrite H |].
  split; [intros ->; reflexivity |].
  split; [| split; [| split]].
  - intros l Hd Ht Hr. destruct (value_data v); [| congruence].
    now rewrite Ht, Hr.
  - intros s Hd Ht Hr. destruct (value_data v); [| congruence].
    destruct Ht as [Ht | [Ht | [Ht | []]]]; rewrite <- Ht, Hr; reflexivity.
  - intros z Hd Ht Hr. destruct (value_data v); [| congruence].
    destruct Ht as [Ht | [Ht | [Ht | []]]]; rewrite <- Ht, Hr; reflexivity.
  - intros b Hd Ht. rewrite Hd.
    destruct Ht as [Ht | [Ht | []]]; rewrite <- Ht; reflexivity.
Qed.

Example rendered_empty_list :
  rendered (multi_sz_value "m" []) = "[]"
  /\ rendered (multi_sz_value "a" ["a"; "b"; "c"]) = "[a, b, c]".
Proof. split; reflexivity. Qed.

(** C7 (amended): for a key whose values that are not skipped have
    display names that differ, the default value counted under the name
    "(default)", and none of which is a value with data and without a name
    whose read faults, the formatter returns and the value summary of the
    key-visit event has one entry "name: text" for every value that is not
    skipped, a value being skipped when its display name and a name of the
    skip list are the same in lower case.  The name shown is "(default)"
    for a value without a name or with the empty name; the text is
    "(empty)" for a value without data, "[a, b, c]" for a multi-string
    ("[]" for the empty list), the text of the decoded string or integer,
    and "(N bytes)" for the other types.  The entries are joined with
    spaces in the order of the names, whatever the order of the values in
    the key, and a summary without entries is absent, not the empty
    string. *)
Theorem C7_value_summary (regf_key : RegfKey)
    (names_to_skip : option (list string)) :
  NoDup (map name_or_default (kept_values names_to_skip regf_key)) ->
  (forall v, In v (key_values regf_key) ->
     skipped names_to_skip v = false -> ~ unformattable v) ->
  let values_dict := values_dict_of names_to_skip regf_key in
  (exists ws,
      Runs (_GetValuesFromKey regf_key names_to_skip) [] ws (Ok values_dict))
  /\ (forall key_path,
        exists event ws,
          Runs (_ProduceDefaultWindowsRegistryEvent regf_key key_path
                  names_to_skip)
            [(event,
              RegistryEventData
                (WindowsRegistryEventData.mk key_path
                   (values_text values_dict)))] ws (Ok tt))
  /\ (forall name text,
        In (name, text) values_dict <->
        exists v, In v (key_values regf_key)
                  /\ skipped names_to_skip v = false
                  /\ name = name_or_default v /\ text = rendered v)
  /\ (forall v,
        skipped names_to_skip v = true <->
        exists name,
          In name (match names_to_skip with Some l => l | None => [] end)
          /\ lower name = lower (name_or_default v))
  /\ (forall v,
        (value_name v = None \/ value_name v = Some "" ->
         name_or_default v = "(default)")
        /\ (forall name, value_name v = Some name -> name <> "" ->
              name_or_default v = name)
        /\ (value_data v = None -> rendered v = "(empty)")
        /\ (forall l, value_data v <> None -> value_type v = REG_MULTI_SZ ->
              get_data_as_multi_string v = Read l ->
              rendered v = "[" ++ join ", " l ++ "]")
        /\ (forall s, value_data v <> None ->
              In (value_type v) [REG_SZ; REG_EXPAND_SZ; REG_LINK] ->
              get_data_as_string v = Read s -> rendered v = s)
        /\ (forall z, value_data v <> None ->
              In (value_type v) [REG_DWORD; REG_DWORD_BIG_ENDIAN; REG_QWORD] ->
              get_data_as_integer v = Read z -> rendered v = format_d z)
        /\ (forall b, value_data v = Some b ->
              In (value_type v) [REG_BINARY; REG_OTHER] ->
              rendered v
              = "(" ++ format_d (Z.of_nat (List.length b)) ++ " bytes)"))
  /\ values_text values_dict
     = match values_dict with
       | [] => None
       | _ :: _ => Some (join " " (map entry_text (sorted values_dict)))
       end
  /\ Permutation values_dict (sorted values_dict)
  /\ StronglySorted (fun a b => String.compare (fst a) (fst b) = Lt)
       (sorted values_dict)
  /\ (forall regf_key',
        Permutation (key_values regf_key) (key_values regf_key') ->
        (exists ws,
            Runs (_GetValuesFromKey regf_key' names_to_skip) [] ws
              (Ok (values_dict_of names_to_skip regf_key')))
        /\ values_text (values_dict_of names_to_skip regf_key')
           = values_text values_dict)
  /\ (values_text values_dict = None <->
      kept_values names_to_skip regf_key = [])
  /\ values_text values_dict <> Some "".
Proof.
  intros Hnd Hfmt values_dict.
  pose proof (values_dict_of_distinct _ _ Hnd) as Hdict.
  fold values_dict in Hdict.
  pose proof (proj2 (kept_fault_none names_to_skip regf_key) Hfmt) as Hnone.
  assert (Hget : Runs (_GetValuesFromKey regf_key names_to_skip) []
                   (key_warnings names_to_skip regf_key) (Ok values_dict)).
  { pose proof (GetValuesFromKey_runs regf_key names_to_skip) as H.
    unfold values_outcome in H. now rewrite Hnone in H. }
  split; [eexists; exact Hget |].
  split.
  { intros key_path. eexists _, _.
    pose proof (ProduceDefaultWindowsRegistryEvent_runs regf_key key_path
                  names_to_skip) as H.
    unfold key_visit_events, key_visit_outcome in H.
    rewrite Hnone in H. exact H. }
  split.
  { intros name text. rewrite Hdict. unfold kept_values, item_of.
    rewrite in_map_iff. split.
    - intros (v & [= <- <-] & Hv). apply filter_In in Hv.
      destruct Hv as [Hv Hk]. apply negb_true_iff in Hk.
      exists v. auto.
    - intros (v & Hv & Hk & -> & ->). exists v. split; [reflexivity |].
      apply filter_In. split; [exact Hv | now rewrite Hk]. }
  split; [intros v; apply skipped_spec |].
  split; [intros v; apply rendered_spec |].
  split; [apply values_text_spec |].
  split; [apply sorted_perm |].
  split.
  { apply ordered_by_name; [apply sorted_ordered |].
    eapply Permutation_NoDup.
    - apply Permutation_map. apply sorted_perm.
    - rewrite Hdict, map_map. unfold item_of. simpl. exact Hnd. }
  split.
  { intros regf_key' HP.
    assert (HPk : Permutation (kept_values names_to_skip regf_key)
                    (kept_values names_to_skip regf_key'))
      by (apply Permutation_filter'; exact HP).
    assert (Hnd' : NoDup (map name_or_default
                            (kept_values names_to_skip regf_key')))
      by (eapply Permutation_NoDup;
          [apply Permutation_map; exact HPk | exact Hnd]).
    split.
    { exists (key_warnings names_to_skip regf_key').
      pose proof (GetValuesFromKey_runs regf_key' names_to_skip) as H.
      unfold values_outcome in H.
      rewrite (proj2 (kept_fault_none names_to_skip regf_key')) in H;
        [exact H |].
      intros v Hv. apply Hfmt.
      eapply Permutation_in; [apply Permutation_sym; exact HP | exact Hv]. }
    rewrite (values_dict_of_distinct _ _ Hnd'), Hdict.
    rewrite !values_text_spec.
    rewrite (sorted_permutation _ _
               (Permutation_map item_of (Permutation_sym HPk))).
    destruct (kept_values names_to_skip regf_key) as [| v l] eqn:E.
    - apply Permutation_nil in HPk. now rewrite HPk.
    - destruct (kept_values names_to_skip regf_key') as [| v' l'];
        [| reflexivity].
      apply Permutation_sym, Permutation_nil in HPk. discriminate. }
  split.
  { rewrite values_text_spec, Hdict.
    destruct (kept_values names_to_skip regf_key); simpl;
      split; congruence. }
  rewrite values_text_spec.
  destruct values_dict as [| x d]; [discriminate |].
  destruct (sorted (x :: d)) as [| y l] eqn:E.
  - apply (proj1 (sorted_nil_iff _)) in E. discriminate E.
  - intros [= H]. now apply join_entries_not_empty in H.
Qed.

Lemma C7_value_summary_witness :
  NoDup (map name_or_default (kept_values None summary_key))
  /\ (forall v, In v (key_values summary_key) ->
        skipped None v = false -> ~ unformattable v)
  /\ values_text (values_dict_of None summary_key)
     = Some ("(default): dflt a: [x, y] b: text c: (3 bytes) d: 42 " ++
             "e: (empty) m: []").
Proof.
  assert (Hnd : NoDup (map name_or_default (kept_values None summary_key))).
  { simpl. repeat (constructor; [simpl; intuition discriminate |]).
    constructor. }
  assert (Hfmt : forall v, In v (key_values summary_key) ->
                   skipped None v = false -> ~ unformattable v).
  { intros v Hv _ (Hn & _ & f & Hf). simpl in Hv.
    repeat (destruct Hv as [<- | Hv];
            [first [discriminate Hn | discriminate Hf] |]).
    contradiction. }
  split; [exact Hnd |]. split; [exact Hfmt |].
  destruct (C7_value_summary summary_key None Hnd Hfmt)
    as (_ & _ & _ & _ & _ & H & _).
  exact H.
Defined.

(** ** Faults that leave the parser *)

(** C1 (the parser breaks the claim): the SHA-1 value of a file-reference
    key cannot be read; [_GetValueDataAsObject] catches the fault, warns
    and returns [None], and the test [value_data.startswith] on [None]
    raises [AttributeError], which nothing catches: it leaves
    [ParseFileObject].  The file-reference key next to it, which is in
    order, gets no file entry event, and the Programs subtree is not
    visited at all.  The same happens, with [IOError], when the entry
    write time of a key is not an integer value. *)
Theorem C1_fault_leaves_the_parser :
  outcome (ParseFileObject (hive_of unreadable_sha1_root))
  = Raise (mkExc AttributeError
             "'NoneType' object has no attribute 'startswith'")
  /\ map event_label (produced (ParseFileObject (hive_of unreadable_sha1_root)))
     = ["\Root"; "\Root\File"; "\Root\File\Volume";
        "\Root\File\Volume\a00000b"; "\Root\File\Volume\c00000d"]
  /\ warned (ParseFileObject (hive_of unreadable_sha1_root))
     = ["Unable to read data from value: 101 with error: " ++
        "unable to retrieve string";
        "Unable to read data from value: 101 with error: " ++
        "unable to retrieve string"]
  /\ outcome (ParseFileObject (hive_of string_time_root))
     = Raise (mkExc IOError "unsupported integer value type")
  /\ map event_label (produced (ParseFileObject (hive_of string_time_root)))
     = ["\Root"; "\Root\File"; "\Root\File\Volume";
        "\Root\File\Volume\a00000b"].
Proof. repeat split; vm_compute; reflexivity. Qed.

(** C5 (the parser breaks the claim): the file creation time "12" of the
    key is present and is an integer, yet the key yields no creation
    event: the entry write time "17" is a string value, the call of
    [get_data_as_integer] on it raises [IOError], and the decoder is left
    before it reaches the creation time. *)
Theorem C5_creation_event_lost :
  get_value_by_name string_time_key "12" = Some (qword_value "12" 500)
  /\ get_data_as_integer (qword_value "12" 500) = Read 500%Z
  /\ _ParseFileReferenceKey string_time_key empty_mediator
     = (empty_mediator,
        Raise (mkExc IOError "unsupported integer value type")).
Proof. repeat split; reflexivity. Qed.

(** C6 (the parser breaks the claim): the second program key holds the
    installation time "a" as an integer, yet it yields no event: the
    installation time of the first program key is a string value, the call
    of [get_data_as_integer] on it raises [IOError], and the loop over the
    program keys is left. *)
Theorem C6_installation_event_lost :
  sub_keys example_programs_key = [string_time_program_key; good_program_key]
  /\ get_value_by_name good_program_key "a" = Some (qword_value "a" 600)
  /\ produced (_ParseProgramKey good_program_key)
     = [(mkEvent (PosixTime 600) TIME_DESCRIPTION_INSTALLATION,
         ProgramEventData
           (AMCacheProgramEventData.setattr AMCacheProgramEventData.init
              "name" (PyStr "second")))]
  /\ _ParseProgramsKey example_programs_key empty_mediator
     = (empty_mediator,
        Raise (mkExc IOError "unsupported integer value type")).
Proof. repeat split; reflexivity. Qed.

(** C9 (the parser breaks the claim): the keys "Programs" and "program2"
    are descendants of the Root key and get no key-visit event: the walk
    is left by the [IOError] of the file entry decoder before it reaches
    them. *)
Theorem C9_keys_not_visited :
  map (fun p => join "\" (fst p)) (visited string_time_root)
  = ["\Root"; "\Root\File"; "\Root\File\Volume";
     "\Root\File\Volume\a00000b"; "\Root\Programs";
     "\Root\Programs\program2"]
  /\ map event_label (produced (_ParseRootKey string_time_root))
     = ["\Root"; "\Root\File"; "\Root\File\Volume";
        "\Root\File\Volume\a00000b"]
  /\ outcome (_ParseRootKey string_time_root)
     = Raise (mkExc IOError "unsupported integer value type").
Proof. repeat split; vm_compute; reflexivity. Qed.

(** ** The entry decoders when every time value is read *)

Lemma time_block_runs regf_key name clock description event_data :
  readable_time regf_key name = true ->
  Runs
    (match get_value_by_name regf_key name with
     | Some v =>
         timestamp <- call (get_data_as_integer v) ;;
         ProduceEventWithEventData (mkEvent (clock timestamp) description)
           event_data
     | None => ret tt
     end)
    (time_event regf_key name clock description event_data) [] (Ok tt).
Proof.
  unfold readable_time, time_event.
  destruct (get_value_by_name regf_key name) as [v |]; [| intros _; apply Runs_ret].
  destruct (get_data_as_integer v) as [z | f]; [intros _ | discriminate].
  run_bind (@Runs_call_read Z z). apply Runs_event.
Qed.

Lemma time_event_present regf_key name clock description event_data :
  readable_time regf_key name = true ->
  (get_value_by_name regf_key name = None ->
   time_event regf_key name clock description event_data = [])
  /\ (forall v, get_value_by_name regf_key name = Some v ->
        exists z, get_data_as_integer v = Read z
          /\ time_event regf_key name clock description event_data
             = [(mkEvent (clock z) description, event_data)]).
Proof.
  unfold readable_time, time_event. intros Hr. split.
  - intros ->. reflexivity.
  - intros v Hv. rewrite Hv in *.
    destruct (get_data_as_integer v) as [z | f]; [| discriminate].
    exists z. auto.
Qed.

(** When the loop over the mapping table returns a record and every time
    value that is present is read as an integer, the file entry decoder
    hands over the events of the time values that are present, in the
    order entry write, creation, modification, compilation, each with this
    one record, and returns. *)
Lemma ParseFileReferenceKey_events (file_reference_key : RegfKey) ws d :
  Runs (map_file_reference_values file_reference_key
          (AMCacheFileEventData.set_file_reference AMCacheFileEventData.init
             (file_reference_of (key_name file_reference_key))))
    [] ws (Ok d) ->
  readable_time file_reference_key _AMCACHE_ENTRY_WRITE_TIME = true ->
  readable_time file_reference_key _AMCACHE_FILE_CREATION_TIME = true ->
  readable_time file_reference_key _AMCACHE_FILE_MODIFICATION_TIME = true ->
  readable_time file_reference_key _AMCACHE_COMPILATION_TIME = true ->
  Runs (_ParseFileReferenceKey file_reference_key)
    (file_time_events file_reference_key d) ws (Ok tt).
Proof.
  intros Hmap H17 H12 H11 Hf. unfold _ParseFileReferenceKey, file_time_events.
  run_bind (set_file_reference_from_name_runs (key_name file_reference_key)).
  run_bind Hmap.
  run_bind (time_block_runs file_reference_key _AMCACHE_ENTRY_WRITE_TIME
              Filetime TIME_DESCRIPTION_MODIFICATION (FileEventData d) H17).
  run_bind (time_block_runs file_reference_key _AMCACHE_FILE_CREATION_TIME
              Filetime TIME_DESCRIPTION_CREATION (FileEventData d) H12).
  run_bind (time_block_runs file_reference_key
              _AMCACHE_FILE_MODIFICATION_TIME
              Filetime TIME_DESCRIPTION_MODIFICATION (FileEventData d) H11).
  apply (time_block_runs file_reference_key _AMCACHE_COMPILATION_TIME
           PosixTime TIME_DESCRIPTION_CHANGE (FileEventData d) Hf).
Qed.

(** The loop of the program entry decoder over its mapping table never
    raises. *)
Lemma map_program_values_runs (program_key : RegfKey) d0 :
  exists ws d, Runs (map_program_values program_key d0) [] ws (Ok d).
Proof.
  unfold map_program_values. revert d0.
  induction _PRODUCT_KEY_VALUES as [| item l IH]; intros d0; simpl.
  - eexists _, _. apply Runs_ret.
  - assert (Hstep : exists ws d,
              Runs (program_value_step program_key item d0) [] ws (Ok d)).
    { unfold program_value_step.
      destruct (get_value_by_name program_key (fst item)) as [value |]
        eqn:Hget.
      - eexists _, _. run_bind (found_value_runs _ _ _ Hget).
        apply Runs_ret.
      - eexists _, _. apply Runs_ret. }
    destruct Hstep as (ws & d & Hstep).
    destruct (IH d) as (ws' & d' & H').
    exists (ws ++ ws')%list, d'. run_bind Hstep. exact H'.
Qed.

(** The program entry decoder: no event when the installation time is
    absent, exactly one installation event when it is present and read as
    an integer. *)
Lemma ParseProgramKey_events (program_key : RegfKey) :
  readable_time program_key _AMCACHE_P_INSTALLATION_TIME = true ->
  exists ws d,
    Runs (_ParseProgramKey program_key)
      (time_event program_key _AMCACHE_P_INSTALLATION_TIME PosixTime
         TIME_DESCRIPTION_INSTALLATION (ProgramEventData d)) ws (Ok tt).
Proof.
  intros Ha. unfold _ParseProgramKey.
  destruct (map_program_values_runs program_key AMCacheProgramEventData.init)
    as (ws & d & Hmap).
  exists ws, d. run_bind Hmap.
  apply (time_block_runs program_key _AMCACHE_P_INSTALLATION_TIME PosixTime
           TIME_DESCRIPTION_INSTALLATION (ProgramEventData d) Ha).
Qed.

(** * Further properties of the parser *)

(** ** The walk of a subtree *)

Lemma preorder_length (regf_key : RegfKey) : forall segments,
  List.length (preorder segments regf_key) = key_count regf_key.
Proof.
  induction regf_key as [name time values subs IH] using RegfKey_ind'.
  intros segments. simpl. f_equal.
  induction IH as [| sub subs Hsub _ IHsubs]; simpl; [reflexivity |].
  now rewrite length_app, Hsub, IHsubs.
Qed.

(** The loop of the default-event producer over a list of keys with their
    path segments: its visits in order. *)
Lemma visits_run (l : list (list string * RegfKey)) :
  Runs (for_each visit_key l)
    (trace_events (run_steps (map visit_step l)))
    (trace_warnings (run_steps (map visit_step l)))
    (trace_outcome (run_steps (map visit_step l))).
Proof.
  induction l as [| p l IH].
  - apply Runs_ret.
  - cbn [map for_each]. rewrite run_steps_cons.
    rewrite <- (returning_tt (trace_outcome _)).
    apply Runs_then with (a := tt); rewrite returning_tt.
    + apply (ProduceDefaultWindowsRegistryEvent_runs (snd p)
               (join "\" (fst p)) None).
    + exact IH.
Qed.

Lemma skipped_none (v : RegfValue) : skipped None v = false.
Proof. reflexivity. Qed.

(** The visits of keys whose value summaries can all be formatted. *)
Lemma run_visits_ok (l : list (list string * RegfKey)) :
  (forall p v, In p l -> In v (key_values (snd p)) -> ~ unformattable v) ->
  run_steps (map visit_step l)
  = mkTrace (visit_events l) (visit_warnings l) (Ok tt).
Proof.
  induction l as [| p l IH]; intros H; [reflexivity |].
  cbn [map]. rewrite run_steps_cons, IH;
    [| intros q v Hq; apply H; now right].
  assert (Hnone : first_fault (kept_values None (snd p)) = None).
  { apply kept_fault_none. intros v Hv _. apply (H p v); auto. now left. }
  unfold then_trace, visit_step, step_trace, key_visit_events,
    key_visit_outcome.
  rewrite Hnone. reflexivity.
Qed.

(** X1: the walk of a subtree is one loop of the default-event producer
    over the keys of the subtree in depth-first pre-order, the key before
    its sub keys and the sub keys in their order, each at the path joined
    from the segments that lead to it; the loop ends at the first key on
    which the producer raises, and a walk that returns gives back the
    path-segment stack as it received it.  When no value of a key of the
    subtree has data, no name and a read that faults, the walk does not
    raise and hands over exactly one key-visit event for each key of the
    subtree. *)
Theorem X1_ParseSubKey_walk (regf_key : RegfKey)
    (key_path_segments : list string) (m : Mediator) :
  _ParseSubKey regf_key key_path_segments m
  = (fst (for_each visit_key (preorder key_path_segments regf_key) m),
     returning key_path_segments
       (snd (for_each visit_key (preorder key_path_segments regf_key) m)))
  /\ ((forall p v,
          In p (preorder key_path_segments regf_key) ->
          In v (key_values (snd p)) -> ~ unformattable v) ->
      _ParseSubKey regf_key key_path_segments m
      = (extend m (visit_events (preorder key_path_segments regf_key))
           (visit_warnings (preorder key_path_segments regf_key)),
         Ok key_path_segments)
      /\ List.length (visit_events (preorder key_path_segments regf_key))
         = key_count regf_key).
Proof.
  pose proof (ParseSubKey_runs regf_key key_path_segments m) as Hwalk.
  unfold subtree_steps in Hwalk.
  split.
  - rewrite Hwalk, (visits_run (preorder key_path_segments regf_key) m).
    reflexivity.
  - intros H. rewrite Hwalk, (run_visits_ok _ H). split; [reflexivity |].
    unfold visit_events. rewrite length_map. apply preorder_length.
Qed.

(** ** The walk of a Root key *)

(** X3: the key-visit events a walk of a Root key hands over are, in the
    order in which the mediator receives them after what it held, an
    initial part of the keys of the tree in depth-first pre-order; they
    are all of them when the walk returns without an exception. *)
Theorem X3_key_visits_in_preorder (root_key : RegfKey) (m : Mediator) :
  exists es ws,
    fst (_ParseRootKey root_key m) = extend m es ws
    /\ initial_part (filter is_key_visit es) (visit_events (visited root_key))
    /\ (is_ok (snd (_ParseRootKey root_key m)) = true ->
        filter is_key_visit es = visit_events (visited root_key)).
Proof.
  pose proof (Runs_Appends _ _ _ _ (ParseRootKey_runs root_key)) as Happ.
  exists (produced (_ParseRootKey root_key)), (warned (_ParseRootKey root_key)).
  rewrite (Happ m). simpl.
  destruct (ParseRootKey_key_visits root_key) as (Hpre & Hall).
  auto.
Qed.

Lemma specialized_other (sub_key : RegfKey) :
  key_name sub_key <> "File" -> key_name sub_key <> "Programs" ->
  specialized sub_key = ret tt.
Proof.
  intros HF HP. unfold specialized.
  apply String.eqb_neq in HF, HP. now rewrite HF, HP.
Qed.

Lemma then_trace_nil_r (t : Trace) : then_trace t (mkTrace [] [] (Ok tt)) = t.
Proof.
  destruct t as [es ws [[] | e]]; unfold then_trace; simpl;
    [now rewrite !app_nil_r | reflexivity].
Qed.

(** Without a specialized handling, the steps of the walk of a Root key
    are the visits of the keys of the tree. *)
Lemma root_steps_other_names (root_key : RegfKey) :
  (forall sub_key, In sub_key (sub_keys root_key) ->
     key_name sub_key <> "File" /\ key_name sub_key <> "Programs") ->
  run_steps (root_steps root_key)
  = run_steps (map visit_step (visited root_key)).
Proof.
  intros H. unfold root_steps, visited. cbn [map].
  change (visit_step ([""; "Root"], root_key)) with (Visit "\Root" root_key).
  rewrite !run_steps_cons. f_equal.
  induction (sub_keys root_key) as [| sub subs IH]; [reflexivity |].
  cbn [flat_map]. rewrite map_app, !run_steps_app, IH;
    [| intros s Hs; apply H; now right].
  f_equal. unfold subtree_steps.
  destruct (H sub (or_introl eq_refl)) as [HF HP].
  change (run_steps [Specialized sub])
    with (then_trace (trace_of (specialized sub)) (mkTrace [] [] (Ok tt))).
  rewrite (specialized_other sub HF HP).
  change (trace_of (ret tt)) with (mkTrace [] [] (Ok tt)).
  now rewrite !then_trace_nil_r.
Qed.

(** X4: only the names "File" and "Programs", in this spelling, start a
    specialized handling.  On a Root key without a sub key of either name
    the walk is the loop of the default-event producer over the keys of
    the tree in pre-order, and nothing else; when no value of a key of the
    tree has data, no name and a read that faults, it hands over the
    key-visit events of all the keys and returns without an exception. *)
Theorem X4_no_specialized_handling (root_key : RegfKey) (m : Mediator) :
  (forall sub_key, In sub_key (sub_keys root_key) ->
     key_name sub_key <> "File" /\ key_name sub_key <> "Programs") ->
  _ParseRootKey root_key m = for_each visit_key (visited root_key) m
  /\ ((forall p v,
          In p (visited root_key) -> In v (key_values (snd p)) ->
          ~ unformattable v) ->
      _ParseRootKey root_key m
      = (extend m (visit_events (visited root_key))
           (visit_warnings (visited root_key)), Ok tt)).
Proof.
  intros H. rewrite (ParseRootKey_runs root_key m).
  rewrite (root_steps_other_names root_key H). split.
  - now rewrite (visits_run (visited root_key) m).
  - intros Hfmt. now rewrite (run_visits_ok _ Hfmt).
Qed.

Lemma X4_no_specialized_handling_witness :
  (forall sub_key, In sub_key (sub_keys other_names_root) ->
     key_name sub_key <> "File" /\ key_name sub_key <> "Programs")
  /\ _ParseRootKey other_names_root empty_mediator
     = for_each visit_key (visited other_names_root) empty_mediator
  /\ map event_label (produced (_ParseRootKey other_names_root))
     = ["\Root"; "\Root\file"; "\Root\file\Volume";
        "\Root\file\Volume\c00000d"; "\Root\PROGRAMS";
        "\Root\PROGRAMS\program2"]
  /\ outcome (_ParseRootKey other_names_root) = Ok tt.
Proof.
  assert (H : forall sub_key, In sub_key (sub_keys other_names_root) ->
            key_name sub_key <> "File" /\ key_name sub_key <> "Programs").
  { simpl. intros sub_key [<- | [<- | []]]; split; discriminate. }
  split; [exact H |].
  split; [exact (proj1 (X4_no_specialized_handling other_names_root
                          empty_mediator H)) |].
  split; reflexivity.
Defined.

(** *** What the steps of a walk hand over *)

Lemma root_steps_cases (root_key : RegfKey) (step : Step) :
  In step (root_steps root_key) ->
  (exists p, In p (visited root_key) /\ step = visit_step p)
  \/ (exists sub_key, In sub_key (sub_keys root_key)
                      /\ step = Specialized sub_key).
Proof.
  unfold root_steps, visited. intros [<- | Hin].
  - left. exists ([""; "Root"], root_key). split; [now left | reflexivity].
  - apply in_flat_map in Hin. destruct Hin as (sub & Hsub & Hin).
    apply in_app_or in Hin. destruct Hin as [Hin | [<- | []]].
    + left. unfold subtree_steps in Hin. apply in_map_iff in Hin.
      destruct Hin as (p & <- & Hp). exists p. split; [| reflexivity].
      right. apply in_flat_map. exists sub. auto.
    + right. exists sub. auto.
Qed.

Lemma run_steps_events_Forall (P : DateTimeValuesEvent * EventData -> Prop)
    (steps : list Step) :
  (forall step, In step steps -> Forall P (trace_events (step_trace step))) ->
  Forall P (trace_events (run_steps steps)).
Proof.
  induction steps as [| step steps IH]; intros H; [constructor |].
  rewrite run_steps_cons. unfold then_trace.
  pose proof (H step (or_introl eq_refl)) as Hstep.
  destruct (trace_outcome (step_trace step)); simpl; [| exact Hstep].
  apply Forall_app. split; [exact Hstep |].
  apply IH. intros s Hs. apply H. now right.
Qed.

Lemma run_steps_warnings_Forall (P : string -> Prop) (steps : list Step) :
  (forall step, In step steps ->
     Forall P (trace_warnings (step_trace step))) ->
  Forall P (trace_warnings (run_steps steps)).
Proof.
  induction steps as [| step steps IH]; intros H; [constructor |].
  rewrite run_steps_cons. unfold then_trace.
  pose proof (H step (or_introl eq_refl)) as Hstep.
  destruct (trace_outcome (step_trace step)); simpl; [| exact Hstep].
  apply Forall_app. split; [exact Hstep |].
  apply IH. intros s Hs. apply H. now right.
Qed.

Lemma key_visit_events_key_visit names_to_skip key_path regf_key :
  Forall (fun e => is_key_visit e = true)
    (key_visit_events names_to_skip key_path regf_key).
Proof.
  unfold key_visit_events.
  destruct (first_fault (kept_values names_to_skip regf_key));
    repeat constructor.
Qed.

(** The events of a walk of a Root key: key-visit events, and events of
    the specialized handling of a sub key of Root. *)
Lemma root_events_Forall (P : DateTimeValuesEvent * EventData -> Prop)
    (root_key : RegfKey) :
  (forall e, is_key_visit e = true -> P e) ->
  (forall sub_key, In sub_key (sub_keys root_key) ->
     Forall P (produced (specialized sub_key))) ->
  Forall P (produced (_ParseRootKey root_key)).
Proof.
  intros Hvisit Hsp.
  destruct (Runs_produced _ _ _ _ (ParseRootKey_runs root_key)) as (-> & _).
  apply run_steps_events_Forall. intros step Hstep.
  destruct (root_steps_cases _ _ Hstep) as [(p & _ & ->) | (sub & Hsub & ->)].
  - eapply Forall_impl; [exact Hvisit |].
    apply key_visit_events_key_visit.
  - apply Hsp, Hsub.
Qed.

Lemma filter_none {A} (f g : A -> bool) (l : list A) :
  Forall (fun x => g x = true) l ->
  (forall x, g x = true -> f x = false) ->
  filter f l = [].
Proof.
  intros H Hfg. induction H as [| x l Hx _ IH]; simpl; [reflexivity |].
  now rewrite (Hfg x Hx).
Qed.

Lemma filter_false {A} (f : A -> bool) (l : list A) :
  Forall (fun x => f x = false) l -> filter f l = [].
Proof.
  induction 1 as [| x l Hx _ IH]; simpl; [reflexivity |]. now rewrite Hx.
Qed.

Lemma specialized_no_file_entry (sub_key : RegfKey) :
  key_name sub_key <> "File" ->
  Forall (fun e => is_file_entry e = false) (produced (specialized sub_key)).
Proof.
  intros HF. unfold specialized.
  apply String.eqb_neq in HF. rewrite HF.
  destruct (key_name sub_key =? "Programs"); [| constructor].
  eapply Forall_impl;
    [| exact (Emits_produced _ _ (Emits_ParseProgramsKey sub_key))].
  intros [ev [d | d | d]]; cbv; congruence.
Qed.

Lemma specialized_no_program_entry (sub_key : RegfKey) :
  key_name sub_key <> "Programs" ->
  Forall (fun e => is_program_entry e = false)
    (produced (specialized sub_key)).
Proof.
  intros HP. unfold specialized.
  apply String.eqb_neq in HP. rewrite HP.
  destruct (key_name sub_key =? "File"); [| constructor].
  eapply Forall_impl;
    [| exact (Emits_produced _ _ (Emits_ParseFileKey sub_key))].
  intros [ev [d | d | d]]; cbv; congruence.
Qed.

(** X5: file entry events come from a sub key of Root named "File" only,
    and program entry events from a sub key named "Programs" only: a walk
    of a Root key without a sub key "File" hands over no file entry event,
    and a walk of a Root key without a sub key "Programs" hands over no
    program entry event, whether the walk raises or not. *)
Theorem X5_entries_need_their_key (root_key : RegfKey) :
  ((forall sub_key, In sub_key (sub_keys root_key) ->
      key_name sub_key <> "File") ->
   filter is_file_entry (produced (_ParseRootKey root_key)) = [])
  /\ ((forall sub_key, In sub_key (sub_keys root_key) ->
         key_name sub_key <> "Programs") ->
      filter is_program_entry (produced (_ParseRootKey root_key)) = []).
Proof.
  split; intros H; apply filter_false, root_events_Forall.
  - intros [ev [d | d | d]]; cbv; congruence.
  - intros sub Hsub. apply specialized_no_file_entry, H, Hsub.
  - intros [ev [d | d | d]]; cbv; congruence.
  - intros sub Hsub. apply specialized_no_program_entry, H, Hsub.
Qed.

(** ** The program entry decoder *)

Lemma time_step_runs regf_key name clock description event_data :
  Runs
    (match get_value_by_name regf_key name with
     | Some v =>
         timestamp <- call (get_data_as_integer v) ;;
         ProduceEventWithEventData (mkEvent (clock timestamp) description)
           event_data
     | None => ret tt
     end)
    (time_event regf_key name clock description event_data) []
    (time_outcome regf_key name).
Proof.
  unfold time_outcome, time_event.
  destruct (get_value_by_name regf_key name) as [v |]; [| apply Runs_ret].
  destruct (get_data_as_integer v) as [z | f].
  - run_bind (@Runs_call_read Z z). apply Runs_event.
  - apply Runs_bind_raise. apply Runs_call_fault.
Qed.

(** X6: the program entry decoder in all its cases.  The loop over the
    mapping table never raises.  Without the installation time "a" the
    decoder hands over no event and returns; with an installation time
    read as the integer [z] it hands over exactly one event, of the POSIX
    time [z] and the description "installation", with the record of the
    loop; with an installation time that is not read it hands over no
    event and raises the fault of the read. *)
Theorem X6_ParseProgramKey_cases (program_key : RegfKey) :
  exists ws d,
    Runs (map_program_values program_key AMCacheProgramEventData.init)
      [] ws (Ok d)
    /\ match get_value_by_name program_key "a" with
       | None => Runs (_ParseProgramKey program_key) [] ws (Ok tt)
       | Some v =>
           match get_data_as_integer v with
           | Read z =>
               Runs (_ParseProgramKey program_key)
                 [(mkEvent (PosixTime z) TIME_DESCRIPTION_INSTALLATION,
                   ProgramEventData d)] ws (Ok tt)
           | Fault f =>
               Runs (_ParseProgramKey program_key) [] ws
                 (Raise (exc_of_fault f))
           end
       end.
Proof.
  destruct (map_program_values_runs program_key AMCacheProgramEventData.init)
    as (ws & d & Hmap).
  exists ws, d. split; [exact Hmap |].
  pose proof (time_step_runs program_key _AMCACHE_P_INSTALLATION_TIME
                PosixTime TIME_DESCRIPTION_INSTALLATION (ProgramEventData d))
    as Hstep.
  unfold time_event, time_outcome, _AMCACHE_P_INSTALLATION_TIME in Hstep.
  assert (Hrun : forall es r,
    Runs (match get_value_by_name program_key "a" with
          | Some v =>
              timestamp <- call (get_data_as_integer v) ;;
              ProduceEventWithEventData
                (mkEvent (PosixTime timestamp) TIME_DESCRIPTION_INSTALLATION)
                (ProgramEventData d)
          | None => ret tt
          end) es [] r ->
    Runs (_ParseProgramKey program_key) es ws r).
  { intros es r H. unfold _ParseProgramKey. run_bind Hmap. exact H. }
  destruct (get_value_by_name program_key "a") as [v |];
    [destruct (get_data_as_integer v) as [z | f] |]; apply Hrun, Hstep.
Qed.

(** ** The loops over the sub keys *)

Lemma for_each_app {A} (body : A -> M unit) (l1 l2 : list A) m :
  for_each body (l1 ++ l2) m = (for_each body l1 ;;; for_each body l2) m.
Proof.
  revert m. induction l1 as [| x l1 IH]; intros m; simpl.
  - reflexivity.
  - unfold bind. destruct (body x m) as [m' [[] | e]]; [| reflexivity].
    rewrite IH. reflexivity.
Qed.

Lemma for_each_flat_map {A B} (g : A -> list B) (body : B -> M unit)
    (l : list A) : forall m,
  for_each (fun x => for_each body (g x)) l m
  = for_each body (flat_map g l) m.
Proof.
  induction l as [| x l IH]; intros m.
  - reflexivity.
  - change (flat_map g (x :: l)) with (g x ++ flat_map g l)%list.
    rewrite for_each_app.
    change (for_each (fun x => for_each body (g x)) (x :: l) m)
      with ((for_each body (g x) ;;;
             for_each (fun x => for_each body (g x)) l) m).
    unfold bind.
    destruct (for_each body (g x) m) as [m' [[] | e]]; [apply IH | reflexivity].
Qed.

(** X16: the two nested loops of [_ParseFileKey] are one loop over the
    sub keys of the sub keys of the File key, in their order: the decoder
    is called on every key two levels below the File key and on no other
    key, the volume a key lies in makes no difference, and an exception of
    one call ends the loops for all the volumes. *)
Theorem X16_ParseFileKey_one_loop (file_key : RegfKey) (m : Mediator) :
  _ParseFileKey file_key m
  = for_each _ParseFileReferenceKey
      (flat_map sub_keys (sub_keys file_key)) m.
Proof.
  unfold _ParseFileKey.
  apply (for_each_flat_map sub_keys _ParseFileReferenceKey).
Qed.

Lemma X5_entries_need_their_key_witness :
  (forall sub_key, In sub_key (sub_keys other_names_root) ->
     key_name sub_key <> "File")
  /\ filter is_file_entry (produced (_ParseRootKey other_names_root)) = [].
Proof.
  assert (H : forall sub_key, In sub_key (sub_keys other_names_root) ->
            key_name sub_key <> "File").
  { simpl. intros sub_key [<- | [<- | []]]; discriminate. }
  split; [exact H |].
  exact (proj1 (X5_entries_need_their_key other_names_root) H).
Defined.

(** ** The file entry decoder *)

Lemma in_sequence_cons_runs (c k : M unit) es r rest :
  Runs c es [] r ->
  Runs k (fst (in_sequence rest)) [] (snd (in_sequence rest)) ->
  Runs (c ;;; k) (fst (in_sequence ((es, r) :: rest))) []
    (snd (in_sequence ((es, r) :: rest))).
Proof.
  intros Hc Hk. destruct r as [[] | e]; simpl.
  - run_bind Hc. exact Hk.
  - apply Runs_bind_raise. exact Hc.
Qed.

Lemma in_sequence_single_runs (c : M unit) es r :
  Runs c es [] r ->
  Runs c (fst (in_sequence [(es, r)])) [] (snd (in_sequence [(es, r)])).
Proof.
  intros Hc. destruct r as [[] | e]; simpl; [| exact Hc].
  now rewrite app_nil_r.
Qed.

Lemma time_event_length regf_key name clock description event_data :
  List.length (time_event regf_key name clock description event_data) <= 1
  /\ forall e,
       In e (time_event regf_key name clock description event_data) ->
       snd e = event_data.
Proof.
  unfold time_event.
  destruct (get_value_by_name regf_key name) as [v |];
    [destruct (get_data_as_integer v) |]; simpl; split; try lia;
    intros e H; try contradiction.
  destruct H as [<- | []]. reflexivity.
Qed.

Lemma in_sequence_events steps n (data : EventData) :
  Forall (fun step => List.length (fst step) <= n
                      /\ forall e, In e (fst step) -> snd e = data) steps ->
  List.length (fst (in_sequence steps)) <= List.length steps * n
  /\ forall e, In e (fst (in_sequence steps)) -> snd e = data.
Proof.
  induction 1 as [| [es r] steps [Hlen Hdata] _ [IHlen IHdata]];
    simpl in *.
  - split; [lia | contradiction].
  - destruct r as [u | e]; simpl.
    + rewrite length_app. split; [lia |].
      intros e He. apply in_app_or in He. destruct He; auto.
    + split; [lia | exact Hdata].
Qed.

(** X7: the file entry decoder in all its cases.  When the loop over the
    mapping table raises, the decoder hands over no event and raises the
    same exception.  When the loop returns a record, the decoder goes
    through the time values "17", "12", "11" and "f" in this order: a
    value that is absent is passed over, a value read as an integer gives
    one event with the record, and the first value that is present and
    not read ends the decoder with the fault of its read, after the
    events of the values before it.  So the decoder hands over at most
    four events, and all of them carry the one record. *)
Theorem X7_ParseFileReferenceKey_cases (file_reference_key : RegfKey) :
  exists ws r,
    Runs (map_file_reference_values file_reference_key
            (AMCacheFileEventData.set_file_reference
               AMCacheFileEventData.init
               (file_reference_of (key_name file_reference_key))))
      [] ws r
    /\ match r with
       | Ok d =>
           Runs (_ParseFileReferenceKey file_reference_key)
             (fst (in_sequence (file_time_steps file_reference_key d))) ws
             (snd (in_sequence (file_time_steps file_reference_key d)))
           /\ List.length
                (fst (in_sequence (file_time_steps file_reference_key d)))
              <= 4
           /\ (forall e,
                 In e (fst (in_sequence
                              (file_time_steps file_reference_key d))) ->
                 snd e = FileEventData d)
       | Raise e =>
           Runs (_ParseFileReferenceKey file_reference_key) [] ws (Raise e)
       end.
Proof.
  destruct (Emits_map_file_reference_values (fun _ => False)
              file_reference_key
              (AMCacheFileEventData.set_file_reference
                 AMCacheFileEventData.init
                 (file_reference_of (key_name file_reference_key))))
    as (es & ws & r & Hmap & Hes).
  assert (es = []) as -> by (destruct es; [reflexivity | now inversion Hes]).
  exists ws, r. split; [exact Hmap |].
  destruct r as [d | e].
  - split;
      [| assert (Hsteps :
           Forall (fun step =>
                     List.length (fst step) <= 1
                     /\ forall e, In e (fst step) -> snd e = FileEventData d)
             (file_time_steps file_reference_key d))
           by (unfold file_time_steps;
               repeat (constructor; [apply time_event_length |]);
               constructor);
         exact (in_sequence_events _ 1 (FileEventData d) Hsteps)].
    unfold _ParseFileReferenceKey.
    eapply Runs_bind_ok_eq
      with (es2 := fst (in_sequence (file_time_steps file_reference_key d)))
           (ws2 := ws);
      [ exact (set_file_reference_from_name_runs
                 (key_name file_reference_key)) | | reflexivity | reflexivity ].
    eapply Runs_bind_ok_eq
      with (es2 := fst (in_sequence (file_time_steps file_reference_key d)))
           (ws2 := []);
      [ exact Hmap | | reflexivity | now rewrite app_nil_r ].
    unfold file_time_steps.
    refine (in_sequence_cons_runs _ _ _ _ _
              (time_step_runs file_reference_key _AMCACHE_ENTRY_WRITE_TIME
                 Filetime TIME_DESCRIPTION_MODIFICATION (FileEventData d)) _).
    refine (in_sequence_cons_runs _ _ _ _ _
              (time_step_runs file_reference_key _AMCACHE_FILE_CREATION_TIME
                 Filetime TIME_DESCRIPTION_CREATION (FileEventData d)) _).
    refine (in_sequence_cons_runs _ _ _ _ _
              (time_step_runs file_reference_key
                 _AMCACHE_FILE_MODIFICATION_TIME
                 Filetime TIME_DESCRIPTION_MODIFICATION (FileEventData d)) _).
    exact (in_sequence_single_runs _ _ _
             (time_step_runs file_reference_key _AMCACHE_COMPILATION_TIME
                PosixTime TIME_DESCRIPTION_CHANGE (FileEventData d))).
  - unfold _ParseFileReferenceKey.
    run_bind (set_file_reference_from_name_runs
                (key_name file_reference_key)).
    apply Runs_bind_raise. exact Hmap.
Qed.

(** ** The parser and the mediator *)

(** X12: [ParseFileObject] only appends to the mediator: the events and
    the warnings the mediator held stay as they are and in their order,
    and what is appended, like the outcome, is the same whatever the
    mediator held.  When [open_file_object] raises [IOError], nothing is
    appended and the parser returns without an exception; an exception of
    another class leaves the parser. *)
Theorem X12_ParseFileObject_appends (file_object : RegfFile) :
  exists es ws r,
    (forall m, ParseFileObject file_object m = (extend m es ws, r))
    /\ (forall e,
          open_file_object file_object = Raise e ->
          es = [] /\ ws = []
          /\ r = match exc_kind e with
                 | IOError => Ok tt
                 | _ => Raise e
                 end).
Proof.
  unfold ParseFileObject.
  destruct (open_file_object file_object) as [u | e].
  - destruct (get_key_by_path file_object "Root") as [root_key |].
    + eexists _, _, _. split; [exact (ParseRootKey_runs root_key) |].
      discriminate.
    + eexists _, _, _. split; [apply Runs_warning | discriminate].
  - exists [], [], (match exc_kind e with IOError => Ok tt | _ => Raise e end).
    split.
    + destruct (exc_kind e); first [apply Runs_ret | apply Runs_raise].
    + intros e' [= <-]. auto.
Qed.

(** ** The paths of the key-visit events *)

Lemma preorder_segments (regf_key : RegfKey) : forall segments p,
  In p (preorder segments regf_key) ->
  exists more, fst p = (segments ++ more)%list.
Proof.
  induction regf_key as [name time values subs IH] using RegfKey_ind'.
  intros segments p. simpl. intros [<- | Hin].
  - exists []. simpl. now rewrite app_nil_r.
  - apply in_flat_map in Hin. destruct Hin as (sub & Hsub & Hp).
    rewrite Forall_forall in IH.
    destruct (IH sub Hsub _ _ Hp) as (more & ->).
    exists (key_name sub :: more). now rewrite <- app_assoc.
Qed.

(** X2: every key-visit event of a walk of a Root key has a key path
    under "\Root": the path is "\Root" itself, for the Root key, or it
    starts with "\Root\", whatever the name of the Root key and the names
    of the keys below it are. *)
Theorem X2_key_paths_under_root (root_key : RegfKey)
    (e : DateTimeValuesEvent * EventData) :
  In e (produced (_ParseRootKey root_key)) ->
  is_key_visit e = true ->
  exists d,
    snd e = RegistryEventData d
    /\ (WindowsRegistryEventData.key_path d = "\Root"
        \/ String.prefix "\Root\" (WindowsRegistryEventData.key_path d)
           = true).
Proof.
  intros He Hk.
  destruct (ParseRootKey_key_visits root_key) as ((rest & Hpre) & _).
  assert (Hin : In e (visit_events (visited root_key))).
  { rewrite Hpre. apply in_or_app. left. apply filter_In. auto. }
  unfold visit_events in Hin. apply in_map_iff in Hin.
  destruct Hin as ([segments regf_key] & <- & Hin).
  eexists. split; [reflexivity |]. simpl.
  destruct Hin as [[= <- <-] | Hin]; [left; reflexivity | right].
  apply in_flat_map in Hin. destruct Hin as (sub & _ & Hp).
  apply preorder_segments in Hp. destruct Hp as (more & Hs).
  simpl in Hs. rewrite Hs. cbn.
  now destruct (match more with
                | [] => key_name sub
                | _ :: _ => key_name sub ++ String "\" (String.concat "\" more)
                end).
Qed.

Lemma X2_key_paths_under_root_witness :
  In (key_visit_event None "\Root\file\Volume" (mkKey "Volume" 3 [] [good_file_key]))
    (produced (_ParseRootKey other_names_root))
  /\ exists d,
       RegistryEventData
         (WindowsRegistryEventData.mk "\Root\file\Volume" None)
       = RegistryEventData d
       /\ (WindowsRegistryEventData.key_path d = "\Root"
           \/ String.prefix "\Root\" (WindowsRegistryEventData.key_path d)
              = true).
Proof.
  assert (H : In (key_visit_event None "\Root\file\Volume"
                    (mkKey "Volume" 3 [] [good_file_key]))
                (produced (_ParseRootKey other_names_root))).
  { vm_compute. right. right. left. reflexivity. }
  split; [exact H |].
  exact (X2_key_paths_under_root other_names_root _ H eq_refl).
Defined.

(** ** The dictionary of the values, whatever their names *)

Lemma dict_get_set (d : dict) (k v name : string) :
  dict_get (dict_set d k v) name
  = if k =? name then Some v else dict_get d name.
Proof.
  induction d as [| [k' v'] d IH]; simpl.
  - reflexivity.
  - destruct (k' =? k) eqn:E; simpl.
    + apply String.eqb_eq in E. subst k'.
      destruct (k =? name); reflexivity.
    + rewrite IH. destruct (k' =? name) eqn:E'; [| reflexivity].
      apply String.eqb_eq in E'. subst name.
      rewrite String.eqb_sym, E. reflexivity.
Qed.

Lemma dict_set_In_key (d : dict) (k v name : string) :
  In name (map fst (dict_set d k v)) <-> name = k \/ In name (map fst d).
Proof.
  induction d as [| [k' v'] d IH]; simpl.
  - intuition.
  - destruct (k' =? k) eqn:E; simpl.
    + apply String.eqb_eq in E. subst k'. intuition.
    + rewrite IH. intuition.
Qed.

Lemma dict_set_NoDup (d : dict) (k v : string) :
  NoDup (map fst d) -> NoDup (map fst (dict_set d k v)).
Proof.
  induction d as [| [k' v'] d IH]; simpl; intros Hnd.
  - constructor; [intros [] | constructor].
  - inversion Hnd as [| ? ? Hnotin Hnd']; subst.
    destruct (k' =? k) eqn:E; simpl.
    + apply String.eqb_eq in E. subst k'. now constructor.
    + constructor; [| auto].
      rewrite dict_set_In_key. intros [-> | Hin]; [| contradiction].
      rewrite String.eqb_refl in E. discriminate.
Qed.

Lemma dict_set_not_nil (d : dict) (k v : string) : dict_set d k v <> [].
Proof.
  destruct d as [| [k' v'] d]; simpl; [discriminate |].
  destruct (k' =? k); discriminate.
Qed.

Lemma find_app' {A} (f : A -> bool) (l1 l2 : list A) :
  find f (l1 ++ l2)
  = match find f l1 with
    | Some x => Some x
    | None => find f l2
    end.
Proof.
  induction l1 as [| x l1 IH]; simpl; [reflexivity |].
  destruct (f x); [reflexivity | exact IH].
Qed.

Lemma last_named_cons (name : string) (v : RegfValue) (l : list RegfValue) :
  last_named name (v :: l)
  = match last_named name l with
    | Some x => Some x
    | None => if name_or_default v =? name then Some v else None
    end.
Proof.
  unfold last_named. simpl. rewrite find_app'.
  destruct (find (fun v0 => name_or_default v0 =? name) (rev l));
    [reflexivity |].
  simpl. destruct (name_or_default v =? name); reflexivity.
Qed.

Lemma fold_dict_get (l : list RegfValue) : forall (d : dict) (name : string),
  dict_get
    (fold_left (fun d v => dict_set d (name_or_default v) (rendered v)) l d)
    name
  = match last_named name l with
    | Some v => Some (rendered v)
    | None => dict_get d name
    end.
Proof.
  induction l as [| v l IH]; intros d name.
  - reflexivity.
  - cbn [fold_left]. rewrite IH, last_named_cons.
    destruct (last_named name l); [reflexivity |].
    rewrite dict_get_set.
    destruct (name_or_default v =? name); reflexivity.
Qed.

Lemma fold_dict_keys (l : list RegfValue) : forall (d : dict),
  NoDup (map fst d) ->
  NoDup (map fst
           (fold_left (fun d v => dict_set d (name_or_default v) (rendered v))
              l d))
  /\ forall name,
       In name
         (map fst
            (fold_left
               (fun d v => dict_set d (name_or_default v) (rendered v)) l d))
       <-> In name (map fst d) \/ In name (map name_or_default l).
Proof.
  induction l as [| v l IH]; intros d Hnd; cbn [fold_left].
  - split; [exact Hnd |]. intros name. simpl. intuition.
  - destruct (IH _ (dict_set_NoDup d (name_or_default v) (rendered v) Hnd))
      as (Hnd' & Hin).
    split; [exact Hnd' |]. intros name.
    rewrite Hin, dict_set_In_key. simpl. intuition.
Qed.

Lemma fold_dict_nil (l : list RegfValue) : forall (d : dict),
  fold_left (fun d v => dict_set d (name_or_default v) (rendered v)) l d = []
  <-> l = [] /\ d = [].
Proof.
  induction l as [| v l IH]; intros d; cbn [fold_left].
  - intuition.
  - rewrite IH. split.
    + intros [_ H]. now apply dict_set_not_nil in H.
    + intros [H _]. discriminate H.
Qed.

(** X9: the dictionary of the values of a key, whatever the names of the
    values.  [_GetValuesFromKey] hands over no event.  It raises, with the
    [TypeError] of the formatting of the warning, exactly when a value
    that is not skipped has data, no name and a read that faults.
    Otherwise it returns a dictionary that holds no name twice; its names
    are the display names of the values that are not skipped; and under a
    name it holds the text of the last value of the key, in the order of
    the key, that is not skipped and shows under this name: a later value
    replaces an earlier one of the same display name. *)
Theorem X9_values_dict_last_wins (regf_key : RegfKey)
    (names_to_skip : option (list string)) :
  exists ws r,
    Runs (_GetValuesFromKey regf_key names_to_skip) [] ws r
    /\ match r with
       | Ok values_dict =>
           (forall v, In v (key_values regf_key) ->
              skipped names_to_skip v = false -> ~ unformattable v)
           /\ NoDup (map fst values_dict)
           /\ (forall name,
                 In name (map fst values_dict) <->
                 exists v, In v (key_values regf_key)
                           /\ skipped names_to_skip v = false
                           /\ name_or_default v = name)
           /\ (forall name,
                 dict_get values_dict name
                 = option_map rendered
                     (last_named name (kept_values names_to_skip regf_key)))
       | Raise e =>
           e = format_type_error
           /\ exists v, In v (key_values regf_key)
                        /\ skipped names_to_skip v = false
                        /\ unformattable v
       end.
Proof.
  exists (key_warnings names_to_skip regf_key),
    (values_outcome names_to_skip regf_key).
  split; [apply GetValuesFromKey_runs |].
  unfold values_outcome.
  destruct (first_fault (kept_values names_to_skip regf_key)) as [e |] eqn:E;
    [exact (kept_fault_some _ _ _ E) |].
  split; [exact (proj1 (kept_fault_none _ _) E) |].
  unfold values_dict_of.
  destruct (fold_dict_keys (kept_values names_to_skip regf_key) []
              (NoDup_nil _)) as (Hnd & Hin).
  split; [exact Hnd |]. split.
  - intros name. rewrite Hin. simpl. rewrite in_map_iff. split.
    + intros [[] | (v & Hv & Hk)]. apply kept_values_In in Hk.
      exists v. tauto.
    + intros (v & Hv & Hs & Hn). right. exists v.
      rewrite kept_values_In. auto.
  - intros name. rewrite fold_dict_get.
    destruct (last_named name (kept_values names_to_skip regf_key));
      reflexivity.
Qed.

(** X10: the default event of a key, whatever the names of its values.
    The producer raises, handing over no event, exactly when a value that
    is not skipped has data, no name and a read that faults.  Otherwise it
    hands over exactly one event, of the last written time of the key,
    and returns; the entries of the value summary of the event are in the
    strict order of their names, so that no name shows twice, and the
    summary is absent exactly when the key has no value that is not
    skipped. *)
Theorem X10_summary_names_increase (regf_key : RegfKey) (key_path : string)
    (names_to_skip : option (list string)) :
  exists es ws r,
    Runs (_ProduceDefaultWindowsRegistryEvent regf_key key_path names_to_skip)
      es ws r
    /\ match r with
       | Ok _ =>
           exists values_dict,
             Runs (_GetValuesFromKey regf_key names_to_skip) [] ws
               (Ok values_dict)
             /\ es = [(mkEvent
                      (Filetime (get_last_written_time_as_integer regf_key))
                      TIME_DESCRIPTION_WRITTEN,
                    RegistryEventData
                      (WindowsRegistryEventData.mk key_path
                         (values_text values_dict)))]
             /\ (forall v, In v (key_values regf_key) ->
                   skipped names_to_skip v = false -> ~ unformattable v)
             /\ values_text values_dict
                = match sorted values_dict with
                  | [] => None
                  | items => Some (join " " (map entry_text items))
                  end
             /\ Permutation values_dict (sorted values_dict)
             /\ StronglySorted
                  (fun a b => String.compare (fst a) (fst b) = Lt)
                  (sorted values_dict)
             /\ (values_text values_dict = None <->
                 forall v, In v (key_values regf_key) ->
                           skipped names_to_skip v = true)
       | Raise e =>
           es = []
           /\ e = format_type_error
           /\ exists v, In v (key_values regf_key)
                        /\ skipped names_to_skip v = false
                        /\ unformattable v
       end.
Proof.
  exists (key_visit_events names_to_skip key_path regf_key),
    (key_warnings names_to_skip regf_key),
    (key_visit_outcome names_to_skip regf_key).
  split; [apply ProduceDefaultWindowsRegistryEvent_runs |].
  unfold key_visit_events, key_visit_outcome.
  destruct (first_fault (kept_values names_to_skip regf_key)) as [e |] eqn:E;
    [split; [reflexivity | exact (kept_fault_some _ _ _ E)] |].
  exists (values_dict_of names_to_skip regf_key).
  split.
  { pose proof (GetValuesFromKey_runs regf_key names_to_skip) as H.
    unfold values_outcome in H. now rewrite E in H. }
  split; [reflexivity |].
  split; [exact (proj1 (kept_fault_none _ _) E) |].
  assert (Hnd : NoDup (map fst (values_dict_of names_to_skip regf_key))).
  { unfold values_dict_of.
    apply (fold_dict_keys (kept_values names_to_skip regf_key) []
             (NoDup_nil _)). }
  split; [| split; [apply sorted_perm | split]].
  - rewrite values_text_spec.
    destruct (values_dict_of names_to_skip regf_key) as [| x d] eqn:Ed;
      [reflexivity |].
    destruct (sorted (x :: d)) eqn:Es; [| reflexivity].
    apply (proj1 (sorted_nil_iff _)) in Es. discriminate Es.
  - apply ordered_by_name; [apply sorted_ordered |].
    eapply Permutation_NoDup; [| exact Hnd].
    apply Permutation_map, sorted_perm.
  - rewrite values_text_spec.
    assert (Hnil : values_dict_of names_to_skip regf_key = []
                   <-> kept_values names_to_skip regf_key = []).
    { unfold values_dict_of. rewrite fold_dict_nil. tauto. }
    split.
    + intros H v Hv.
      destruct (values_dict_of names_to_skip regf_key) eqn:Ed;
        [| discriminate H].
      destruct (skipped names_to_skip v) eqn:Hs; [reflexivity |].
      assert (Hin : In v (kept_values names_to_skip regf_key))
        by (apply kept_values_In; auto).
      rewrite (proj1 Hnil eq_refl) in Hin. contradiction.
    + intros H.
      assert (Hk : kept_values names_to_skip regf_key = []).
      { destruct (kept_values names_to_skip regf_key) as [| v l] eqn:Ek;
          [reflexivity |].
        assert (Hin : In v (kept_values names_to_skip regf_key))
          by (rewrite Ek; now left).
        apply kept_values_In in Hin. destruct Hin as [Hv Hs].
        rewrite (H v Hv) in Hs. discriminate. }
      now rewrite (proj2 Hnil Hk).
Qed.

(** X11: a value that has data and cannot be read, in the display
    formatter.  For a value with a name the formatter does not raise: it
    produces the one warning of the value decoder, which names the value,
    and the text of the value in the dictionary is "[]" for a multi-string
    value and "None" for a string or an integer value.  For the default
    value, which has no name, the formatting of the warning raises
    [TypeError]: the formatter produces no warning and no text, and the
    exception leaves it. *)
Theorem X11_unreadable_value_text (regf_value : RegfValue) (f : ReadFault) :
  value_data regf_value <> None ->
  read_value_data regf_value = Fault f ->
  match value_name regf_value with
  | Some name =>
      Runs (value_string_of regf_value) []
        ["Unable to read data from value: " ++ name ++
         " with error: " ++ exc_msg (exc_of_fault f)]
        (Ok (match value_type regf_value with
             | REG_MULTI_SZ => "[]"
             | _ => "None"
             end))
  | None =>
      Runs (value_string_of regf_value) [] []
        (Raise
           (mkExc TypeError
              "unsupported format string passed to NoneType.__format__"))
  end.
Proof.
  intros Hd Hf.
  pose proof (value_string_of_runs regf_value) as H.
  unfold rendered_warnings, render_outcome, decode_warnings, decode_outcome,
    rendered in H.
  rewrite Hf in H. unfold read_value_data in Hf.
  destruct (value_data regf_value) as [b |]; [| congruence].
  destruct (value_name regf_value) as [name |]; [| exact H].
  destruct (value_type regf_value);
    try destruct (get_data_as_string regf_value);
    try destruct (get_data_as_integer regf_value);
    try destruct (get_data_as_multi_string regf_value);
    try discriminate Hf; injection Hf as <-; exact H.
Qed.

Lemma X11_unreadable_value_text_witness :
  value_data (unreadable_sz_value "101") <> None
  /\ read_value_data (unreadable_sz_value "101")
     = Fault (IOFault "unable to retrieve string")
  /\ Runs (value_string_of (unreadable_sz_value "101")) []
       ["Unable to read data from value: 101 with error: " ++
        "unable to retrieve string"]
       (Ok "None")
  /\ value_data unreadable_default_value <> None
  /\ read_value_data unreadable_default_value
     = Fault (IOFault "unable to retrieve string")
  /\ Runs (value_string_of unreadable_default_value) [] []
       (Raise
          (mkExc TypeError
             "unsupported format string passed to NoneType.__format__")).
Proof.
  split; [discriminate |]. split; [reflexivity |].
  split;
    [ apply (X11_unreadable_value_text (unreadable_sz_value "101")
               (IOFault "unable to retrieve string"));
      [discriminate | reflexivity] |].
  split; [discriminate |]. split; [reflexivity |].
  apply (X11_unreadable_value_text unreadable_default_value
           (IOFault "unable to retrieve string"));
    [discriminate | reflexivity].
Defined.

(** ** The warnings of the parser *)

Lemma Warns_of_Runs {A} P (c : M A) es ws r :
  Runs c es ws r -> Forall P ws -> Warns P c.
Proof. intros H HP. exists es, ws, r. auto. Qed.

Lemma Warns_warned {A} P (c : M A) : Warns P c -> Forall P (warned c).
Proof.
  intros (es & ws & r & H & HP).
  destruct (Runs_produced _ _ _ _ H) as (_ & -> & _). exact HP.
Qed.

Lemma Warns_ret {A} P (a : A) : Warns P (ret a).
Proof. eapply Warns_of_Runs; [apply Runs_ret | constructor]. Qed.

Lemma Warns_raise {A} P (e : Exc) : Warns P (@raise A e).
Proof. eapply Warns_of_Runs; [apply Runs_raise | constructor]. Qed.

Lemma Warns_lift_res {A} P (r : res A) : Warns P (lift_res r).
Proof. eapply Warns_of_Runs; [apply Runs_lift_res | constructor]. Qed.

Lemma Warns_call {A} P (r : read A) : Warns P (call r).
Proof. destruct r; [apply Warns_ret | apply Warns_raise]. Qed.

Lemma Warns_event P event event_data :
  Warns P (ProduceEventWithEventData event event_data).
Proof. eapply Warns_of_Runs; [apply Runs_event | constructor]. Qed.

Lemma Warns_bind {A B} P (c : M A) (k : A -> M B) :
  Warns P c -> (forall a, Warns P (k a)) -> Warns P (bind c k).
Proof.
  intros (es & ws & [a | e] & Hc & HP) Hk.
  - destruct (Hk a) as (es' & ws' & r' & Hk' & HP').
    exists (es ++ es')%list, (ws ++ ws')%list, r'. split.
    + eapply Runs_bind_ok; eauto.
    + apply Forall_app; auto.
  - exists es, ws, (Raise e). split; [| exact HP].
    apply Runs_bind_raise; exact Hc.
Qed.

Lemma Warns_for_each {A} P (body : A -> M unit) (l : list A) :
  (forall x, In x l -> Warns P (body x)) -> Warns P (for_each body l).
Proof.
  induction l as [| x l IH]; intros Hb; simpl.
  - apply Warns_ret.
  - apply Warns_bind; [apply Hb; now left |].
    intros _. apply IH. intros y Hy. apply Hb. now right.
Qed.

Lemma Warns_for_fold {A S} P (body : A -> S -> M S) (l : list A) :
  (forall x s, Warns P (body x s)) -> forall s, Warns P (for_fold body l s).
Proof.
  intros Hb. induction l as [| x l IH]; intros s; simpl.
  - apply Warns_ret.
  - apply Warns_bind; auto.
Qed.

Ltac warns :=
  repeat first
    [ apply Warns_ret | apply Warns_raise | apply Warns_lift_res
    | apply Warns_call | apply Warns_event
    | apply Warns_bind; [| intros ? ]
    | match goal with
      | |- Warns _ (match ?x with _ => _ end) => destruct x
      | |- Warns _ (if ?x then _ else _) => destruct x
      end ].

(** *** The keys of the tree *)

Lemma preorder_self (regf_key : RegfKey) (segments : list string) :
  In (segments, regf_key) (preorder segments regf_key).
Proof. destruct regf_key. now left. Qed.

Lemma preorder_child (regf_key : RegfKey) :
  forall segments0 segments key sub_key,
    In (segments, key) (preorder segments0 regf_key) ->
    In sub_key (sub_keys key) ->
    In ((segments ++ [key_name sub_key])%list, sub_key)
      (preorder segments0 regf_key).
Proof.
  induction regf_key as [name time values subs IH] using RegfKey_ind'.
  intros segments0 segments key sub_key Hin Hsub.
  cbn [preorder] in Hin |- *. cbn [sub_keys] in Hin |- *.
  right. apply in_flat_map.
  destruct Hin as [[= <- <-] | Hin].
  - exists sub_key. split; [exact Hsub | apply preorder_self].
  - apply in_flat_map in Hin. destruct Hin as (sub & Hs & Hin).
    exists sub. split; [exact Hs |].
    rewrite Forall_forall in IH. exact (IH sub Hs _ _ _ _ Hin Hsub).
Qed.

Lemma visited_preorder (root_key : RegfKey) :
  visited root_key = preorder [""; "Root"] root_key.
Proof. destruct root_key; reflexivity. Qed.

Lemma visited_root (root_key : RegfKey) :
  In ([""; "Root"], root_key) (visited root_key).
Proof. now left. Qed.

Lemma visited_child (root_key : RegfKey) segments key sub_key :
  In (segments, key) (visited root_key) ->
  In sub_key (sub_keys key) ->
  In ((segments ++ [key_name sub_key])%list, sub_key) (visited root_key).
Proof. rewrite visited_preorder. apply preorder_child. Qed.

(** *** The warnings are for values of the tree *)

Lemma decode_warnings_read (root_key : RegfKey) segments key v :
  In (segments, key) (visited root_key) ->
  In v (key_values key) ->
  Forall (is_read_warning root_key) (decode_warnings v).
Proof.
  intros Hkey Hv. unfold decode_warnings.
  destruct (read_value_data v) as [x | f] eqn:E; [constructor |].
  destruct (value_name v) as [name |] eqn:En; constructor; [| constructor].
  exists segments, key, v, name, f. auto.
Qed.

Lemma Warns_found_value (root_key : RegfKey) segments key name v :
  In (segments, key) (visited root_key) ->
  get_value_by_name key name = Some v ->
  Warns (is_read_warning root_key) (_GetValueDataAsObject v).
Proof.
  intros Hkey Hget. destruct (found_value_name _ _ _ Hget) as [_ Hv].
  eapply Warns_of_Runs; [apply GetValueDataAsObject_runs |].
  exact (decode_warnings_read root_key segments key v Hkey Hv).
Qed.

Lemma before_fault_incl (l : list RegfValue) (v : RegfValue) :
  In v (before_fault l) -> In v l.
Proof.
  induction l as [| x l IH]; simpl; [tauto |].
  destruct (render_outcome x); [| intros []].
  intros [<- | H]; auto.
Qed.

Lemma key_warnings_read (root_key : RegfKey) names_to_skip segments key :
  In (segments, key) (visited root_key) ->
  Forall (is_read_warning root_key) (key_warnings names_to_skip key).
Proof.
  intros Hkey. unfold key_warnings. apply Forall_forall. intros w Hw.
  apply in_flat_map in Hw. destruct Hw as (v & Hv & Hw).
  apply before_fault_incl, kept_values_In in Hv. destruct Hv as [Hv _].
  unfold rendered_warnings in Hw.
  destruct (value_data v); [| contradiction].
  pose proof (decode_warnings_read root_key segments key v Hkey Hv) as H.
  rewrite Forall_forall in H. exact (H w Hw).
Qed.

Lemma Warns_ParseFileReferenceKey (root_key : RegfKey) segments key :
  In (segments, key) (visited root_key) ->
  Warns (is_read_warning root_key) (_ParseFileReferenceKey key).
Proof.
  intros Hkey. unfold _ParseFileReferenceKey.
  apply Warns_bind; [unfold set_file_reference_from_name; warns | intros d0].
  apply Warns_bind; [| intros d; warns].
  unfold map_file_reference_values. apply Warns_for_fold.
  intros item d. unfold file_value_step.
  destruct (get_value_by_name key (fst item)) as [v |] eqn:Hget;
    [| apply Warns_ret].
  apply Warns_bind;
    [exact (Warns_found_value _ _ _ _ _ Hkey Hget) | intros value_data].
  warns.
Qed.

Lemma Warns_ParseProgramKey (root_key : RegfKey) segments key :
  In (segments, key) (visited root_key) ->
  Warns (is_read_warning root_key) (_ParseProgramKey key).
Proof.
  intros Hkey. unfold _ParseProgramKey.
  apply Warns_bind; [| intros d; warns].
  unfold map_program_values. apply Warns_for_fold.
  intros item d. unfold program_value_step.
  destruct (get_value_by_name key (fst item)) as [v |] eqn:Hget;
    [| apply Warns_ret].
  apply Warns_bind;
    [exact (Warns_found_value _ _ _ _ _ Hkey Hget) | intros value_data].
  warns.
Qed.

Lemma Warns_specialized (root_key sub_key : RegfKey) :
  In sub_key (sub_keys root_key) ->
  Warns (is_read_warning root_key) (specialized sub_key).
Proof.
  intros Hsub.
  pose proof (visited_child root_key _ _ _ (visited_root root_key) Hsub)
    as Hin.
  unfold specialized.
  destruct (key_name sub_key =? "File");
    [| destruct (key_name sub_key =? "Programs")].
  - unfold _ParseFileKey. apply Warns_for_each. intros volume_key Hvol.
    pose proof (visited_child root_key _ _ _ Hin Hvol) as Hin'.
    apply Warns_for_each. intros k Hk.
    eapply Warns_ParseFileReferenceKey.
    exact (visited_child root_key _ _ _ Hin' Hk).
  - unfold _ParseProgramsKey. apply Warns_for_each. intros k Hk.
    eapply Warns_ParseProgramKey.
    exact (visited_child root_key _ _ _ Hin Hk).
  - apply Warns_ret.
Qed.

Lemma root_warnings_read (root_key : RegfKey) :
  Forall (is_read_warning root_key) (warned (_ParseRootKey root_key)).
Proof.
  destruct (Runs_produced _ _ _ _ (ParseRootKey_runs root_key))
    as (_ & -> & _).
  apply run_steps_warnings_Forall. intros step Hstep.
  destruct (root_steps_cases _ _ Hstep)
    as [([segments key] & Hp & ->) | (sub & Hsub & ->)].
  - exact (key_warnings_read root_key None segments key Hp).
  - apply Warns_warned, Warns_specialized, Hsub.
Qed.

(** X13: the parser produces warnings of two kinds only.  On a hive
    without a Root key its one warning is "Root key missing from
    AMCache.hve file."; on a hive with a Root key every warning is the
    warning of the value decoder for a value of a key of the tree of this
    Root key: the value has a name, its read has faulted, and the warning
    gives this name and the message of this fault.  A hive that cannot be
    opened gives no warning at all. *)
Theorem X13_warnings_of_the_parser (file_object : RegfFile) (w : string) :
  In w (warned (ParseFileObject file_object)) ->
  open_file_object file_object = Ok tt
  /\ match get_key_by_path file_object "Root" with
     | None =>
         warned (ParseFileObject file_object)
         = ["Root key missing from AMCache.hve file."]
     | Some root_key => is_read_warning root_key w
     end.
Proof.
  unfold ParseFileObject.
  destruct (open_file_object file_object) as [[] | e].
  - destruct (get_key_by_path file_object "Root") as [root_key |].
    + intros Hw. split; [reflexivity |].
      pose proof (root_warnings_read root_key) as H.
      rewrite Forall_forall in H. exact (H w Hw).
    + intros _. split; reflexivity.
  - destruct (exc_kind e); intros [].
Qed.

Lemma X13_warnings_of_the_parser_witness :
  In ("Unable to read data from value: 101 with error: " ++
      "unable to retrieve string")
    (warned (ParseFileObject (hive_of unreadable_sha1_root)))
  /\ is_read_warning unreadable_sha1_root
       ("Unable to read data from value: 101 with error: " ++
        "unable to retrieve string").
Proof.
  assert (H : In ("Unable to read data from value: 101 with error: " ++
                  "unable to retrieve string")
                (warned (ParseFileObject (hive_of unreadable_sha1_root)))).
  { vm_compute. left. reflexivity. }
  split; [exact H |].
  exact (proj2 (X13_warnings_of_the_parser
                  (hive_of unreadable_sha1_root) _ H)).
Defined.

(** ** The attributes of the program record *)

Lemma program_getattr_setattr_same d attribute_name v :
  In attribute_name AMCacheProgramEventData.attributes ->
  program_getattr (AMCacheProgramEventData.setattr d attribute_name v)
    attribute_name
  = Some v.
Proof.
  intros Hin. simpl in Hin.
  repeat (destruct Hin as [<- | Hin]; [reflexivity |]). contradiction.
Qed.

Lemma program_getattr_setattr_other d a a' v :
  a <> a' ->
  program_getattr (AMCacheProgramEventData.setattr d a v) a'
  = program_getattr d a'.
Proof.
  intros Hne. unfold AMCacheProgramEventData.setattr.
  repeat match goal with
    | |- context [if a =? ?b then _ else _] => destruct (a =? b) eqn:?
    end; try reflexivity;
    match goal with
    | H : (a =? _) = true |- _ => apply String.eqb_eq in H; subst a
    end;
    unfold program_getattr;
    repeat match goal with
      | |- context [if a' =? ?b then _ else _] => destruct (a' =? b) eqn:?
      end; try reflexivity;
    exfalso; apply Hne; symmetry; now apply String.eqb_eq.
Qed.

Lemma program_getattr_init attribute_name :
  In attribute_name AMCacheProgramEventData.attributes ->
  program_getattr AMCacheProgramEventData.init attribute_name = Some PyNone.
Proof.
  intros Hin. simpl in Hin.
  repeat (destruct Hin as [<- | Hin]; [reflexivity |]). contradiction.
Qed.

Lemma program_table_attributes_distinct :
  NoDup (map snd _PRODUCT_KEY_VALUES).
Proof. unfold _PRODUCT_KEY_VALUES; simpl. nodup_strings. Qed.

Lemma program_table_attribute_known item :
  In item _PRODUCT_KEY_VALUES ->
  In (snd item) AMCacheProgramEventData.attributes.
Proof.
  intros Hin. pose proof program_attributes_known as H.
  rewrite forallb_forall in H. specialize (H item Hin).
  apply existsb_exists in H. destruct H as (a & Ha & Heq).
  apply String.eqb_eq in Heq. now subst.
Qed.

(** The loop over a table of names of attributes that differ: it never
    raises, an attribute of the table is the decoded value of its value
    name when the key holds such a value and is left alone when it does
    not, and the other attributes are left alone. *)
Lemma program_fold_attributes key (l : list (string * string)) :
  NoDup (map snd l) ->
  (forall item, In item l ->
     In (snd item) AMCacheProgramEventData.attributes) ->
  forall d0, exists ws d,
    Runs (for_fold (program_value_step key) l d0) [] ws (Ok d)
    /\ (forall item, In item l ->
          program_getattr d (snd item)
          = match get_value_by_name key (fst item) with
            | Some v => Some (decoded v)
            | None => program_getattr d0 (snd item)
            end)
    /\ (forall a, ~ In a (map snd l) ->
          program_getattr d a = program_getattr d0 a).
Proof.
  induction l as [| item l IH]; intros Hnd Hknown d0.
  - exists [], d0. split; [apply Runs_ret |]. split; [intros ? [] | auto].
  - simpl in Hnd. inversion Hnd as [| ? ? Hnotin Hnd']; subst.
    assert (Hstep :
      Runs (program_value_step key item d0) []
        (match get_value_by_name key (fst item) with
         | Some v => decode_warnings v
         | None => []
         end)
        (Ok (match get_value_by_name key (fst item) with
             | Some v =>
                 AMCacheProgramEventData.setattr d0 (snd item) (decoded v)
             | None => d0
             end))).
    { unfold program_value_step.
      destruct (get_value_by_name key (fst item)) as [value |] eqn:Hget;
        [| apply Runs_ret].
      run_bind (found_value_runs _ _ _ Hget). apply Runs_ret. }
    destruct (IH Hnd' (fun it Hit => Hknown it (or_intror Hit))
                (match get_value_by_name key (fst item) with
                 | Some v =>
                     AMCacheProgramEventData.setattr d0 (snd item) (decoded v)
                 | None => d0
                 end))
      as (ws' & d & Hrun & Hitems & Hother).
    eexists _, d. split; [| split].
    + cbn [for_fold]. run_bind Hstep. exact Hrun.
    + intros it [<- | Hin].
      * rewrite (Hother _ Hnotin).
        destruct (get_value_by_name key (fst item)); [| reflexivity].
        apply program_getattr_setattr_same, Hknown. now left.
      * rewrite (Hitems it Hin).
        destruct (get_value_by_name key (fst it)); [reflexivity |].
        destruct (get_value_by_name key (fst item)); [| reflexivity].
        apply program_getattr_setattr_other.
        intros Heq. apply Hnotin. rewrite Heq. now apply in_map.
    + intros a Ha. simpl in Ha. rewrite Hother by tauto.
      destruct (get_value_by_name key (fst item)); [| reflexivity].
      apply program_getattr_setattr_other. tauto.
Qed.

Lemma map_program_values_attributes (program_key : RegfKey) :
  exists ws d,
    Runs (map_program_values program_key AMCacheProgramEventData.init)
      [] ws (Ok d)
    /\ (forall value_name attribute_name,
          In (value_name, attribute_name) _PRODUCT_KEY_VALUES ->
          program_getattr d attribute_name
          = Some (match get_value_by_name program_key value_name with
                  | Some v => decoded v
                  | None => PyNone
                  end))
    /\ AMCacheProgramEventData.files d = PyNone.
Proof.
  destruct (program_fold_attributes program_key _PRODUCT_KEY_VALUES
              program_table_attributes_distinct
              program_table_attribute_known AMCacheProgramEventData.init)
    as (ws & d & Hrun & Hitems & Hother).
  exists ws, d. split; [exact Hrun |]. split.
  - intros value_name attribute_name Hin.
    pose proof (Hitems _ Hin) as Hitem. simpl fst in Hitem.
    simpl snd in Hitem. rewrite Hitem.
    destruct (get_value_by_name program_key value_name); [reflexivity |].
    apply program_getattr_init.
    exact (program_table_attribute_known _ Hin).
  - assert (H : program_getattr d "files" = Some PyNone).
    { rewrite Hother; [reflexivity |].
      unfold _PRODUCT_KEY_VALUES. simpl. intuition discriminate. }
    now injection H.
Qed.

Lemma ParseProgramKey_runs (program_key : RegfKey) ws d :
  Runs (map_program_values program_key AMCacheProgramEventData.init)
    [] ws (Ok d) ->
  Runs (_ParseProgramKey program_key)
    (time_event program_key _AMCACHE_P_INSTALLATION_TIME PosixTime
       TIME_DESCRIPTION_INSTALLATION (ProgramEventData d))
    ws (time_outcome program_key _AMCACHE_P_INSTALLATION_TIME).
Proof.
  intros Hmap. unfold _ParseProgramKey.
  eapply Runs_bind_ok_eq;
    [ exact Hmap | apply time_step_runs | reflexivity
    | now rewrite app_nil_r ].
Qed.

(** X15: the record of a program key.  The loop over the mapping table
    never raises, and it gives every attribute of the table the decoded
    value of the value of its name, or leaves it [None] when the key has
    no value of that name; a value that cannot be read gives [None] too.
    The attribute [files], which the table does not name, stays [None].
    Every event of the program key carries this record. *)
Theorem X15_program_attributes (program_key : RegfKey) :
  exists ws d,
    Runs (map_program_values program_key AMCacheProgramEventData.init)
      [] ws (Ok d)
    /\ (forall value_name attribute_name,
          In (value_name, attribute_name) _PRODUCT_KEY_VALUES ->
          program_getattr d attribute_name
          = Some (match get_value_by_name program_key value_name with
                  | Some v => decoded v
                  | None => PyNone
                  end))
    /\ AMCacheProgramEventData.files d = PyNone
    /\ (forall e,
          In e (produced (_ParseProgramKey program_key)) ->
          snd e = ProgramEventData d).
Proof.
  destruct (map_program_values_attributes program_key)
    as (ws & d & Hmap & Hattrs & Hfiles).
  exists ws, d. repeat split; auto.
  intros e He.
  destruct (Runs_produced _ _ _ _ (ParseProgramKey_runs program_key ws d Hmap))
    as (Hes & _).
  rewrite Hes in He.
  exact (proj2 (time_event_length _ _ _ _ _) e He).
Qed.

(** ** What no event carries *)

Lemma Emits_ParseProgramKey_files (program_key : RegfKey) :
  Emits (fun e => forall d, snd e = ProgramEventData d ->
                            AMCacheProgramEventData.files d = PyNone)
    (_ParseProgramKey program_key).
Proof.
  destruct (map_program_values_attributes program_key)
    as (ws & d & Hmap & _ & Hfiles).
  eapply Emits_of_Runs; [exact (ParseProgramKey_runs program_key ws d Hmap) |].
  apply Forall_forall. intros e He d' Hd'.
  rewrite (proj2 (time_event_length _ _ _ _ _) e He) in Hd'.
  injection Hd' as <-. exact Hfiles.
Qed.

(** X14: the parser never fills the attribute [files] of a program
    record: in every program entry event that a run of the parser hands
    over, on any hive, [files] is [None]. *)
Theorem X14_files_never_set (file_object : RegfFile)
    (e : DateTimeValuesEvent * EventData) (d : AMCacheProgramEventData.t) :
  In e (produced (ParseFileObject file_object)) ->
  snd e = ProgramEventData d ->
  AMCacheProgramEventData.files d = PyNone.
Proof.
  unfold ParseFileObject.
  destruct (open_file_object file_object) as [[] | ex];
    [| destruct (exc_kind ex); intros []].
  destruct (get_key_by_path file_object "Root") as [root_key |];
    [| intros []].
  intros He. revert d.
  assert (H : Forall
    (fun e => forall d, snd e = ProgramEventData d ->
                        AMCacheProgramEventData.files d = PyNone)
    (produced (_ParseRootKey root_key))).
  { apply root_events_Forall.
    - intros [ev [d | d | d]] Hk d' Hd'; try discriminate Hk.
      discriminate Hd'.
    - intros sub_key _. unfold specialized.
      destruct (key_name sub_key =? "File");
        [| destruct (key_name sub_key =? "Programs")].
      + eapply Forall_impl;
          [| exact (Emits_produced _ _ (Emits_ParseFileKey sub_key))].
        intros [ev [d | d | d]] Hk d' Hd'; try discriminate Hk.
        discriminate Hd'.
      + apply Emits_produced. unfold _ParseProgramsKey.
        apply Emits_for_each. intros k. apply Emits_ParseProgramKey_files.
      + constructor. }
  rewrite Forall_forall in H. exact (H e He).
Qed.

Lemma X14_files_never_set_witness :
  In (mkEvent (PosixTime 600) TIME_DESCRIPTION_INSTALLATION,
      ProgramEventData
        (AMCacheProgramEventData.setattr AMCacheProgramEventData.init
           "name" (PyStr "second")))
    (produced (ParseFileObject (hive_of good_programs_root)))
  /\ AMCacheProgramEventData.files
       (AMCacheProgramEventData.setattr AMCacheProgramEventData.init
          "name" (PyStr "second"))
     = PyNone.
Proof.
  assert (H : In (mkEvent (PosixTime 600) TIME_DESCRIPTION_INSTALLATION,
                  ProgramEventData
                    (AMCacheProgramEventData.setattr
                       AMCacheProgramEventData.init "name" (PyStr "second")))
                (produced (ParseFileObject (hive_of good_programs_root)))).
  { vm_compute. right. right. right. left. reflexivity. }
  split; [exact H |].
  exact (X14_files_never_set (hive_of good_programs_root) _ _ H eq_refl).
Defined.

(** ** The walk of a Root key, step by step *)

(** X17: the run of [_ParseRootKey] on any Root key and any mediator is
    the run of its steps in order, up to the first step that raises: the
    default event of Root at the path "\Root"; then, for each sub key of
    Root in order, the default events of the keys of the subtree of the
    sub key in pre-order, and after them the specialized handling of the
    sub key (the file entries of a sub key "File", the program entries of
    a sub key "Programs", nothing for another name).  A step that returns
    hands over its events and warnings and the next step runs; the first
    step that raises, a default event whose value summary cannot be
    formatted or a specialized handling, ends the walk with its exception
    after what it has handed over, and no later step runs. *)
Theorem X17_ParseRootKey_event_order (root_key : RegfKey) (m : Mediator) :
  _ParseRootKey root_key m
  = (extend m
       (trace_events (run_steps (root_steps root_key)))
       (trace_warnings (run_steps (root_steps root_key))),
     trace_outcome (run_steps (root_steps root_key)))
  /\ (forall step steps,
        run_steps (step :: steps)
        = match trace_outcome (step_trace step) with
          | Ok _ =>
              mkTrace
                (trace_events (step_trace step)
                 ++ trace_events (run_steps steps))%list
                (trace_warnings (step_trace step)
                 ++ trace_warnings (run_steps steps))%list
                (trace_outcome (run_steps steps))
          | Raise e =>
              mkTrace (trace_events (step_trace step))
                (trace_warnings (step_trace step)) (Raise e)
          end)
  /\ run_steps [] = mkTrace [] [] (Ok tt)
  /\ (forall key_path regf_key m',
        _ProduceDefaultWindowsRegistryEvent regf_key key_path None m'
        = (extend m' (trace_events (step_trace (Visit key_path regf_key)))
             (trace_warnings (step_trace (Visit key_path regf_key))),
           trace_outcome (step_trace (Visit key_path regf_key))))
  /\ (forall sub_key m',
        (if key_name sub_key =? "File" then _ParseFileKey sub_key
         else if key_name sub_key =? "Programs"
              then _ParseProgramsKey sub_key
              else ret tt) m'
        = (extend m' (trace_events (step_trace (Specialized sub_key)))
             (trace_warnings (step_trace (Specialized sub_key))),
           trace_outcome (step_trace (Specialized sub_key)))).
Proof.
  split; [apply ParseRootKey_runs |].
  split; [reflexivity |]. split; [reflexivity |]. split.
  - intros key_path regf_key m'.
    apply (ProduceDefaultWindowsRegistryEvent_runs regf_key key_path None m').
  - intros sub_key m'.
    exact (Emits_Appends _ _ (Emits_specialized sub_key) m').
Qed.

(** ** A SHA-1 value that is not a text *)

(** X18: when a file-reference key holds a value "101" that does not
    decode to a text (an integer, a multi-string or a binary value, a
    value without data, or a value whose read has faulted and so decodes
    to [None]), the file entry decoder raises at the test
    [value_data.startswith], before any time value is read: it hands over
    no event, and the exception is a [TypeError] for binary data and an
    [AttributeError] in the other cases. *)
Theorem X18_sha1_not_text (file_reference_key : RegfKey) (value : RegfValue) :
  get_value_by_name file_reference_key "101" = Some value ->
  (forall s, decoded value <> PyStr s) ->
  exists ws e,
    Runs (_ParseFileReferenceKey file_reference_key) [] ws (Raise e)
    /\ exc_kind e = match decoded value with
                    | PyBytes _ => TypeError
                    | _ => AttributeError
                    end.
Proof.
  intros Hget Hnot.
  destruct (file_value_steps_other file_reference_key
              (removelast _FILE_REFERENCE_KEY_VALUES) eq_refl
              (AMCacheFileEventData.set_file_reference
                 AMCacheFileEventData.init
                 (file_reference_of (key_name file_reference_key))))
    as (ws8 & d8 & H8).
  assert (Hlast : exists e,
    Runs (file_value_step file_reference_key ("101", "sha1") d8) []
      (decode_warnings value) (Raise e)
    /\ exc_kind e = match decoded value with
                    | PyBytes _ => TypeError
                    | _ => AttributeError
                    end).
  { unfold file_value_step. simpl fst. simpl snd. rewrite Hget.
    destruct (decoded value) as [| s | z | l | b] eqn:Hdec;
      [| now contradiction (Hnot s) | | |];
      (eexists; split;
       [ run_bind (found_value_runs _ _ _ Hget); rewrite Hdec; simpl;
         apply Runs_bind_raise, Runs_bind_raise, Runs_raise
       | reflexivity ]). }
  destruct Hlast as (e & Hlast & Hkind).
  exists (ws8 ++ decode_warnings value)%list, e. split; [| exact Hkind].
  unfold _ParseFileReferenceKey.
  run_bind (set_file_reference_from_name_runs (key_name file_reference_key)).
  apply Runs_bind_raise. unfold map_file_reference_values.
  change _FILE_REFERENCE_KEY_VALUES with
    (removelast _FILE_REFERENCE_KEY_VALUES ++ [("101", "sha1")])%list.
  change (@nil (DateTimeValuesEvent * EventData)) with
    (@nil (DateTimeValuesEvent * EventData) ++ [])%list.
  eapply Runs_for_fold_app; [exact H8 |].
  simpl for_fold. apply Runs_bind_raise. exact Hlast.
Qed.

Lemma X18_sha1_not_text_witness :
  get_value_by_name unreadable_sha1_key "101" = Some (unreadable_sz_value "101")
  /\ (forall s, decoded (unreadable_sz_value "101") <> PyStr s)
  /\ exists ws e,
       Runs (_ParseFileReferenceKey unreadable_sha1_key) [] ws (Raise e)
       /\ exc_kind e = AttributeError.
Proof.
  split; [reflexivity |]. split; [discriminate |].
  apply (X18_sha1_not_text unreadable_sha1_key (unreadable_sz_value "101"));
    [reflexivity | discriminate].
Defined.

(** ** The loop over the program keys *)

Lemma time_outcome_readable regf_key name :
  time_outcome regf_key name = Ok tt <-> readable_time regf_key name = true.
Proof.
  unfold time_outcome, readable_time.
  destruct (get_value_by_name regf_key name) as [v |]; [| tauto].
  destruct (get_data_as_integer v); split; intros; congruence.
Qed.

Lemma time_event_count regf_key name clock description event_data :
  readable_time regf_key name = true ->
  List.length (time_event regf_key name clock description event_data)
  = if has_value regf_key name then 1 else 0.
Proof.
  unfold readable_time, time_event, has_value.
  destruct (get_value_by_name regf_key name) as [v |]; [| reflexivity].
  destruct (get_data_as_integer v); [reflexivity | discriminate].
Qed.

Lemma ParseProgramsKey_loop (l : list RegfKey) :
  exists es ws r,
    Runs (for_each _ParseProgramKey l) es ws r
    /\ (r = Ok tt <->
        forall program_key, In program_key l ->
          readable_time program_key _AMCACHE_P_INSTALLATION_TIME = true)
    /\ (r = Ok tt ->
        List.length es
        = List.length
            (filter (fun program_key =>
                       has_value program_key _AMCACHE_P_INSTALLATION_TIME) l)).
Proof.
  induction l as [| k l (es & ws & r & Hrun & Hok & Hlen)].
  - exists [], [], (Ok tt). split; [apply Runs_ret |].
    split; [| reflexivity]. split; [intros _ ? [] | reflexivity].
  - destruct (map_program_values_runs k AMCacheProgramEventData.init)
      as (ws0 & d & Hmap).
    pose proof (ParseProgramKey_runs k ws0 d Hmap) as Hk.
    pose proof (time_outcome_readable k _AMCACHE_P_INSTALLATION_TIME) as Hread.
    destruct (time_outcome k _AMCACHE_P_INSTALLATION_TIME) as [[] | e].
    + pose proof (proj1 Hread eq_refl) as Hr.
      eexists _, _, r. split; [| split].
      * cbn [for_each]. eapply Runs_bind_ok; [exact Hk | exact Hrun].
      * rewrite Hok. split.
        -- intros H k' [<- | Hin]; auto.
        -- intros H k' Hin. apply H. now right.
      * intros Hrok. rewrite length_app, (Hlen Hrok).
        rewrite (time_event_count _ _ _ _ _ Hr). simpl.
        destruct (has_value k _AMCACHE_P_INSTALLATION_TIME); reflexivity.
    + eexists _, _, (Raise e). split; [| split].
      * cbn [for_each]. apply Runs_bind_raise. exact Hk.
      * split; [discriminate |].
        intros H. specialize (H k (or_introl eq_refl)).
        apply Hread in H. discriminate H.
      * discriminate.
Qed.

(** X19: the loop over the program keys returns without an exception
    exactly when the installation time "a" of every program key is absent
    or is read as an integer; it then hands over one event for each
    program key that holds a value "a", and no other event. *)
Theorem X19_ParseProgramsKey_outcome (programs_key : RegfKey) :
  (outcome (_ParseProgramsKey programs_key) = Ok tt <->
   forall program_key, In program_key (sub_keys programs_key) ->
     readable_time program_key "a" = true)
  /\ (outcome (_ParseProgramsKey programs_key) = Ok tt ->
      List.length (produced (_ParseProgramsKey programs_key))
      = List.length
          (filter (fun program_key => has_value program_key "a")
             (sub_keys programs_key))).
Proof.
  destruct (ParseProgramsKey_loop (sub_keys programs_key))
    as (es & ws & r & Hrun & Hok & Hlen).
  assert (Hrun' : Runs (_ParseProgramsKey programs_key) es ws r)
    by exact Hrun.
  destruct (Runs_produced _ _ _ _ Hrun') as (-> & _ & ->).
  split; [exact Hok | exact Hlen].
Qed.

(** ** The attributes of the file record *)

Lemma file_getattr_setattr_same d attribute_name v :
  In attribute_name AMCacheFileEventData.attributes ->
  file_getattr (AMCacheFileEventData.setattr d attribute_name v)
    attribute_name
  = Some v.
Proof.
  intros Hin. simpl in Hin.
  repeat (destruct Hin as [<- | Hin]; [reflexivity |]). contradiction.
Qed.

Lemma file_getattr_setattr_other d a a' v :
  a <> a' ->
  file_getattr (AMCacheFileEventData.setattr d a v) a' = file_getattr d a'.
Proof.
  intros Hne. unfold AMCacheFileEventData.setattr.
  repeat match goal with
    | |- context [if a =? ?b then _ else _] => destruct (a =? b) eqn:?
    end; try reflexivity;
    match goal with
    | H : (a =? _) = true |- _ => apply String.eqb_eq in H; subst a
    end;
    unfold file_getattr;
    repeat match goal with
      | |- context [if a' =? ?b then _ else _] => destruct (a' =? b) eqn:?
      end; try reflexivity;
    exfalso; apply Hne; symmetry; now apply String.eqb_eq.
Qed.

Lemma file_table_attributes_distinct :
  NoDup (map snd _FILE_REFERENCE_KEY_VALUES).
Proof. unfold _FILE_REFERENCE_KEY_VALUES; simpl. nodup_strings. Qed.

Lemma file_table_attribute_known item :
  In item _FILE_REFERENCE_KEY_VALUES ->
  In (snd item) AMCacheFileEventData.attributes.
Proof.
  intros Hin. pose proof file_attributes_known as H.
  rewrite forallb_forall in H. specialize (H item Hin).
  apply andb_prop in H. destruct H as [H _].
  apply existsb_exists in H. destruct H as (a & Ha & Heq).
  apply String.eqb_eq in Heq. now subst.
Qed.

(** The turns of the loop for attributes other than [sha1], of names
    that differ. *)
Lemma file_fold_attributes key (l : list (string * string)) :
  NoDup (map snd l) ->
  (forall item, In item l ->
     In (snd item) AMCacheFileEventData.attributes
     /\ (snd item =? "sha1") = false) ->
  forall d0, exists ws d,
    Runs (for_fold (file_value_step key) l d0) [] ws (Ok d)
    /\ (forall item, In item l ->
          file_getattr d (snd item)
          = match get_value_by_name key (fst item) with
            | Some v => Some (decoded v)
            | None => file_getattr d0 (snd item)
            end)
    /\ (forall a, ~ In a (map snd l) -> file_getattr d a = file_getattr d0 a).
Proof.
  induction l as [| item l IH]; intros Hnd Hknown d0.
  - exists [], d0. split; [apply Runs_ret |]. split; [intros ? [] | auto].
  - simpl in Hnd. inversion Hnd as [| ? ? Hnotin Hnd']; subst.
    destruct (Hknown item (or_introl eq_refl)) as [Hattr Hsha].
    assert (Hstep :
      Runs (file_value_step key item d0) []
        (match get_value_by_name key (fst item) with
         | Some v => decode_warnings v
         | None => []
         end)
        (Ok (match get_value_by_name key (fst item) with
             | Some v => AMCacheFileEventData.setattr d0 (snd item) (decoded v)
             | None => d0
             end))).
    { unfold file_value_step. rewrite Hsha.
      destruct (get_value_by_name key (fst item)) as [value |] eqn:Hget;
        [| apply Runs_ret].
      run_bind (found_value_runs _ _ _ Hget).
      run_bind (Runs_ret (decoded value)). apply Runs_ret. }
    destruct (IH Hnd' (fun it Hit => Hknown it (or_intror Hit))
                (match get_value_by_name key (fst item) with
                 | Some v =>
                     AMCacheFileEventData.setattr d0 (snd item) (decoded v)
                 | None => d0
                 end))
      as (ws' & d & Hrun & Hitems & Hother).
    eexists _, d. split; [| split].
    + cbn [for_fold]. run_bind Hstep. exact Hrun.
    + intros it [<- | Hin].
      * rewrite (Hother _ Hnotin).
        destruct (get_value_by_name key (fst item)); [| reflexivity].
        apply file_getattr_setattr_same, Hattr.
      * rewrite (Hitems it Hin).
        destruct (get_value_by_name key (fst it)); [reflexivity |].
        destruct (get_value_by_name key (fst item)); [| reflexivity].
        apply file_getattr_setattr_other.
        intros Heq. apply Hnotin. rewrite Heq. now apply in_map.
    + intros a Ha. simpl in Ha. rewrite Hother by tauto.
      destruct (get_value_by_name key (fst item)); [| reflexivity].
      apply file_getattr_setattr_other. tauto.
Qed.

Lemma file_table_other_items item :
  In item (removelast _FILE_REFERENCE_KEY_VALUES) ->
  In (snd item) AMCacheFileEventData.attributes
  /\ (snd item =? "sha1") = false.
Proof.
  intros Hin. split.
  - apply file_table_attribute_known.
    change _FILE_REFERENCE_KEY_VALUES with
      (removelast _FILE_REFERENCE_KEY_VALUES ++ [("101", "sha1")])%list.
    apply in_or_app. now left.
  - simpl in Hin.
    repeat (destruct Hin as [<- | Hin]; [reflexivity |]). contradiction.
Qed.

(** The turn of the loop for [sha1], on a value that does not decode to
    a text. *)
Lemma file_value_step_sha1_raise key value d :
  get_value_by_name key "101" = Some value ->
  (forall s, decoded value <> PyStr s) ->
  exists e,
    Runs (file_value_step key ("101", "sha1") d) [] (decode_warnings value)
      (Raise e).
Proof.
  intros Hget Hnot. unfold file_value_step. simpl fst. simpl snd.
  rewrite Hget.
  destruct (decoded value) as [| s | z | l | b] eqn:Hdec;
    [| now contradiction (Hnot s) | | |];
    (eexists;
     run_bind (found_value_runs _ _ _ Hget); rewrite Hdec; simpl;
     apply Runs_bind_raise, Runs_bind_raise, Runs_raise).
Qed.

(** X20: the record of a file-reference key.  The loop over the mapping
    table raises exactly when the key holds a value "101" that does not
    decode to a text.  When it returns, every attribute of the table other
    than [sha1] is the decoded value of the value of its name, or [None]
    when the key has no value of that name or the value cannot be read;
    [file_reference] is as computed from the name of the key; and [sha1]
    is [None] without a value "101" and the text of the value, without a
    prefix "0000", with it. *)
Theorem X20_file_attributes (file_reference_key : RegfKey) :
  exists ws r,
    Runs (map_file_reference_values file_reference_key
            (AMCacheFileEventData.set_file_reference
               AMCacheFileEventData.init
               (file_reference_of (key_name file_reference_key))))
      [] ws r
    /\ match r with
       | Ok d =>
           (forall value_name attribute_name,
               In (value_name, attribute_name) _FILE_REFERENCE_KEY_VALUES ->
               attribute_name <> "sha1" ->
               file_getattr d attribute_name
               = Some (match get_value_by_name file_reference_key value_name
                       with
                       | Some v => decoded v
                       | None => PyNone
                       end))
           /\ AMCacheFileEventData.file_reference d
              = file_reference_of (key_name file_reference_key)
           /\ match get_value_by_name file_reference_key "101" with
              | None => AMCacheFileEventData.sha1 d = PyNone
              | Some v =>
                  exists s,
                    decoded v = PyStr s
                    /\ AMCacheFileEventData.sha1 d
                       = PyStr (if startswith s "0000" then drop 4 s else s)
              end
       | Raise e =>
           exists v,
             get_value_by_name file_reference_key "101" = Some v
             /\ forall s, decoded v <> PyStr s
       end.
Proof.
  set (d0 := AMCacheFileEventData.set_file_reference
               AMCacheFileEventData.init
               (file_reference_of (key_name file_reference_key))).
  assert (Hnd8 : NoDup (map snd (removelast _FILE_REFERENCE_KEY_VALUES)))
    by (simpl; nodup_strings).
  destruct (file_fold_attributes file_reference_key
              (removelast _FILE_REFERENCE_KEY_VALUES) Hnd8
              file_table_other_items d0)
    as (ws8 & d8 & H8 & Hitems & Hother).
  assert (Hsplit : forall es ws r,
    Runs (s <- file_value_step file_reference_key ("101", "sha1") d8 ;;
          ret s) es ws r ->
    Runs (map_file_reference_values file_reference_key d0) es
      (ws8 ++ ws)%list r).
  { intros es ws r Hr. unfold map_file_reference_values.
    change _FILE_REFERENCE_KEY_VALUES with
      (removelast _FILE_REFERENCE_KEY_VALUES ++ [("101", "sha1")])%list.
    change es with ([] ++ es)%list.
    eapply Runs_for_fold_app; [exact H8 | exact Hr]. }
  assert (Hrest : forall value_name attribute_name,
    In (value_name, attribute_name) _FILE_REFERENCE_KEY_VALUES ->
    attribute_name <> "sha1" ->
    file_getattr d8 attribute_name
    = Some (match get_value_by_name file_reference_key value_name with
            | Some v => decoded v
            | None => PyNone
            end)).
  { intros value_name attribute_name Hin Hne.
    change _FILE_REFERENCE_KEY_VALUES with
      (removelast _FILE_REFERENCE_KEY_VALUES ++ [("101", "sha1")])%list in Hin.
    apply in_app_or in Hin. destruct Hin as [Hin | [[= <- <-] | []]];
      [| now contradiction Hne].
    pose proof (Hitems _ Hin) as Hitem. simpl fst in Hitem.
    simpl snd in Hitem. rewrite Hitem.
    destruct (get_value_by_name file_reference_key value_name);
      [reflexivity |].
    simpl in Hin.
    repeat (destruct Hin as [[= <- <-] | Hin]; [reflexivity |]).
    contradiction. }
  assert (Href8 : file_getattr d8 "file_reference"
                  = Some (file_reference_of (key_name file_reference_key))).
  { rewrite Hother; [reflexivity |].
    simpl. intuition discriminate. }
  assert (Hsha8 : file_getattr d8 "sha1" = Some PyNone).
  { rewrite Hother; [reflexivity |].
    simpl. intuition discriminate. }
  destruct (get_value_by_name file_reference_key "101") as [value |] eqn:Hget.
  - destruct (decoded value) as [| s | z | l | b] eqn:Hdec.
    2: { pose proof (file_value_step_sha1 file_reference_key value s d8
                       Hget Hdec) as Hstep.
         eexists _, _. split.
         - apply Hsplit. run_bind Hstep. apply Runs_ret.
         - cbv beta iota. split; [| split].
           + intros value_name attribute_name Hin Hne.
             rewrite file_getattr_setattr_other by congruence.
             now apply Hrest.
           + assert (H : file_getattr
                           (AMCacheFileEventData.setattr d8 "sha1"
                              (PyStr (if startswith s "0000"
                                      then drop 4 s else s)))
                           "file_reference"
                         = Some (file_reference_of
                                   (key_name file_reference_key))).
             { rewrite file_getattr_setattr_other by discriminate.
               exact Href8. }
             now injection H.
           + exists s. split; reflexivity. }
    all: destruct (file_value_step_sha1_raise file_reference_key value d8 Hget)
           as (e & Hstep); [rewrite Hdec; discriminate |];
         exists (ws8 ++ decode_warnings value)%list, (Raise e);
         (split;
          [ apply Hsplit, Runs_bind_raise; exact Hstep
          | exists value; split; [reflexivity |];
            rewrite Hdec; discriminate ]).
  - assert (Hstep :
      Runs (file_value_step file_reference_key ("101", "sha1") d8) [] []
        (Ok d8)).
    { unfold file_value_step. simpl fst. rewrite Hget. apply Runs_ret. }
    eexists _, _. split.
    + apply Hsplit. run_bind Hstep. apply Runs_ret.
    + cbv beta iota. split; [exact Hrest | split].
      * now injection Href8.
      * now injection Hsha8.
Qed.
